(** * VoxPrep speaker-notes synchronisation core (voxnotes.py)

    A shallow embedding of the text core of [voxnotes.py]: the sanitizer,
    the three serializers and their parsers, the differ and the applier,
    followed by the properties of the specification that concern them.

    Python values are modelled as follows.
    - [str] is a list of Unicode code points ([Z], as given by [ord]).
    - [int] is [Z].
    - a note dict [{"slide_number", "slide_title", "notes"}] is the record
      [Note]; a change dict is the record [Change].
    - a [dict] keyed by slide number is an association list kept in
      insertion order, which is the iteration order of a Python dict.
    - an exception is the text of its message. *)

From Stdlib Require Import List ZArith Lia Bool String Ascii Sorted.
Import ListNotations.
Local Open Scope Z_scope.

(* ================================================================== *)
(** * Text *)
(* ================================================================== *)

Module Text.

Definition char := Z.
Definition str := list char.

(** An ASCII literal of the source, as code points. *)
Definition lit (s : string) : str :=
  map (fun a => Z.of_N (N_of_ascii a)) (list_ascii_of_string s).

Definition LF : char := 10.
Definition CR : char := 13.

Fixpoint str_eqb (a b : str) : bool :=
  match a, b with
  | [], [] => true
  | x :: a', y :: b' => (x =? y) && str_eqb a' b'
  | _, _ => false
  end.

(** Python truthiness of a string: non-empty. *)
Definition truthy (s : str) : bool :=
  match s with [] => false | _ => true end.

(** [c in s] for a character. *)
Definition mem (c : char) (s : list Z) : bool := existsb (Z.eqb c) s.

(** [str.isspace] for one character, which is also the class [\s] of
    [re] on [str] patterns. *)
Definition isspace (c : char) : bool :=
  ((9 <=? c) && (c <=? 13)) || ((28 <=? c) && (c <=? 32))
  || mem c [133; 160; 5760; 8232; 8233; 8239; 8287; 12288]
  || ((8192 <=? c) && (c <=? 8202)).

(** First code point of every run of ten decimal digits (Unicode 14,
    category Nd); the digit value is the offset in the run.  This is the
    class [\d] of [re] on [str] patterns and what [int] accepts. *)
Definition decimal_blocks : list Z :=
  [48; 1632; 1776; 1984; 2406; 2534; 2662; 2790; 2918; 3046; 3174; 3302;
   3430; 3558; 3664; 3792; 3872; 4160; 4240; 6112; 6160; 6470; 6608; 6784;
   6800; 6992; 7088; 7232; 7248; 42528; 43216; 43264; 43472; 43504; 43600;
   44016; 65296; 66720; 68912; 69734; 69872; 69942; 70096; 70384; 70736;
   70864; 71248; 71360; 71472; 71904; 72016; 72784; 73040; 73120; 92768;
   92864; 93008; 120782; 120792; 120802; 120812; 120822; 123200; 123632;
   125264; 130032].

Definition decimal_value (c : char) : option Z :=
  match find (fun b => (b <=? c) && (c <? b + 10)) decimal_blocks with
  | Some b => Some (c - b)
  | None => None
  end.

Definition isdecimal (c : char) : bool :=
  match decimal_value c with Some _ => true | None => false end.

(** [takewhile]/[dropwhile] over a string. *)
Fixpoint takewhile (p : char -> bool) (s : str) : str :=
  match s with
  | c :: s' => if p c then c :: takewhile p s' else []
  | [] => []
  end.

Fixpoint dropwhile (p : char -> bool) (s : str) : str :=
  match s with
  | c :: s' => if p c then dropwhile p s' else s
  | [] => []
  end.

(** [s.lstrip()], [s.rstrip()] and [s.strip()] (no argument: whitespace). *)
Definition lstrip (s : str) : str := dropwhile isspace s.

Fixpoint rstrip (s : str) : str :=
  match s with
  | [] => []
  | c :: s' =>
      match rstrip s' with
      | [] => if isspace c then [] else [c]
      | r => c :: r
      end
  end.

Definition strip (s : str) : str := lstrip (rstrip s).

(** [s.split('\n')]: never empty, [''.split('\n') == ['']]. *)
Fixpoint split_nl (s : str) : list str :=
  match s with
  | [] => [[]]
  | c :: s' =>
      if c =? LF then [] :: split_nl s'
      else match split_nl s' with
           | l :: ls => (c :: l) :: ls
           | [] => [[c]]
           end
  end.

(** ['\n'.join(lines)]. *)
Fixpoint join_nl (lines : list str) : str :=
  match lines with
  | [] => []
  | [l] => l
  | l :: ls => l ++ LF :: join_nl ls
  end.

(** [s.startswith(p)]. *)
Fixpoint startswith (p s : str) : bool :=
  match p, s with
  | [], _ => true
  | x :: p', y :: s' => (x =? y) && startswith p' s'
  | _ :: _, [] => false
  end.

(** [c * n] for a one-character string [c]. *)
Definition times (c : char) (n : nat) : str := repeat c n.

(** [range(n)]. *)
Definition range (n : nat) : list Z := map Z.of_nat (seq 0 n).

(** Decimal rendering of a natural number, most significant digit first.
    [fuel] bounds the number of digits. *)
Fixpoint digits_from (fuel : nat) (n : Z) (acc : str) : str :=
  match fuel with
  | O => acc
  | S f =>
      let acc' := (48 + n mod 10) :: acc in
      if n <? 10 then acc' else digits_from f (n / 10) acc'
  end.

(** [str(n)] / [f"{n}"] for an [int] that the interpreter prints: one of
    at most [sys.get_int_max_str_digits()] = 4300 digits, as every slide
    number is that [extract_notes] or a parser returns. *)
Definition str_of_int (n : Z) : str :=
  if n <? 0
  then 45 :: digits_from (S (Z.to_nat (Z.log2 (- n)))) (- n) []
  else digits_from (S (Z.to_nat (Z.log2 n))) n [].

(** [sys.get_int_max_str_digits()]: the interpreter converts no text of
    more digits to an [int], and no [int] of more digits to text. *)
Definition INT_MAX_STR_DIGITS : Z := 4300.

(** The value of a string that [\d+] matched: every character is a decimal
    digit of some script. *)
Definition int_of_digits (s : str) : Z :=
  fold_left
    (fun acc c => 10 * acc + match decimal_value c with Some v => v | None => 0 end)
    s 0.

End Text.
Import Text.

(* ================================================================== *)
(** * Sanitizer *)
(* ================================================================== *)

(** [str.maketrans('', '', z)]: every character of [z] maps to [None]. *)
Definition maketrans_delete (z : str) : list (Z * option char) :=
  map (fun c => (c, None)) z.

Fixpoint table_get (table : list (Z * option char)) (c : char)
  : option (option char) :=
  match table with
  | [] => None
  | (k, v) :: rest => if k =? c then Some v else table_get rest c
  end.

(** [text.translate(table)]: a character mapped to [None] is deleted, one
    that is mapped to a character is replaced, one without entry is kept. *)
Definition translate (text : str) (table : list (Z * option char)) : str :=
  flat_map
    (fun c =>
       match table_get table c with
       | Some None => []
       | Some (Some c') => [c']
       | None => [c]
       end)
    text.

Definition delete_chars : str :=
  filter (fun i => negb (mem i [9; 10; 13])) (range 32) ++ [127].

Definition sanitize_text (text : str) : str :=
  if negb (truthy text) then text
  else translate text (maketrans_delete delete_chars).

(** The characters the specification says are removed: the control range
    [0x00..0x1F] without tab, line feed and carriage return, and DEL. *)
Definition is_removed (c : char) : bool :=
  ((0 <=? c) && (c <? 32) && negb ((c =? 9) || (c =? 10) || (c =? 13)))
  || (c =? 127).

(* ================================================================== *)
(** * Data model *)
(* ================================================================== *)

(** A note dict: [{"slide_number": .., "slide_title": .., "notes": ..}]. *)
Record Note := mkNote {
  slide_number : Z;
  slide_title : str;
  notes : str
}.

(** The value of ["change_type"]: the literals ["added"], ["removed"] and
    ["modified"]. *)
Inductive ChangeType := added | removed | modified.

(** A change dict of [compare_notes]. *)
Record Change := mkChange {
  change_slide_number : Z;
  change_slide_title : str;
  original_notes : str;
  edited_notes : str;
  change_type : ChangeType
}.

(** The result dict of [apply_notes]; an error entry is the text
    [f"Slide {slide_num}: {e}"]. *)
Record Outcome := mkOutcome {
  applied : list Z;
  skipped : list Z;
  errors : list str
}.

(** A call either returns or raises; an exception is its message. *)
Inductive result (A : Type) :=
| Ok (a : A)
| Raise (msg : str).
Arguments Ok {A} a.
Arguments Raise {A} msg.

(* ================================================================== *)
(** * Differ *)
(* ================================================================== *)

(** A dict keyed by slide number, in insertion order.  Assigning to a key
    that is present replaces the value and keeps the key's position. *)
Definition dict (V : Type) := list (Z * V).

Fixpoint dict_set {V} (d : dict V) (k : Z) (v : V) : dict V :=
  match d with
  | [] => [(k, v)]
  | (k', v') :: d' =>
      if k' =? k then (k', v) :: d' else (k', v') :: dict_set d' k v
  end.

Fixpoint dict_get {V} (d : dict V) (k : Z) : option V :=
  match d with
  | [] => None
  | (k', v) :: d' => if k' =? k then Some v else dict_get d' k
  end.

(** [{n["slide_number"]: n for n in l}]. *)
Definition by_slide (l : list Note) : dict Note :=
  fold_left (fun d n => dict_set d (slide_number n) n) l [].

(** The body of the loop of [compare_notes] for one item of
    [edited_by_slide]: the change it appends, if any. *)
Definition compare_slide (original_note : option Note)
    (slide_num : Z) (edited_note : Note) : option Change :=
  match original_note with
  | None =>
      if truthy (notes edited_note)
      then Some (mkChange slide_num (slide_title edited_note)
                          [] (notes edited_note) added)
      else None
  | Some original_note =>
      let orig_text := strip (notes original_note) in
      let edit_text := strip (notes edited_note) in
      if negb (str_eqb orig_text edit_text) then
        let change_type :=
          if negb (truthy orig_text) && truthy edit_text then added
          else if truthy orig_text && negb (truthy edit_text) then removed
          else modified in
        Some (mkChange slide_num (slide_title original_note)
                       orig_text edit_text change_type)
      else None
  end.

Definition compare_notes (original edited : list Note) : list Change :=
  let original_by_slide := by_slide original in
  let edited_by_slide := by_slide edited in
  fold_left
    (fun changes item =>
       match compare_slide (dict_get original_by_slide (fst item))
                           (fst item) (snd item) with
       | Some change => changes ++ [change]
       | None => changes
       end)
    edited_by_slide [].

(** The slide numbers of a list in the order of their first occurrence. *)
Fixpoint first_occurrences (l : list Z) : list Z :=
  match l with
  | [] => []
  | x :: l' => x :: filter (fun y => negb (y =? x)) (first_occurrences l')
  end.

(** The last record of a list that carries a given slide number. *)
Definition last_with (n : Z) (l : list Note) : option Note :=
  find (fun r => slide_number r =? n) (rev l).

Definition option_list {A} (o : option A) : list A :=
  match o with Some a => [a] | None => [] end.

(* ================================================================== *)
(** * Applier *)
(* ================================================================== *)

(** The host application, as far as [apply_notes] touches it.  A shape of
    a notes page answers [PlaceholderFormat.Type] and [HasTextFrame] and
    accepts an assignment to [TextFrame.TextRange.Text]; each of the three
    may raise. *)
Record Shape := mkShape {
  PlaceholderFormat_Type : result Z;
  HasTextFrame : result bool;
  set_Text : str -> result unit
}.

(** [slide.NotesPage] followed by the enumeration of its [Shapes]. *)
Record Slide := mkSlide {
  NotesPage_Shapes : result (list Shape)
}.

Record Presentation := mkPresentation {
  Slides_Item : Z -> result Slide;
  Save : result unit
}.

(** [HAS_COM], the start of the application ([EnsureDispatch], [Dispatch],
    [Visible]) and [app.Presentations.Open] at its n-th call. *)
Record Host := mkHost {
  HAS_COM : bool;
  Dispatch : result unit;
  Presentations_Open : nat -> result Presentation
}.

Definition COM_RETRY_ATTEMPTS : nat := 3.

(** The loop of [open_presentation_with_retry] from attempt [attempt] on,
    with [left] attempts to go. *)
Fixpoint open_attempts (app : Host) (max_attempts attempt left : nat)
    (last_error : str) : result Presentation :=
  match left with
  | O =>
      Raise (lit "Failed to open presentation after "
             ++ str_of_int (Z.of_nat max_attempts)
             ++ lit " attempts: " ++ last_error)
  | S left' =>
      match Presentations_Open app attempt with
      | Ok pres => Ok pres
      | Raise e => open_attempts app max_attempts (S attempt) left' e
      end
  end.

Definition open_presentation_with_retry (app : Host) : result Presentation :=
  open_attempts app COM_RETRY_ATTEMPTS 1 COM_RETRY_ATTEMPTS (lit "None").

(** The inner loop over the shapes of a notes page: [true] when a body
    placeholder took the text (the [break]); a shape that raises is passed
    over by the bare [except: continue]. *)
Fixpoint write_body_placeholder (shapes : list Shape) (new_notes : str) : bool :=
  match shapes with
  | [] => false
  | shape :: rest =>
      match PlaceholderFormat_Type shape with
      | Ok t =>
          if t =? 2 then
            match HasTextFrame shape with
            | Ok true =>
                match set_Text shape new_notes with
                | Ok _ => true
                | Raise _ => write_body_placeholder rest new_notes
                end
            | Ok false => write_body_placeholder rest new_notes
            | Raise _ => write_body_placeholder rest new_notes
            end
          else write_body_placeholder rest new_notes
      | Raise _ => write_body_placeholder rest new_notes
      end
  end.

(** What the outer [try] of the loop body sees before the inner loop:
    the shapes of the slide's notes page, or the exception. *)
Definition notes_shapes (pres : Presentation) (slide_num : Z)
  : result (list Shape) :=
  match Slides_Item pres slide_num with
  | Ok slide => NotesPage_Shapes slide
  | Raise e => Raise e
  end.

Definition error_entry (slide_num : Z) (e : str) : str :=
  lit "Slide " ++ str_of_int slide_num ++ lit ": " ++ e.

(** One iteration of [for change in changes]. *)
Definition apply_change (pres : Presentation) (res : Outcome) (change : Change)
  : Outcome :=
  let slide_num := change_slide_number change in
  let new_notes := edited_notes change in
  match notes_shapes pres slide_num with
  | Ok shapes =>
      if write_body_placeholder shapes new_notes
      then mkOutcome (applied res ++ [slide_num]) (skipped res) (errors res)
      else res
  | Raise e =>
      mkOutcome (applied res) (skipped res)
                (errors res ++ [error_entry slide_num e])
  end.

(** [changes] after the filter on [slides_to_apply]. *)
Definition selected (changes : list Change) (slides_to_apply : option (list Z))
  : list Change :=
  match slides_to_apply with
  | Some l => filter (fun c => mem (change_slide_number c) l) changes
  | None => changes
  end.

Definition failed_to_apply (e : str) : str := lit "Failed to apply notes: " ++ e.

Definition apply_notes (host : Host) (changes : list Change)
    (slides_to_apply : option (list Z)) : result Outcome :=
  if negb (HAS_COM host) then Raise (lit "Windows COM API not available")
  else
    let changes := selected changes slides_to_apply in
    match changes with
    | [] => Ok (mkOutcome [] [] [])
    | _ =>
        match Dispatch host with
        | Raise e => Raise (failed_to_apply e)
        | Ok _ =>
            match open_presentation_with_retry host with
            | Raise e => Raise (failed_to_apply e)
            | Ok pres =>
                let res := fold_left (apply_change pres) changes
                                     (mkOutcome [] [] []) in
                match Save pres with
                | Raise e => Raise (failed_to_apply e)
                | Ok _ => Ok res
                end
            end
        end
    end.

(* ================================================================== *)
(** * Files *)
(* ================================================================== *)

(** A text file opened with [open(path, 'w', encoding='utf-8')]: on write
    every ['\n'] becomes [os.linesep], which is ["\r\n"] when
    [crlf] holds (Windows) and ["\n"] otherwise.  The file is modelled by
    its text; the encoding and its errors are not. *)
Definition write_text (crlf : bool) (s : str) : str :=
  if crlf then flat_map (fun c => if c =? LF then [CR; LF] else [c]) s else s.

(** [f.read()] of a file opened with [open(path, 'r', encoding='utf-8')]:
    universal newlines, ["\r\n"] and a lone ["\r"] are read as ["\n"]. *)
Fixpoint read_text (s : str) : str :=
  match s with
  | [] => []
  | c :: s' =>
      if c =? CR then
        match s' with
        | c2 :: s'' => if c2 =? LF then LF :: read_text s'' else LF :: read_text s'
        | [] => [LF]
        end
      else c :: read_text s'
  end.

(** A paragraph of a Word document: the text that [para.text] returns and
    the bold and italic marks of its run. *)
Record Paragraph := mkParagraph {
  para_text : str;
  para_bold : bool;
  para_italic : bool
}.

(** The text of a run as python-docx gives it back: a carriage return
    given to [add_run]/[add_paragraph] is stored as a line break, like a
    line feed, and a line break reads as ['\n']. *)
Definition run_text (s : str) : str :=
  map (fun c => if c =? CR then LF else c) s.

(** [doc.add_paragraph(text)], with the marks set on the run afterwards. *)
Definition add_paragraph (s : str) (is_bold is_italic : bool) : Paragraph :=
  mkParagraph (run_text s) is_bold is_italic.

(* ================================================================== *)
(** * Serializers *)
(* ================================================================== *)

Definition RULE_LIGHT : char := 9472.   (* U+2500 *)
Definition RULE_DOUBLE : char := 9552.  (* U+2550 *)

Definition NO_NOTES : str := lit "[No notes]".
Definition NO_NOTES_MD : str := lit "*[No notes]*".

(** [f"Slide {slide_num}: {title}"] or [f"Slide {slide_num}"]. *)
Definition header_text (slide_num : Z) (title : str) : str :=
  if truthy title
  then lit "Slide " ++ str_of_int slide_num ++ lit ": " ++ title
  else lit "Slide " ++ str_of_int slide_num.

(** The lines that one pass of the loop of [export_to_txt] appends. *)
Definition txt_lines_of (note : Note) : list str :=
  [header_text (slide_number note) (slide_title note);
   times RULE_LIGHT 50;
   [];
   (if truthy (notes note) then notes note else NO_NOTES);
   [];
   times RULE_DOUBLE 50;
   []].

(** The text that [export_to_txt] writes, as it lies in the file. *)
Definition export_to_txt (crlf : bool) (notes : list Note) : str :=
  let lines := flat_map txt_lines_of notes in
  write_text crlf (join_nl lines).

(** The lines that one pass of the loop of [export_to_md] appends. *)
Definition md_lines_of (note : Note) : list str :=
  [lit "## " ++ header_text (slide_number note) (slide_title note);
   [];
   (if truthy (notes note) then notes note else NO_NOTES_MD);
   [];
   lit "---";
   []].

Definition export_to_md (crlf : bool) (notes : list Note) : str :=
  let lines := [lit "# Speaker Notes"; []] ++ flat_map md_lines_of notes in
  write_text crlf (join_nl lines).

(** The header of [export_to_docx]: the title is tested as it is given and
    written sanitized, so a title made of removed characters leaves the
    colon and the space behind. *)
Definition docx_header_text (slide_num : Z) (title : str) : str :=
  if truthy title
  then lit "Slide " ++ str_of_int slide_num ++ lit ": " ++ sanitize_text title
  else lit "Slide " ++ str_of_int slide_num.

(** The paragraphs that one pass of the loop of [export_to_docx] adds. *)
Definition docx_paragraphs_of (note : Note) : list Paragraph :=
  let header_text := docx_header_text (slide_number note) (slide_title note) in
  [add_paragraph header_text true false;
   add_paragraph (times RULE_LIGHT 50) false false]
  ++ (if truthy (notes note) then
        flat_map
          (fun para_text =>
             if truthy (strip para_text)
             then [add_paragraph (strip para_text) false false]
             else [])
          (split_nl (sanitize_text (notes note)))
      else [add_paragraph NO_NOTES false true])
  ++ [add_paragraph [] false false].

(** A character that the XML of a Word document cannot hold: NUL and the
    control characters below U+0020 other than tab, line feed and carriage
    return, the surrogates, U+FFFE and U+FFFF. *)
Definition xml_invalid (c : char) : bool :=
  ((0 <=? c) && (c <? 32) && negb (mem c [9; 10; 13]))
  || ((55296 <=? c) && (c <=? 57343))
  || (c =? 65534) || (c =? 65535).

(** A text that python-docx stores: tabs and line ends become elements
    of their own, the other characters go to lxml, which refuses the
    invalid ones with ValueError. *)
Definition xml_compatible (s : str) : bool :=
  forallb (fun c => negb (xml_invalid c)) s.

(** The text of the ValueError that lxml raises on such a text.  On a
    surrogate the ValueError is that of the UTF-8 encoder, whose text
    names the position; the text of lxml stands for both here. *)
Definition XML_ERROR : str :=
  lit "All strings must be XML compatible: Unicode or ASCII, no NULL bytes or control characters".

(** The document that [export_to_docx] saves; [has_docx] is [HAS_DOCX].
    Adding a run whose text is not XML compatible raises, and the
    function has no handler: no document is saved then. *)
Definition export_to_docx (has_docx : bool) (notes : list Note)
  : result (list Paragraph) :=
  if negb has_docx
  then Raise (lit "python-docx not installed (pip install python-docx)")
  else
    let doc := flat_map docx_paragraphs_of notes in
    if forallb (fun para => xml_compatible (para_text para)) doc
    then Ok doc
    else Raise XML_ERROR.

(* ================================================================== *)
(** * Parsers *)
(* ================================================================== *)

(** [$]: the end of the text, or just before a final line feed. *)
Definition at_end (s : str) : bool :=
  match s with
  | [] => true
  | [c] => c =? LF
  | _ => false
  end.

(** The literal [Slide] under [re.IGNORECASE]: next to both cases of each
    letter, [s] also matches U+017F and [i] matches U+0130 and U+0131. *)
Definition match_Slide (s : str) : option str :=
  match s with
  | c1 :: c2 :: c3 :: c4 :: c5 :: rest =>
      if mem c1 [83; 115; 383] && mem c2 [76; 108]
         && mem c3 [73; 105; 304; 305] && mem c4 [68; 100] && mem c5 [69; 101]
      then Some rest else None
  | _ => None
  end.

(** The rest of the header patterns after the word Slide: whitespace
    [\s+], the digits [\d+] (group 1), then either the end [$], or a
    colon, whitespace [\s*] and the rest of the line (group 2) up to the
    end [$].  The result is groups 1 and 2 of the match.  Every quantifier is greedy and no shorter choice
    can succeed where the longest one fails, so the match is decided by
    the longest runs; [.] stops at a line feed. *)
Definition match_number_title (s : str) : option (str * option str) :=
  match takewhile isspace s with
  | [] => None
  | _ =>
      let s1 := dropwhile isspace s in
      match takewhile isdecimal s1 with
      | [] => None
      | digits =>
          let s2 := dropwhile isdecimal s1 in
          if at_end s2 then Some (digits, None)
          else
            match s2 with
            | c :: s3 =>
                if c =? 58 then
                  let s4 := dropwhile isspace s3 in
                  let not_lf := fun c => negb (c =? LF) in
                  if at_end (dropwhile not_lf s4)
                  then Some (digits, Some (takewhile not_lf s4))
                  else None
                else None
            | [] => None
            end
      end
  end.

(** [slide_pattern.match] of [_parse_txt] and [_parse_docx]: the word
    Slide at the start of the text, compiled with [re.IGNORECASE]. *)
Definition slide_pattern (s : str) : option (str * option str) :=
  match match_Slide s with
  | Some rest => match_number_title rest
  | None => None
  end.

(** [slide_pattern.match] of [_parse_md]: the same header after [##]
    and whitespace [\s+]. *)
Definition md_slide_pattern (s : str) : option (str * option str) :=
  match s with
  | 35 :: 35 :: rest =>
      match takewhile isspace rest with
      | [] => None
      | _ =>
          match match_Slide (dropwhile isspace rest) with
          | Some rest' => match_number_title rest'
          | None => None
          end
      end
  | _ => None
  end.

(** [separator_pattern.match], as a boolean: ten or more of the rule
    characters U+2500 and U+2550, then the end. *)
Definition separator_pattern (s : str) : bool :=
  let is_rule := fun c => (c =? RULE_LIGHT) || (c =? RULE_DOUBLE) in
  (10 <=? Z.of_nat (List.length (takewhile is_rule s)))
  && at_end (dropwhile is_rule s).

(** The three variables of the parsing loops. *)
Record ParseState := mkParseState {
  notes_data : list Note;
  current_slide : option (Z * str);
  current_notes : list str
}.

Definition parse_start : ParseState := mkParseState [] None [].

(** "Save previous slide": [notes_data] after the append, if a slide is
    open; [placeholder] is the text that stands for no notes. *)
Definition flush (placeholder : str) (st : ParseState) : list Note :=
  match current_slide st with
  | Some (number, title) =>
      let notes_text := strip (join_nl (current_notes st)) in
      let notes_text :=
        if str_eqb notes_text placeholder then [] else notes_text in
      notes_data st ++ [mkNote number title notes_text]
  | None => notes_data st
  end.

(** [int(match.group(1))]: ValueError when the digits are more than the
    interpreter converts. *)
Definition int_of_str (s : str) : result Z :=
  let digits := Z.of_nat (List.length s) in
  if INT_MAX_STR_DIGITS <? digits
  then Raise (lit "Exceeds the limit (4300 digits) for integer string conversion: value has "
              ++ str_of_int digits
              ++ lit " digits; use sys.set_int_max_str_digits() to increase the limit")
  else Ok (int_of_digits s).

(** The header branch: flush, then start the slide of the match.  The
    conversion of the number can raise; nothing handles it. *)
Definition start_slide (placeholder : str) (st : ParseState)
    (groups : str * option str) : result ParseState :=
  match int_of_str (fst groups) with
  | Raise e => Raise e
  | Ok number =>
      Ok (mkParseState (flush placeholder st)
            (Some (number,
                   match snd groups with Some t => t | None => [] end))
            [])
  end.

(** A [for] loop over the lines or paragraphs: one pass each, left at the
    first pass that raises. *)
Fixpoint parse_loop {A} (step : ParseState -> A -> result ParseState)
    (items : list A) (st : ParseState) : result ParseState :=
  match items with
  | [] => Ok st
  | item :: rest =>
      match step st item with
      | Raise e => Raise e
      | Ok st' => parse_loop step rest st'
      end
  end.

(** "Don't forget last slide", after a loop that did not raise. *)
Definition finish (placeholder : str) (looped : result ParseState)
  : result (list Note) :=
  match looped with
  | Raise e => Raise e
  | Ok st => Ok (flush placeholder st)
  end.

(** The branch for any other line: kept for the open slide unless it is
    the placeholder. *)
Definition add_line (placeholder : str) (st : ParseState)
    (text kept : str) : ParseState :=
  match current_slide st with
  | Some _ =>
      if negb (str_eqb text placeholder)
      then mkParseState (notes_data st) (current_slide st)
                        (current_notes st ++ [kept])
      else st
  | None => st
  end.

(** One pass of the loop of [_parse_txt]. *)
Definition txt_step (st : ParseState) (line : str) : result ParseState :=
  let text := strip line in
  if separator_pattern text then Ok st
  else
    match slide_pattern text with
    | Some groups => start_slide NO_NOTES st groups
    | None => Ok (add_line NO_NOTES st text (rstrip line))
    end.

Definition _parse_txt (file : str) : result (list Note) :=
  let content := read_text file in
  finish NO_NOTES (parse_loop txt_step (split_nl content) parse_start).

(** One pass of the loop of [_parse_md]. *)
Definition md_step (st : ParseState) (line : str) : result ParseState :=
  let text := strip line in
  if startswith (lit "# ") text || str_eqb text (lit "---") then Ok st
  else
    match md_slide_pattern text with
    | Some groups => start_slide NO_NOTES_MD st groups
    | None => Ok (add_line NO_NOTES_MD st text (rstrip line))
    end.

Definition _parse_md (file : str) : result (list Note) :=
  let content := read_text file in
  finish NO_NOTES_MD (parse_loop md_step (split_nl content) parse_start).

(** One pass of the loop of [_parse_docx]. *)
Definition docx_step (st : ParseState) (para : Paragraph)
  : result ParseState :=
  let text := strip (para_text para) in
  if negb (truthy text) || separator_pattern text then Ok st
  else
    match slide_pattern text with
    | Some groups => start_slide NO_NOTES st groups
    | None => Ok (add_line NO_NOTES st text text)
    end.

Definition _parse_docx (has_docx : bool) (doc : list Paragraph)
  : result (list Note) :=
  if negb has_docx then Raise (lit "python-docx not installed")
  else finish NO_NOTES (parse_loop docx_step doc parse_start).

(* ================================================================== *)
(** * Records that survive the round trip *)
(* ================================================================== *)

(** [o is not None]. *)
Definition is_some {A} (o : option A) : bool :=
  match o with Some _ => true | None => false end.

(** A title that a header line gives back: trimmed, on one line. *)
Definition title_ok (t : str) : bool :=
  str_eqb (strip t) t && negb (mem LF t) && negb (mem CR t).

(** A line of a notes body that [_parse_txt] keeps as body text. *)
Definition txt_line_ok (line : str) : bool :=
  let text := strip line in
  negb (separator_pattern text)
  && negb (is_some (slide_pattern text))
  && negb (str_eqb text NO_NOTES).

(** A line of a notes body that [_parse_md] keeps as body text. *)
Definition md_line_ok (line : str) : bool :=
  let text := strip line in
  negb (startswith (lit "# ") text || str_eqb text (lit "---"))
  && negb (is_some (md_slide_pattern text))
  && negb (str_eqb text NO_NOTES_MD).

(** A number that the interpreter prints: its digits are no more than it
    converts. *)
Definition printable (n : Z) : bool :=
  Z.of_nat (List.length (str_of_int n)) <=? INT_MAX_STR_DIGITS.

(** A slide number that prints as digits only, and is printable. *)
Definition number_ok (n : Z) : bool := (0 <=? n) && printable n.

(** A text that can be written to a file opened with
    [encoding='utf-8']: the encoder refuses a surrogate. *)
Definition utf8_encodable (s : str) : bool :=
  forallb (fun c => negb ((55296 <=? c) && (c <=? 57343))) s.

(** A record that a line-oriented parser gives back: a slide number that
    a header line gives back, a title that a header line gives back, a
    body without carriage return whose lines are all kept as body text;
    title and body can be written to the file. *)
Definition lines_safe (line_ok : str -> bool) (r : Note) : bool :=
  number_ok (slide_number r) && title_ok (slide_title r)
  && negb (mem CR (notes r)) && forallb line_ok (split_nl (notes r))
  && utf8_encodable (slide_title r) && utf8_encodable (notes r).

(** The records that survive [export_to_txt] and [_parse_txt]. *)
Definition txt_safe : Note -> bool := lines_safe txt_line_ok.

(** The records that survive [export_to_md] and [_parse_md]. *)
Definition md_safe : Note -> bool := lines_safe md_line_ok.

(** The records that survive [export_to_docx] and [_parse_docx]: the
    title has no character that [sanitize_text] removes, title and body
    have no character that the XML of the document cannot hold, and the
    lines of the sanitized body are kept as body text. *)
Definition docx_safe (r : Note) : bool :=
  number_ok (slide_number r) && title_ok (slide_title r)
  && str_eqb (sanitize_text (slide_title r)) (slide_title r)
  && xml_compatible (slide_title r)
  && negb (mem CR (notes r))
  && xml_compatible (sanitize_text (notes r))
  && forallb txt_line_ok (split_nl (sanitize_text (notes r))).

(** The notes body as the text parsers give it back: every line without
    its trailing whitespace, the whole trimmed. *)
Definition lines_norm (b : str) : str :=
  strip (join_nl (map rstrip (split_nl b))).

(** The notes body as [_parse_docx] gives it back: sanitized, every line
    trimmed, blank lines dropped. *)
Definition docx_norm (b : str) : str :=
  strip (join_nl (filter truthy (map strip (split_nl (sanitize_text b))))).

(** The state after a header whose number converts. *)
Definition started (placeholder : str) (st : ParseState)
    (groups : str * option str) : ParseState :=
  mkParseState (flush placeholder st)
    (Some (int_of_digits (fst groups),
           match snd groups with Some t => t | None => [] end))
    [].

(** A header match, if any, whose number converts. *)
Definition digits_fit (groups : option (str * option str)) : bool :=
  match groups with
  | Some groups => Z.of_nat (List.length (fst groups)) <=? INT_MAX_STR_DIGITS
  | None => true
  end.

(** The lines and paragraphs on which a pass of a parsing loop does not
    raise, and the state after such a pass. *)
Definition txt_fits (line : str) : bool :=
  let text := strip line in
  separator_pattern text || digits_fit (slide_pattern text).

Definition txt_pass (st : ParseState) (line : str) : ParseState :=
  let text := strip line in
  if separator_pattern text then st
  else
    match slide_pattern text with
    | Some groups => started NO_NOTES st groups
    | None => add_line NO_NOTES st text (rstrip line)
    end.

Definition md_fits (line : str) : bool :=
  let text := strip line in
  startswith (lit "# ") text || str_eqb text (lit "---")
  || digits_fit (md_slide_pattern text).

Definition md_pass (st : ParseState) (line : str) : ParseState :=
  let text := strip line in
  if startswith (lit "# ") text || str_eqb text (lit "---") then st
  else
    match md_slide_pattern text with
    | Some groups => started NO_NOTES_MD st groups
    | None => add_line NO_NOTES_MD st text (rstrip line)
    end.

Definition docx_fits (para : Paragraph) : bool :=
  let text := strip (para_text para) in
  negb (truthy text) || separator_pattern text
  || digits_fit (slide_pattern text).

Definition docx_pass (st : ParseState) (para : Paragraph) : ParseState :=
  let text := strip (para_text para) in
  if negb (truthy text) || separator_pattern text then st
  else
    match slide_pattern text with
    | Some groups => started NO_NOTES st groups
    | None => add_line NO_NOTES st text text
    end.

(** The record with its notes body replaced by its image under [f]. *)
Definition with_notes (f : str -> str) (r : Note) : Note :=
  mkNote (slide_number r) (slide_title r) (f (notes r)).

(** The state after a line was kept for the open slide. *)
Definition keep (st : ParseState) (l : str) : ParseState :=
  mkParseState (notes_data st) (current_slide st) (current_notes st ++ [l]).

(** The lines of a text file that belong to one record: its header, the
    decoration before the body, the lines of the body or the placeholder,
    the decoration after it. *)
Definition record_lines (placeholder : str) (header : Z -> str -> str)
    (before after : list str) (r : Note) : list str :=
  header (slide_number r) (slide_title r)
  :: before
  ++ (if truthy (notes r) then split_nl (notes r) else [placeholder])
  ++ after.

(** The digits that [str] of an [int] prints. *)
Definition ascii_digit (c : char) : Prop := 48 <= c <= 57.

(** Group 2 of the header match for a title: absent when the header
    line was written without title. *)
Definition title_group (t : str) : option str :=
  if truthy t then Some t else None.

(** The lines that [export_to_txt] writes between header and body, and
    after the body. *)
Definition txt_before : list str := [times RULE_LIGHT 50; []].

Definition txt_after : list str := [[]; times RULE_DOUBLE 50; []].

(** The header line of [export_to_md] and the lines it writes around the
    body. *)
Definition md_header (n : Z) (t : str) : str := lit "## " ++ header_text n t.

Definition md_before : list str := [[]].

Definition md_after : list str := [[]; lit "---"; []].

(** The paragraphs written for the lines of a notes body. *)
Definition body_paragraphs (ls : list str) : list Paragraph :=
  flat_map
    (fun para_text =>
       if truthy (strip para_text)
       then [add_paragraph (strip para_text) false false]
       else [])
    ls.


(* ================================================================== *)
(** * Sample inputs and derived notions used in the statements *)
(* ================================================================== *)

(** Whether [compare_notes] reports slide [n]: decided by the last record
    numbered [n] of either list. *)
Definition reported (original edited : list Note) (n : Z) : bool :=
  match last_with n edited with
  | Some en => is_some (compare_slide (last_with n original) n en)
  | None => false
  end.




(** A slide without notes whose title is a single bell character. *)
Definition note_bell_empty : Note := mkNote 5 [7] [].

(** An edited snapshot that lists slide 2 before slide 1. *)
Definition notes_2_then_1 : list Note :=
  [mkNote 2 [] (lit "B"); mkNote 1 [] (lit "A")].

(** The slides the loop marks as applied, and the error entries it
    records, over a whole list of changes. *)
Definition applied_of (pres : Presentation) (changes : list Change) : list Z :=
  flat_map
    (fun c =>
       match notes_shapes pres (change_slide_number c) with
       | Ok shapes =>
           if write_body_placeholder shapes (edited_notes c)
           then [change_slide_number c] else []
       | Raise _ => []
       end) changes.

Definition errors_of (pres : Presentation) (changes : list Change) : list str :=
  flat_map
    (fun c =>
       match notes_shapes pres (change_slide_number c) with
       | Ok _ => []
       | Raise e => [error_entry (change_slide_number c) e]
       end) changes.

(** A body placeholder that takes the text assigned to it. *)
Definition body_shape : Shape := mkShape (Ok 2) (Ok true) (fun _ => Ok tt).

(** A deck of [slides] slides, each with the one shape [shape] on its
    notes page; any other slide number is not found. *)
Definition deck_of (shape : Shape) (slides : Z) : Presentation :=
  mkPresentation
    (fun n => if (1 <=? n) && (n <=? slides)
              then Ok (mkSlide (Ok [shape]))
              else Raise (lit "Item not found"))
    (Ok tt).

(** A host on which the application starts and [pres] opens at once. *)
Definition host_of (pres : Presentation) : Host :=
  mkHost true (Ok tt) (fun _ => Ok pres).

(** One change for each of the slides 1, 2 and 3. *)
Definition changes_1_2_3 : list Change :=
  [mkChange 1 [] (lit "a") (lit "x") modified;
   mkChange 2 [] (lit "b") (lit "y") modified;
   mkChange 3 [] (lit "c") (lit "z") modified].



Definition deck_read_only : Presentation :=
  mkPresentation (fun n => Ok (mkSlide (Ok [body_shape])))
                 (Raise (lit "read-only")).




(** Records on which it holds in all three formats. *)
Definition notes_plain : list Note :=
  [mkNote 1 (lit "Intro") (join_nl [lit "Hello"; lit "world"]);
   mkNote 2 [] [];
   mkNote 12 (lit "Next steps") (lit "Thanks")].

(** Slide 7, without title and without notes. *)
Definition note_untitled_empty : Note := mkNote 7 [] [].

(* ================================================================== *)
(** * Extraction *)
(* ================================================================== *)

(** The host application as [extract_notes] reads it.  A shape answers
    [HasTextFrame], [PlaceholderFormat.Type], [TextFrame.HasText] and
    [TextFrame.TextRange.Text]; each of them may raise. *)
Module Reader.

Record Shape := mkShape {
  HasTextFrame : result bool;
  PlaceholderFormat_Type : result Z;
  HasText : result bool;
  Text : result str
}.

(** [slide.Shapes], and [slide.NotesPage] followed by its [Shapes]. *)
Record Slide := mkSlide {
  Shapes : result (list Shape);
  NotesPage_Shapes : result (list Shape)
}.

Record Presentation := mkPresentation {
  Slides_Count : result Z;
  Slides_Item : Z -> result Slide
}.

(** [HAS_COM], [os.path.isfile(pptx_path)], the start of the application
    and [app.Presentations.Open] at its n-th call. *)
Record Host := mkHost {
  HAS_COM : bool;
  isfile : bool;
  Dispatch : result unit;
  Presentations_Open : nat -> result Presentation
}.

(** The loop of [open_presentation_with_retry], on this host. *)
Fixpoint open_attempts (app : Host) (max_attempts attempt left : nat)
    (last_error : str) : result Presentation :=
  match left with
  | O =>
      Raise (lit "Failed to open presentation after "
             ++ str_of_int (Z.of_nat max_attempts)
             ++ lit " attempts: " ++ last_error)
  | S left' =>
      match Presentations_Open app attempt with
      | Ok pres => Ok pres
      | Raise e => open_attempts app max_attempts (S attempt) left' e
      end
  end.

Definition open_presentation_with_retry (app : Host) : result Presentation :=
  open_attempts app COM_RETRY_ATTEMPTS 1 COM_RETRY_ATTEMPTS (lit "None").

(** [try: x = ... except: pass], with [x] set to [default] before. *)
Definition or_default {A} (r : result A) (default : A) : A :=
  match r with Ok a => a | Raise _ => default end.

(** The first loop over the shapes of a slide: the text of the first title
    placeholder that has a text frame. *)
Fixpoint title_placeholder (shapes : list Shape) : result str :=
  match shapes with
  | [] => Ok []
  | shape :: rest =>
      match HasTextFrame shape with
      | Raise e => Raise e
      | Ok false => title_placeholder rest
      | Ok true =>
          match PlaceholderFormat_Type shape with
          | Raise e => Raise e
          | Ok t =>
              if t =? 1 then
                match Text shape with
                | Raise e => Raise e
                | Ok s => Ok (strip s)
                end
              else title_placeholder rest
          end
      end
  end.

(** The second loop: the first text that is not empty and shorter than a
    hundred characters. *)
Fixpoint title_first_text (shapes : list Shape) : result str :=
  match shapes with
  | [] => Ok []
  | shape :: rest =>
      match HasTextFrame shape with
      | Raise e => Raise e
      | Ok false => title_first_text rest
      | Ok true =>
          match HasText shape with
          | Raise e => Raise e
          | Ok false => title_first_text rest
          | Ok true =>
              match Text shape with
              | Raise e => Raise e
              | Ok s =>
                  let text := strip s in
                  if truthy text && (Z.of_nat (List.length text) <? 100)
                  then Ok text
                  else title_first_text rest
              end
          end
      end
  end.

(** The loop over the shapes of the notes page: the text of the first body
    placeholder that has a text frame. *)
Fixpoint notes_body (shapes : list Shape) : result str :=
  match shapes with
  | [] => Ok []
  | shape :: rest =>
      match PlaceholderFormat_Type shape with
      | Raise e => Raise e
      | Ok t =>
          if t =? 2 then
            match HasTextFrame shape with
            | Raise e => Raise e
            | Ok true =>
                match Text shape with
                | Raise e => Raise e
                | Ok s => Ok (strip s)
                end
            | Ok false => notes_body rest
            end
          else notes_body rest
      end
  end.

Definition over {A} (shapes : result (list Shape))
    (loop : list Shape -> result A) : result A :=
  match shapes with Ok l => loop l | Raise e => Raise e end.

(** The dict that one pass of the loop over the slides appends. *)
Definition slide_note (slide : Slide) (i : Z) : Note :=
  let title := or_default (over (Shapes slide) title_placeholder) [] in
  let title :=
    if negb (truthy title)
    then or_default (over (Shapes slide) title_first_text) []
    else title in
  let notes_text := or_default (over (NotesPage_Shapes slide) notes_body) [] in
  mkNote i (sanitize_text title) (sanitize_text notes_text).

(** [for i in range(1, slide_count + 1)], from the slides [indices] on. *)
Fixpoint extract_slides (pres : Presentation) (indices : list Z)
    (notes_data : list Note) : result (list Note) :=
  match indices with
  | [] => Ok notes_data
  | i :: rest =>
      match Slides_Item pres i with
      | Raise e => Raise e
      | Ok slide => extract_slides pres rest (notes_data ++ [slide_note slide i])
      end
  end.

(** [range(1, n + 1)]. *)
Definition range_from_1 (n : Z) : list Z :=
  map Z.of_nat (seq 1 (Z.to_nat n)).

Definition failed_to_extract (e : str) : str :=
  lit "Failed to extract notes: " ++ e.

Definition extract_notes (host : Host) (pptx_path : str) : result (list Note) :=
  if negb (HAS_COM host)
  then Raise (lit "Windows COM API not available (pywin32 not installed)")
  else if negb (isfile host)
  then Raise (lit "PowerPoint file not found: " ++ pptx_path)
  else
    match Dispatch host with
    | Raise e => Raise (failed_to_extract e)
    | Ok _ =>
        match open_presentation_with_retry host with
        | Raise e => Raise (failed_to_extract e)
        | Ok pres =>
            match Slides_Count pres with
            | Raise e => Raise (failed_to_extract e)
            | Ok slide_count =>
                match extract_slides pres (range_from_1 slide_count) [] with
                | Raise e => Raise (failed_to_extract e)
                | Ok notes_data => Ok notes_data
                end
            end
        end
    end.

End Reader.

(** A shape that raises whatever is asked of it, a title placeholder and a
    notes body with a control character. *)
Definition broken_shape : Reader.Shape :=
  Reader.mkShape (Raise (lit "gone")) (Raise (lit "gone"))
                 (Raise (lit "gone")) (Raise (lit "gone")).

Definition title_shape : Reader.Shape :=
  Reader.mkShape (Ok true) (Ok 1) (Ok true) (Ok (lit " Agenda ")).

Definition body_text_shape : Reader.Shape :=
  Reader.mkShape (Ok true) (Ok 2) (Ok true) (Ok (0 :: lit " Welcome")).

(** A deck of two slides: the first with title and notes, the second with
    shapes that raise. *)
Definition deck_to_read : Reader.Presentation :=
  Reader.mkPresentation (Ok 2)
    (fun i => if i =? 1
              then Ok (Reader.mkSlide (Ok [title_shape]) (Ok [body_text_shape]))
              else Ok (Reader.mkSlide (Ok [broken_shape]) (Ok [broken_shape]))).

Definition host_to_read : Reader.Host :=
  Reader.mkHost true true (Ok tt) (fun _ => Ok deck_to_read).
(** A record as [extract_notes] builds it: title and notes sanitized. *)
Definition extracted_ok (r : Note) : Prop :=
  sanitize_text (slide_title r) = slide_title r
  /\ sanitize_text (notes r) = notes r.

(* ================================================================== *)
(** * Notions and sample inputs of the further properties *)
(* ================================================================== *)

(** The change type that the emptiness of the two recorded texts calls
    for. *)
Definition expected_type (orig_text edit_text : str) : ChangeType :=
  match orig_text, edit_text with
  | [], _ => added
  | _ :: _, [] => removed
  | _ :: _, _ :: _ => modified
  end.

(** Slide 1 with notes ["old"] and slide 1 with notes ["new"]. *)
Definition note_1_old : Note := mkNote 1 (lit "Intro") (lit "old").
Definition note_1_new : Note := mkNote 1 (lit "Edited") (lit " new ").

(** A notes body none of whose lines ends in whitespace. *)
Definition tidy_lines (b : str) : bool :=
  forallb (fun l => str_eqb (rstrip l) l) (split_nl b).

(** A notes body that is empty, or has no character that [sanitize_text]
    removes and only lines that are trimmed and not empty. *)
Definition tidy_paragraphs (b : str) : bool :=
  negb (truthy b)
  || (str_eqb (sanitize_text b) b
      && forallb (fun l => str_eqb (strip l) l && truthy l) (split_nl b)).

(** The slide number and title that a header match stands for. *)
Definition header_key (groups : str * option str) : Z * str :=
  (int_of_digits (fst groups),
   match snd groups with Some t => t | None => [] end).

(** The header that a line of a text file is, if it is one. *)
Definition txt_header (line : str) : list (Z * str) :=
  let text := strip line in
  if separator_pattern text then []
  else match slide_pattern text with
       | Some groups => [header_key groups]
       | None => []
       end.

(** The header that a line of a Markdown file is, if it is one. *)
Definition md_header_line (line : str) : list (Z * str) :=
  let text := strip line in
  if startswith (lit "# ") text || str_eqb text (lit "---") then []
  else match md_slide_pattern text with
       | Some groups => [header_key groups]
       | None => []
       end.

(** The header that a paragraph of a Word document is, if it is one. *)
Definition docx_header (para : Paragraph) : list (Z * str) :=
  let text := strip (para_text para) in
  if negb (truthy text) || separator_pattern text then []
  else match slide_pattern text with
       | Some groups => [header_key groups]
       | None => []
       end.

(** Slide number and title of a record. *)
Definition note_key (r : Note) : Z * str := (slide_number r, slide_title r).

(** The notes of a parsed record are trimmed and are not the placeholder. *)
Definition parsed_notes_ok (placeholder : str) (r : Note) : Prop :=
  strip (notes r) = notes r /\ notes r <> placeholder.

(** ASCII lower case of a character. *)
Definition ascii_lower (c : char) : char :=
  if (65 <=? c) && (c <=? 90) then c + 32 else c.

(** A text file with two lines of preamble, a header in capitals and a
    body. *)
Definition file_with_preamble : str :=
  join_nl [lit "Notes for the recording"; []; lit "SLIDE 3:Budget";
           lit "Say hello."].


(** A title and notes full of control characters. *)
Definition note_with_controls : Note :=
  mkNote 5 (7 :: lit "Bell") (join_nl [0 :: lit "line"; [27]; lit "end" ++ [127]]).

(* ================================================================== *)
(** * Properties of the sanitizer *)
(* ================================================================== *)

Lemma table_get_delete (z : str) (c : char) :
  table_get (maketrans_delete z) c = if mem c z then Some None else None.
Proof.
  induction z as [|k z IH]; simpl; [reflexivity|].
  rewrite (Z.eqb_sym c k). destruct (k =? c); simpl; [reflexivity|exact IH].
Qed.

Lemma mem_delete_chars (c : char) : mem c delete_chars = is_removed c.
Proof.
  unfold is_removed.
  destruct (Z_lt_dec c 0) as [Hneg|Hpos].
  - replace (0 <=? c) with false by lia. simpl.
    replace (c =? 127) with false by lia.
    vm_compute delete_chars. unfold mem. simpl.
    repeat match goal with
           | |- context [c =? ?k] => replace (c =? k) with false by lia
           end.
    reflexivity.
  - destruct (Z_lt_dec c 128) as [Hs|Hb].
    + assert (Hc : In c (map Z.of_nat (seq 0 128))).
      { apply in_map_iff. exists (Z.to_nat c). split; [lia|].
        apply in_seq. lia. }
      vm_compute in Hc.
      repeat (destruct Hc as [Hc|Hc]; [subst c; reflexivity|]).
      destruct Hc.
    + replace (c <? 32) with false by lia.
      replace (c =? 127) with false by lia.
      rewrite andb_false_r. simpl.
      vm_compute delete_chars. unfold mem. simpl.
      repeat match goal with
             | |- context [c =? ?k] => replace (c =? k) with false by lia
             end.
      reflexivity.
Qed.

Lemma translate_delete (z text : str) :
  translate text (maketrans_delete z) = filter (fun c => negb (mem c z)) text.
Proof.
  unfold translate.
  induction text as [|c text IH]; simpl; [reflexivity|].
  rewrite table_get_delete, IH. destruct (mem c z); reflexivity.
Qed.

Lemma sanitize_text_filter (text : str) :
  sanitize_text text = filter (fun c => negb (is_removed c)) text.
Proof.
  unfold sanitize_text. destruct text as [|c text]; [reflexivity|].
  cbv [truthy negb]. rewrite translate_delete.
  apply filter_ext. intro a. now rewrite mem_delete_chars.
Qed.

(** C8. [sanitize_text] deletes exactly the characters of the control
    range [0x00..0x1F] other than tab (9), line feed (10) and carriage
    return (13), together with DEL (127); every other character of the
    input is kept, unchanged and in its place. *)
Theorem sanitize_text_removes_exactly_controls :
  forall text : str,
    sanitize_text text = filter (fun c => negb (is_removed c)) text
    /\ (forall c, In c (sanitize_text text) <-> In c text /\ is_removed c = false)
    /\ (forall c, is_removed c = true <->
                  (0 <= c <= 31 /\ c <> 9 /\ c <> 10 /\ c <> 13) \/ c = 127).
Proof.
  intro text. split; [apply sanitize_text_filter|]. split.
  - intro c. rewrite sanitize_text_filter, filter_In.
    now rewrite negb_true_iff.
  - intro c. unfold is_removed. lia.
Qed.

(** C9. [sanitize_text] is idempotent. *)
Theorem sanitize_text_idempotent :
  forall x : str, sanitize_text (sanitize_text x) = sanitize_text x.
Proof.
  intro x. rewrite !sanitize_text_filter.
  induction x as [|c x IH]; simpl; [reflexivity|].
  destruct (is_removed c) eqn:E; simpl; [exact IH|].
  rewrite E. simpl. now rewrite IH.
Qed.

(* ================================================================== *)
(** * Properties of the differ *)
(* ================================================================== *)

Section DictFacts.
Context {V : Type}.

Lemma dict_set_keys (d : dict V) (k : Z) (v : V) :
  map fst (dict_set d k v)
  = if mem k (map fst d) then map fst d else map fst d ++ [k].
Proof.
  induction d as [|[k' v'] d IH]; simpl; [reflexivity|].
  rewrite (Z.eqb_sym k k'). destruct (k' =? k) eqn:E; simpl; [reflexivity|].
  rewrite IH. unfold mem. now destruct (existsb (Z.eqb k) (map fst d)).
Qed.

Lemma dict_get_set (d : dict V) (k : Z) (v : V) (n : Z) :
  dict_get (dict_set d k v) n = if k =? n then Some v else dict_get d n.
Proof.
  induction d as [|[k' v'] d IH]; simpl; [reflexivity|].
  destruct (k' =? k) eqn:E; simpl.
  - apply Z.eqb_eq in E. subst k'. now destruct (k =? n).
  - rewrite IH. destruct (k' =? n) eqn:E'; [|reflexivity].
    apply Z.eqb_eq in E'. subst k'. now rewrite Z.eqb_sym, E.
Qed.

Lemma dict_get_not_key (d : dict V) (n : Z) :
  ~ In n (map fst d) -> dict_get d n = None.
Proof.
  induction d as [|[k v] d IH]; simpl; [reflexivity|]. intro H.
  destruct (k =? n) eqn:E; [apply Z.eqb_eq in E; tauto|].
  apply IH. tauto.
Qed.
End DictFacts.

Lemma mem_In (c : Z) (l : list Z) : mem c l = true <-> In c l.
Proof.
  unfold mem. rewrite existsb_exists. split.
  - intros (x & Hx & E). apply Z.eqb_eq in E. now subst.
  - intro H. exists c. split; [assumption|apply Z.eqb_refl].
Qed.

Lemma first_occurrences_In (x : Z) (l : list Z) :
  In x (first_occurrences l) <-> In x l.
Proof.
  induction l as [|y l IH]; simpl; [tauto|].
  rewrite filter_In, IH, negb_true_iff, Z.eqb_neq.
  destruct (Z.eq_dec y x); [tauto|]. intuition congruence.
Qed.

Lemma first_occurrences_NoDup (l : list Z) : NoDup (first_occurrences l).
Proof.
  induction l as [|y l IH]; simpl; constructor.
  - rewrite filter_In, negb_true_iff, Z.eqb_neq. tauto.
  - now apply NoDup_filter.
Qed.

Lemma first_occurrences_sorted (l : list Z) :
  StronglySorted Z.lt l -> first_occurrences l = l.
Proof.
  induction 1 as [|x l Hs IH Hx]; simpl; [reflexivity|].
  rewrite IH. f_equal.
  rewrite <- (filter_ext_in (fun _ => true)).
  - apply filter_true.
  - intros y Hy. rewrite Forall_forall in Hx. specialize (Hx y Hy).
    symmetry. apply negb_true_iff, Z.eqb_neq. lia.
Qed.

Lemma filter_sorted (f : Z -> bool) (l : list Z) :
  StronglySorted Z.lt l -> StronglySorted Z.lt (filter f l).
Proof.
  induction 1 as [|x l Hs IH Hx]; simpl; [constructor|].
  destruct (f x); [|assumption]. constructor; [assumption|].
  rewrite Forall_forall in *. intros y Hy. apply filter_In in Hy. now apply Hx.
Qed.

Lemma find_append {A} (f : A -> bool) (l l' : list A) :
  find f (l ++ l') = match find f l with Some a => Some a | None => find f l' end.
Proof.
  induction l as [|a l IH]; simpl; [reflexivity|]. now destruct (f a).
Qed.

Lemma last_with_cons (n : Z) (x : Note) (l : list Note) :
  last_with n (x :: l)
  = match last_with n l with
    | Some r => Some r
    | None => if slide_number x =? n then Some x else None
    end.
Proof.
  unfold last_with. simpl rev. rewrite find_append.
  destruct (find _ (rev l)); [reflexivity|]. simpl.
  now destruct (slide_number x =? n).
Qed.

(** The lookup built by the dict comprehension, from any starting dict. *)
Lemma by_slide_get (l : list Note) (d : dict Note) (n : Z) :
  dict_get (fold_left (fun d x => dict_set d (slide_number x) x) l d) n
  = match last_with n l with Some r => Some r | None => dict_get d n end.
Proof.
  revert d. induction l as [|x l IH]; intro d; simpl fold_left.
  - reflexivity.
  - rewrite IH, last_with_cons, dict_get_set.
    destruct (last_with n l); [reflexivity|].
    now destruct (slide_number x =? n).
Qed.

Lemma by_slide_keys (l : list Note) (d : dict Note) :
  map fst (fold_left (fun d x => dict_set d (slide_number x) x) l d)
  = map fst d
    ++ filter (fun k => negb (mem k (map fst d)))
              (first_occurrences (map slide_number l)).
Proof.
  revert d. induction l as [|x l IH]; intro d; simpl fold_left.
  - simpl. now rewrite app_nil_r.
  - rewrite IH, dict_set_keys. simpl map. simpl first_occurrences.
    set (k := slide_number x). set (L := first_occurrences (map slide_number l)).
    simpl filter. destruct (mem k (map fst d)) eqn:E; simpl.
    + f_equal. clear IH. induction L as [|y L IHL]; simpl; [reflexivity|].
      destruct (y =? k) eqn:Ey; simpl.
      * apply Z.eqb_eq in Ey. subst y. now rewrite E.
      * destruct (mem y (map fst d)); simpl; now rewrite IHL.
    + rewrite <- app_assoc. simpl. do 2 f_equal.
      clear IH. induction L as [|y L IHL]; simpl; [reflexivity|].
      unfold mem at 1. rewrite existsb_app. simpl. rewrite orb_false_r.
      fold (mem y (map fst d)).
      rewrite (Z.eqb_sym y k), negb_orb.
      destruct (k =? y) eqn:Ey; simpl.
      * rewrite andb_false_r. rewrite Z.eqb_sym in Ey. exact IHL.
      * rewrite andb_true_r.
        destruct (mem y (map fst d)); simpl; now rewrite IHL.
Qed.

Lemma by_slide_key_list (l : list Note) :
  map fst (by_slide l) = first_occurrences (map slide_number l).
Proof.
  unfold by_slide. rewrite by_slide_keys. simpl. apply filter_true.
Qed.

Lemma by_slide_lookup (l : list Note) (n : Z) :
  dict_get (by_slide l) n = last_with n l.
Proof.
  unfold by_slide. rewrite by_slide_get. now destruct (last_with n l).
Qed.

Lemma compare_slide_number o n e c :
  compare_slide o n e = Some c -> change_slide_number c = n.
Proof.
  unfold compare_slide. destruct o as [o|].
  - destruct (negb _); [|discriminate]. now intros [= <-].
  - destruct (truthy _); [|discriminate]. now intros [= <-].
Qed.

(** The loop of [compare_notes] appends the change of every item in turn. *)
Lemma compare_loop (ob : dict Note) (d : dict Note) (acc : list Change) :
  fold_left
    (fun changes item =>
       match compare_slide (dict_get ob (fst item)) (fst item) (snd item) with
       | Some change => changes ++ [change]
       | None => changes
       end) d acc
  = acc ++ flat_map (fun item => option_list
                       (compare_slide (dict_get ob (fst item)) (fst item) (snd item))) d.
Proof.
  revert acc. induction d as [|item d IH]; intro acc; simpl.
  - now rewrite app_nil_r.
  - rewrite IH. destruct (compare_slide _ _ _); simpl; [|reflexivity].
    now rewrite <- app_assoc.
Qed.

Lemma loop_numbers (ob d : dict Note) :
  NoDup (map fst d) ->
  map change_slide_number
      (flat_map (fun item => option_list
                   (compare_slide (dict_get ob (fst item)) (fst item) (snd item))) d)
  = filter (fun k => match dict_get d k with
                     | Some en => is_some (compare_slide (dict_get ob k) k en)
                     | None => false
                     end) (map fst d).
Proof.
  induction d as [|[k v] d IH]; intro Hnd; simpl; [reflexivity|].
  inversion Hnd as [|? ? Hk Hd]; subst.
  rewrite map_app, Z.eqb_refl, IH by assumption.
  assert (Hrest :
    filter (fun k0 => match (if k =? k0 then Some v else dict_get d k0) with
                      | Some en => is_some (compare_slide (dict_get ob k0) k0 en)
                      | None => false
                      end) (map fst d)
    = filter (fun k0 => match dict_get d k0 with
                        | Some en => is_some (compare_slide (dict_get ob k0) k0 en)
                        | None => false
                        end) (map fst d)).
  { apply filter_ext_in. intros a Ha.
    destruct (k =? a) eqn:E; [|reflexivity].
    apply Z.eqb_eq in E. subst a. contradiction. }
  rewrite Hrest.
  destruct (compare_slide (dict_get ob k) k v) eqn:E; simpl; [|reflexivity].
  now rewrite (compare_slide_number _ _ _ _ E).
Qed.

Lemma loop_at (ob d : dict Note) (n : Z) :
  NoDup (map fst d) ->
  filter (fun c => change_slide_number c =? n)
      (flat_map (fun item => option_list
                   (compare_slide (dict_get ob (fst item)) (fst item) (snd item))) d)
  = match dict_get d n with
    | Some en => option_list (compare_slide (dict_get ob n) n en)
    | None => []
    end.
Proof.
  induction d as [|[k v] d IH]; intro Hnd; simpl; [reflexivity|].
  inversion Hnd as [|? ? Hk Hd]; subst.
  rewrite filter_app, IH by assumption.
  destruct (k =? n) eqn:E.
  - apply Z.eqb_eq in E. subst k.
    rewrite (dict_get_not_key d n Hk), app_nil_r.
    destruct (compare_slide (dict_get ob n) n v) eqn:Ec; simpl; [|reflexivity].
    now rewrite (compare_slide_number _ _ _ _ Ec), Z.eqb_refl.
  - destruct (compare_slide (dict_get ob k) k v) eqn:Ec; simpl; [|reflexivity].
    now rewrite (compare_slide_number _ _ _ _ Ec), E.
Qed.

Lemma compare_notes_flat (original edited : list Note) :
  compare_notes original edited
  = flat_map (fun item => option_list
                (compare_slide (dict_get (by_slide original) (fst item))
                               (fst item) (snd item))) (by_slide edited).
Proof. unfold compare_notes. now rewrite compare_loop. Qed.

Lemma compare_notes_by_slide_NoDup (l : list Note) : NoDup (map fst (by_slide l)).
Proof. rewrite by_slide_key_list. apply first_occurrences_NoDup. Qed.

(** The slide numbers of the changes, in order: the slide numbers of
    [edited] in the order of their first occurrence, those kept that are
    reported. *)
Lemma compare_notes_numbers (original edited : list Note) :
  map change_slide_number (compare_notes original edited)
  = filter (reported original edited)
           (first_occurrences (map slide_number edited)).
Proof.
  rewrite compare_notes_flat, loop_numbers by apply compare_notes_by_slide_NoDup.
  rewrite by_slide_key_list. apply filter_ext. intro k. unfold reported.
  now rewrite !by_slide_lookup.
Qed.






(** C4 fails as stated: with [edited] listing slide 2 before slide 1 the
    changes come out as slide 2, then slide 1. *)
Lemma compare_notes_not_ascending :
  map change_slide_number (compare_notes [] notes_2_then_1) = [2; 1]
  /\ ~ StronglySorted Z.le
         (map change_slide_number (compare_notes [] notes_2_then_1)).
Proof.
  split; [reflexivity|]. intro H. vm_compute in H.
  inversion H as [|? ? _ Hall]; subst.
  inversion Hall as [|? ? Hle _]; subst. vm_compute in Hle. now apply Hle.
Qed.

(** C4 (amended). The changes follow the order in which the slide numbers
    first occur in [edited]; they are in ascending order of slide number
    whenever the records of [edited] are. *)
Theorem compare_notes_order :
  forall original edited : list Note,
    map change_slide_number (compare_notes original edited)
    = filter (reported original edited)
             (first_occurrences (map slide_number edited))
    /\ (StronglySorted Z.lt (map slide_number edited) ->
        StronglySorted Z.lt
          (map change_slide_number (compare_notes original edited))).
Proof.
  intros original edited. split; [apply compare_notes_numbers|].
  intro Hs. rewrite compare_notes_numbers, first_occurrences_sorted by assumption.
  now apply filter_sorted.
Qed.

Lemma compare_notes_order_witness :
  StronglySorted Z.lt (map slide_number [mkNote 1 [] (lit "A"); mkNote 2 [] (lit "B")])
  /\ StronglySorted Z.lt
       (map change_slide_number
            (compare_notes [mkNote 2 [] (lit "b")]
                           [mkNote 1 [] (lit "A"); mkNote 2 [] (lit "B")])).
Proof.
  assert (Hs : StronglySorted Z.lt
                 (map slide_number [mkNote 1 [] (lit "A"); mkNote 2 [] (lit "B")])).
  { simpl. repeat constructor. }
  split; [exact Hs|].
  exact (proj2 (compare_notes_order [mkNote 2 [] (lit "b")]
                  [mkNote 1 [] (lit "A"); mkNote 2 [] (lit "B")]) Hs).
Defined.

(** C5. A slide number that occurs in [original] and not in [edited] is
    the slide number of no change. *)
Theorem compare_notes_absent_slide_unreported :
  forall (original edited : list Note) (n : Z),
    In n (map slide_number original) ->
    ~ In n (map slide_number edited) ->
    ~ In n (map change_slide_number (compare_notes original edited)).
Proof.
  intros original edited n _ Hn Hin.
  rewrite compare_notes_numbers in Hin.
  apply filter_In in Hin. destruct Hin as [Hin _].
  apply Hn. now apply first_occurrences_In.
Qed.

Lemma compare_notes_absent_slide_unreported_witness :
  ~ In 2 (map change_slide_number
            (compare_notes [mkNote 1 [] (lit "A"); mkNote 2 [] (lit "B")]
                           [mkNote 1 [] (lit "C")])).
Proof.
  apply (compare_notes_absent_slide_unreported
           [mkNote 1 [] (lit "A"); mkNote 2 [] (lit "B")]
           [mkNote 1 [] (lit "C")] 2).
  - simpl. right. left. reflexivity.
  - simpl. intros [H|H]; [discriminate H|exact H].
Defined.

(** C10. No two changes carry the same slide number, and the changes for
    slide [n] are what the loop body yields for the last record numbered
    [n] of [edited] against the last record numbered [n] of [original]:
    earlier records with that number play no part. *)
Theorem compare_notes_last_occurrence_wins :
  forall (original edited : list Note),
    NoDup (map change_slide_number (compare_notes original edited))
    /\ forall n : Z,
         filter (fun c => change_slide_number c =? n)
                (compare_notes original edited)
         = match last_with n edited with
           | Some en => option_list (compare_slide (last_with n original) n en)
           | None => []
           end.
Proof.
  intros original edited. split.
  - rewrite compare_notes_numbers. apply NoDup_filter, first_occurrences_NoDup.
  - intro n. rewrite compare_notes_flat, loop_at by apply compare_notes_by_slide_NoDup.
    now rewrite !by_slide_lookup.
Qed.

(* ================================================================== *)
(** * Properties of the applier *)
(* ================================================================== *)

Lemma apply_loop (pres : Presentation) (changes : list Change) (res : Outcome) :
  fold_left (apply_change pres) changes res
  = mkOutcome (applied res ++ applied_of pres changes)
              (skipped res)
              (errors res ++ errors_of pres changes).
Proof.
  revert res. induction changes as [|c changes IH]; intro res; simpl.
  - rewrite !app_nil_r. now destruct res.
  - rewrite IH. unfold apply_change.
    destruct (notes_shapes pres (change_slide_number c)) as [shapes|e]; simpl.
    + destruct (write_body_placeholder shapes (edited_notes c)); simpl.
      * now rewrite <- app_assoc.
      * reflexivity.
    + now rewrite <- app_assoc.
Qed.

Lemma apply_notes_skipped_nil host changes slides_to_apply :
  match apply_notes host changes slides_to_apply with
  | Ok res => skipped res = []
  | Raise _ => True
  end.
Proof.
  unfold apply_notes. destruct (HAS_COM host); simpl; [|exact I].
  destruct (selected changes slides_to_apply) as [|c l]; [reflexivity|].
  destruct (Dispatch host); [|exact I].
  destruct (open_presentation_with_retry host) as [pres|]; [|exact I].
  destruct (Save pres); [|exact I].
  now rewrite apply_loop.
Qed.

(** C6 (the code departs from the claim). With changes for slides 1, 2
    and 3 and [slides_to_apply = [2]], slides 1 and 3 are filtered out and
    yet [skipped] is empty; a change for a slide that the deck does not
    have ends in [errors], not in [skipped]; and no call ever returns a
    non-empty [skipped]. *)
Theorem apply_notes_never_fills_skipped :
  apply_notes (host_of (deck_of body_shape 3)) changes_1_2_3 (Some [2])
  = Ok (mkOutcome [2] [] [])
  /\ apply_notes (host_of (deck_of body_shape 2)) changes_1_2_3 None
     = Ok (mkOutcome [1; 2] [] [lit "Slide 3: Item not found"])
  /\ forall host changes slides_to_apply,
       match apply_notes host changes slides_to_apply with
       | Ok res => skipped res = []
       | Raise _ => True
       end.
Proof.
  split; [reflexivity|]. split; [reflexivity|].
  exact apply_notes_skipped_nil.
Qed.




(* ================================================================== *)
(** * Properties of the text operations *)
(* ================================================================== *)

Lemma str_eqb_eq (a b : str) : str_eqb a b = true <-> a = b.
Proof.
  revert b. induction a as [|x a IH]; intros [|y b]; simpl;
    try (split; [discriminate|discriminate]); [tauto|].
  rewrite andb_true_iff, Z.eqb_eq, IH. split.
  - now intros [-> ->].
  - now intros [= -> ->].
Qed.

Lemma str_eqb_refl (a : str) : str_eqb a a = true.
Proof. now apply str_eqb_eq. Qed.

Lemma str_eqb_neq (a b : str) : str_eqb a b = false <-> a <> b.
Proof.
  rewrite <- str_eqb_eq. destruct (str_eqb a b); split; congruence.
Qed.

Lemma mem_false (c : Z) (l : list Z) : mem c l = false <-> ~ In c l.
Proof.
  rewrite <- mem_In. destruct (mem c l); split; congruence.
Qed.

(** ** Lines *)

Lemma split_nl_nonempty (s : str) : split_nl s <> [].
Proof.
  destruct s as [|c s]; simpl; [discriminate|].
  destruct (c =? LF); [discriminate|]. destruct (split_nl s); discriminate.
Qed.

Lemma split_nl_app (a b : str) :
  split_nl (a ++ LF :: b) = split_nl a ++ split_nl b.
Proof.
  induction a as [|c a IH]; simpl; [reflexivity|].
  destruct (c =? LF); [now rewrite IH|].
  rewrite IH. pose proof (split_nl_nonempty a) as Hne.
  destruct (split_nl a); [contradiction|reflexivity].
Qed.

Lemma split_nl_join (ls : list str) :
  ls <> [] -> split_nl (join_nl ls) = flat_map split_nl ls.
Proof.
  induction ls as [|l ls IH]; [contradiction|]. intros _.
  destruct ls as [|l' ls].
  - simpl. now rewrite app_nil_r.
  - change (join_nl (l :: l' :: ls)) with (l ++ LF :: join_nl (l' :: ls)).
    rewrite split_nl_app, IH by discriminate. reflexivity.
Qed.

Lemma split_nl_one (s : str) : ~ In LF s -> split_nl s = [s].
Proof.
  induction s as [|c s IH]; simpl; [reflexivity|]. intro H.
  destruct (c =? LF) eqn:E; [apply Z.eqb_eq in E; tauto|].
  rewrite IH by tauto. reflexivity.
Qed.

Lemma split_nl_no_LF (s : str) : Forall (fun l => ~ In LF l) (split_nl s).
Proof.
  induction s as [|c s IH]; simpl; [repeat constructor; tauto|].
  destruct (c =? LF) eqn:E; [constructor; [tauto|exact IH]|].
  destruct (split_nl s) as [|l ls]; [repeat constructor|].
  - simpl. intros [H|[]]. apply Z.eqb_neq in E. congruence.
  - inversion IH; subst. constructor; [|assumption].
    simpl. intros [H|H]; [apply Z.eqb_neq in E; congruence|contradiction].
Qed.

Lemma join_nl_split (s : str) : join_nl (split_nl s) = s.
Proof.
  induction s as [|c s IH]; simpl; [reflexivity|].
  pose proof (split_nl_nonempty s) as Hne.
  destruct (c =? LF) eqn:E.
  - apply Z.eqb_eq in E. subst c.
    destruct (split_nl s) as [|l ls]; [contradiction|].
    change (join_nl ([] :: l :: ls)) with ([] ++ LF :: join_nl (l :: ls)).
    now rewrite IH.
  - destruct (split_nl s) as [|l ls]; [contradiction|].
    destruct ls as [|y ls].
    + simpl in *. now subst.
    + change (join_nl ((c :: l) :: y :: ls))
        with (c :: (l ++ LF :: join_nl (y :: ls))).
      f_equal. exact IH.
Qed.

Lemma join_nl_cons (l : str) (ls : list str) :
  ls <> [] -> join_nl (l :: ls) = l ++ LF :: join_nl ls.
Proof. destruct ls; [contradiction|reflexivity]. Qed.

Lemma join_nl_snoc (ls : list str) (l : str) :
  ls <> [] -> join_nl (ls ++ [l]) = join_nl ls ++ LF :: l.
Proof.
  induction ls as [|x ls IH]; [contradiction|]. intros _.
  destruct ls as [|y ls]; [reflexivity|].
  change ((x :: y :: ls) ++ [l]) with (x :: ((y :: ls) ++ [l])).
  rewrite join_nl_cons by (simpl; discriminate).
  rewrite IH by discriminate.
  rewrite (join_nl_cons x (y :: ls)) by discriminate.
  now rewrite <- app_assoc.
Qed.

Lemma join_nl_In (c : char) (ls : list str) :
  In c (join_nl ls) -> c = LF \/ exists l, In l ls /\ In c l.
Proof.
  induction ls as [|x ls IH]; simpl; [tauto|].
  destruct ls as [|y ls].
  - intro H. right. exists x. tauto.
  - intro H. apply in_app_or in H. destruct H as [H|[H|H]].
    + right. exists x. tauto.
    + now left.
    + destruct (IH H) as [E|(l & Hl & Hc)]; [now left|].
      right. exists l. split; [now right|assumption].
Qed.


(** ** Trimming *)

Lemma rstrip_app (a b : str) :
  rstrip (a ++ b) = match rstrip b with [] => rstrip a | _ => a ++ rstrip b end.
Proof.
  induction a as [|c a IH]; simpl.
  - now destruct (rstrip b).
  - rewrite IH. destruct (rstrip b) as [|y r]; [reflexivity|].
    now destruct a.
Qed.

Lemma rstrip_idem (s : str) : rstrip (rstrip s) = rstrip s.
Proof.
  induction s as [|c s IH]; simpl; [reflexivity|].
  destruct (rstrip s) as [|y r] eqn:E.
  - destruct (isspace c) eqn:Ec; simpl; [reflexivity|now rewrite Ec].
  - change (rstrip (c :: y :: r)) with
      (match rstrip (y :: r) with
       | [] => if isspace c then [] else [c]
       | r0 => c :: r0
       end).
    now rewrite IH.
Qed.

Lemma rstrip_In (c : char) (s : str) : In c (rstrip s) -> In c s.
Proof.
  induction s as [|x s IH]; simpl; [tauto|].
  destruct (rstrip s) as [|y r].
  - destruct (isspace x); simpl; tauto.
  - simpl in *. tauto.
Qed.

Lemma lstrip_app (a b : str) :
  lstrip (a ++ b) = match lstrip a with [] => lstrip b | x => x ++ b end.
Proof.
  unfold lstrip. induction a as [|c a IH]; simpl; [reflexivity|].
  destruct (isspace c); [exact IH|reflexivity].
Qed.

Lemma lstrip_idem (s : str) : lstrip (lstrip s) = lstrip s.
Proof.
  unfold lstrip. induction s as [|c s IH]; simpl; [reflexivity|].
  destruct (isspace c) eqn:E; [exact IH|]. simpl. now rewrite E.
Qed.

Lemma lstrip_In (c : char) (s : str) : In c (lstrip s) -> In c s.
Proof.
  unfold lstrip. induction s as [|x s IH]; simpl; [tauto|].
  destruct (isspace x); simpl; tauto.
Qed.

Lemma strip_In (c : char) (s : str) : In c (strip s) -> In c s.
Proof. intro H. now apply rstrip_In, lstrip_In. Qed.

Lemma rstrip_lstrip (s : str) : rstrip (lstrip s) = lstrip (rstrip s).
Proof.
  unfold lstrip. induction s as [|c s IH]; simpl; [reflexivity|].
  destruct (isspace c) eqn:E.
  - rewrite IH. destruct (rstrip s); simpl; now rewrite ?E.
  - simpl. destruct (rstrip s); simpl; now rewrite E.
Qed.

Lemma strip_rstrip (s : str) : strip (rstrip s) = strip s.
Proof. unfold strip. now rewrite rstrip_idem. Qed.

Lemma strip_idem (s : str) : strip (strip s) = strip s.
Proof.
  unfold strip. now rewrite rstrip_lstrip, rstrip_idem, lstrip_idem.
Qed.

Lemma strip_fixed (t : str) : strip t = t -> rstrip t = t /\ lstrip t = t.
Proof.
  intro H. split.
  - rewrite <- H at 1. unfold strip.
    now rewrite rstrip_lstrip, rstrip_idem.
  - rewrite <- H at 1. unfold strip. now rewrite lstrip_idem.
Qed.

(** A body between one blank line before and two after trims to the
    trimmed body. *)
Lemma strip_padded (x : str) : strip (LF :: x ++ [LF; LF]) = strip x.
Proof.
  unfold strip.
  change (LF :: x ++ [LF; LF]) with ((LF :: x) ++ [LF; LF]).
  rewrite rstrip_app. change (rstrip [LF; LF]) with (@nil char).
  change (rstrip (LF :: x)) with
    (match rstrip x with [] => [] | r => LF :: r end).
  now destruct (rstrip x).
Qed.

(** If a text of several lines trims to a one-line text [p], one of the
    lines trims to [p]. *)
Lemma strip_join_line (p : str) (ls : list str) :
  p <> [] -> ~ In LF p ->
  strip (join_nl ls) = p -> exists l, In l ls /\ strip l = p.
Proof.
  intros Hp Hlf. induction ls as [|l ls IH];
    [intro H; cbv in H; now subst p|].
  destruct ls as [|l' ls].
  - simpl. intro H. exists l. tauto.
  - rewrite join_nl_cons by discriminate.
    set (J := join_nl (l' :: ls)) in *. unfold strip at 1.
    rewrite rstrip_app.
    change (rstrip (LF :: J)) with
      (match rstrip J with [] => [] | r => LF :: r end).
    destruct (rstrip J) as [|y r] eqn:EJ.
    + intro H. exists l. split; [now left|exact H].
    + rewrite lstrip_app. destruct (lstrip l) as [|x xs] eqn:El.
      * change (lstrip (LF :: y :: r)) with (lstrip (y :: r)).
        rewrite <- EJ. intro H. destruct (IH H) as (l0 & Hl0 & E0).
        exists l0. split; [now right|assumption].
      * intro H. exfalso. apply Hlf. rewrite <- H.
        apply in_or_app. right. now left.
Qed.

(** ** Files *)

Lemma read_write_text (crlf : bool) (s : str) :
  ~ In CR s -> read_text (write_text crlf s) = s.
Proof.
  unfold write_text. destruct crlf.
  - induction s as [|c s IH]; simpl; [reflexivity|]. intro H.
    destruct (c =? LF) eqn:E.
    + apply Z.eqb_eq in E. subst c. simpl. now rewrite IH by tauto.
    + simpl. destruct (c =? CR) eqn:E'; [apply Z.eqb_eq in E'; tauto|].
      now rewrite IH by tauto.
  - induction s as [|c s IH]; simpl; [reflexivity|]. intro H.
    destruct (c =? CR) eqn:E'; [apply Z.eqb_eq in E'; tauto|].
    now rewrite IH by tauto.
Qed.

Lemma run_text_plain (s : str) : ~ In CR s -> run_text s = s.
Proof.
  unfold run_text. induction s as [|c s IH]; simpl; [reflexivity|]. intro H.
  destruct (c =? CR) eqn:E; [apply Z.eqb_eq in E; tauto|].
  now rewrite IH by tauto.
Qed.

(** ** Decimal numbers *)


Lemma ascii_digit_value (c : char) :
  ascii_digit c -> decimal_value c = Some (c - 48).
Proof.
  intros [H1 H2]. unfold decimal_value, decimal_blocks. cbn [find].
  replace ((48 <=? c) && (c <? 48 + 10)) with true by lia. reflexivity.
Qed.

Lemma ascii_digit_isdecimal (c : char) : ascii_digit c -> isdecimal c = true.
Proof. intro H. unfold isdecimal. now rewrite ascii_digit_value. Qed.

Lemma ascii_digit_not_space (c : char) : ascii_digit c -> isspace c = false.
Proof.
  intros [H1 H2]. unfold isspace, mem. simpl.
  repeat match goal with
         | |- context [?a <=? ?b] =>
             first [replace (a <=? b) with true by lia
                   |replace (a <=? b) with false by lia]
         | |- context [c =? ?k] => replace (c =? k) with false by lia
         end.
  reflexivity.
Qed.

Lemma int_of_digits_snoc (d : str) (c : char) :
  ascii_digit c -> int_of_digits (d ++ [c]) = 10 * int_of_digits d + (c - 48).
Proof.
  intro H. unfold int_of_digits. rewrite fold_left_app. cbn [fold_left].
  now rewrite ascii_digit_value.
Qed.

Lemma digits_from_small (fuel : nat) (n : Z) (acc : str) :
  0 <= n < 10 ->
  exists d, digits_from (S fuel) n acc = d ++ acc /\ d <> []
            /\ Forall ascii_digit d /\ int_of_digits d = n.
Proof.
  intro Hn. cbn [digits_from]. replace (n <? 10) with true by lia.
  rewrite Z.mod_small by lia.
  assert (Hd : ascii_digit (48 + n)) by (split; lia).
  exists [48 + n]. split; [reflexivity|]. split; [discriminate|]. split.
  - constructor; [exact Hd|constructor].
  - unfold int_of_digits. cbn [fold_left]. rewrite (ascii_digit_value _ Hd). lia.
Qed.

Lemma digits_from_spec (fuel : nat) :
  forall (n : Z) (acc : str),
    0 <= n < 2 ^ Z.of_nat (S fuel) ->
    exists d, digits_from (S fuel) n acc = d ++ acc /\ d <> []
              /\ Forall ascii_digit d /\ int_of_digits d = n.
Proof.
  induction fuel as [|f IH]; intros n acc Hn.
  - apply digits_from_small. change (2 ^ Z.of_nat 1) with 2 in Hn. lia.
  - destruct (Z_lt_dec n 10) as [Hs|Hb]; [apply digits_from_small; lia|].
    pose proof (Z.mod_pos_bound n 10 ltac:(lia)) as Hm.
    cbn [digits_from]. replace (n <? 10) with false by lia.
    assert (Hq : 0 <= n / 10 < 2 ^ Z.of_nat (S f)).
    { split; [apply Z.div_pos; lia|].
      apply Z.div_lt_upper_bound; [lia|].
      rewrite (Nat2Z.inj_succ (S f)), Z.pow_succ_r in Hn by lia. lia. }
    destruct (IH (n / 10) ((48 + n mod 10) :: acc) Hq)
      as (d & Hd & Hne & Hall & Hval).
    exists (d ++ [48 + n mod 10]). repeat split.
    + cbn [digits_from] in Hd. rewrite Hd, <- app_assoc. reflexivity.
    + now destruct d.
    + apply Forall_app. split; [assumption|]. repeat constructor; lia.
    + rewrite int_of_digits_snoc by (split; lia). rewrite Hval.
      pose proof (Z.div_mod n 10 ltac:(lia)). lia.
Qed.

Lemma str_of_int_spec (n : Z) :
  0 <= n ->
  str_of_int n <> [] /\ Forall ascii_digit (str_of_int n)
  /\ int_of_digits (str_of_int n) = n.
Proof.
  intro Hn. unfold str_of_int. replace (n <? 0) with false by lia.
  destruct (digits_from_spec (Z.to_nat (Z.log2 n)) n [])
    as (d & Hd & Hne & Hall & Hval).
  - split; [assumption|]. rewrite Nat2Z.inj_succ, Z2Nat.id by apply Z.log2_nonneg.
    destruct (Z.eq_dec n 0) as [->|Hnz]; [simpl; lia|].
    apply Z.log2_spec. lia.
  - rewrite Hd, app_nil_r. tauto.
Qed.


(** ** Runs of characters *)

Lemma digits_from_chars (fuel : nat) :
  forall (n : Z) (acc : str) (c : char),
    In c (digits_from fuel n acc) -> In c acc \/ 48 <= c <= 57.
Proof.
  induction fuel as [|f IH]; intros n acc c H; [now left|].
  cbn [digits_from] in H.
  pose proof (Z.mod_pos_bound n 10 ltac:(lia)) as Hm.
  destruct (n <? 10).
  - destruct H as [<-|H]; [right; lia|now left].
  - destruct (IH _ _ _ H) as [[<-|Hacc]|Hd]; [right; lia|now left|now right].
Qed.

Lemma str_of_int_chars (n : Z) (c : char) :
  In c (str_of_int n) -> c = 45 \/ 48 <= c <= 57.
Proof.
  unfold str_of_int. destruct (n <? 0).
  - intros [<-|H]; [now left|].
    destruct (digits_from_chars _ _ _ _ H) as [[]|Hd]. now right.
  - intro H. destruct (digits_from_chars _ _ _ _ H) as [[]|Hd]. now right.
Qed.

Lemma takewhile_app (p : char -> bool) (a b : str) :
  Forall (fun c => p c = true) a -> takewhile p (a ++ b) = a ++ takewhile p b.
Proof.
  induction 1 as [|c a Hc Ha IH]; simpl; [reflexivity|]. now rewrite Hc, IH.
Qed.

Lemma dropwhile_app (p : char -> bool) (a b : str) :
  Forall (fun c => p c = true) a -> dropwhile p (a ++ b) = dropwhile p b.
Proof.
  induction 1 as [|c a Hc Ha IH]; simpl; [reflexivity|]. now rewrite Hc.
Qed.

Lemma takewhile_not_LF (s : str) :
  ~ In LF s -> takewhile (fun c : Z => negb (c =? LF)) s = s
               /\ dropwhile (fun c : Z => negb (c =? LF)) s = [].
Proof.
  induction s as [|c s IH]; simpl; [tauto|]. intro H.
  destruct (c =? LF) eqn:E; [apply Z.eqb_eq in E; tauto|]. simpl.
  destruct IH as [-> ->]; tauto.
Qed.

Lemma rstrip_no_space (s : str) :
  Forall (fun c => isspace c = false) s -> rstrip s = s.
Proof.
  induction 1 as [|c s Hc Hs IH]; simpl; [reflexivity|].
  rewrite IH, Hc. now destruct s.
Qed.

(** ** Header lines *)

Lemma lit_Slide : lit "Slide " = [83; 108; 105; 100; 101; 32].
Proof. reflexivity. Qed.

Lemma lit_colon : lit ": " = [58; 32].
Proof. reflexivity. Qed.

Lemma title_ok_spec (t : str) :
  title_ok t = true ->
  rstrip t = t /\ lstrip t = t /\ ~ In LF t /\ ~ In CR t.
Proof.
  unfold title_ok. rewrite !andb_true_iff, !negb_true_iff, str_eqb_eq, !mem_false.
  intros [[Hs Hlf] Hcr]. destruct (strip_fixed t Hs). tauto.
Qed.


Lemma number_ok_spec (n : Z) :
  number_ok n = true ->
  0 <= n /\ Z.of_nat (List.length (str_of_int n)) <= INT_MAX_STR_DIGITS.
Proof.
  unfold number_ok, printable. rewrite andb_true_iff, Z.leb_le, Z.leb_le.
  tauto.
Qed.

Lemma match_number_title_header (d t : str) :
  d <> [] -> Forall ascii_digit d -> lstrip t = t -> ~ In LF t ->
  match_number_title
    (32 :: d ++ (if truthy t then 58 :: 32 :: t else []))
  = Some (d, title_group t).
Proof.
  intros Hne Hd Hl Hlf. unfold match_number_title.
  assert (Hdec : Forall (fun c => isdecimal c = true) d).
  { eapply Forall_impl; [|exact Hd]. apply ascii_digit_isdecimal. }
  destruct d as [|d0 d]; [contradiction|].
  assert (Hsp : isspace d0 = false).
  { apply ascii_digit_not_space. now inversion Hd. }
  change (takewhile isspace (32 :: (d0 :: d) ++ _)) with
    (32 :: (if isspace d0 then d0 :: takewhile isspace (d ++
              (if truthy t then 58 :: 32 :: t else [])) else [])).
  change (dropwhile isspace (32 :: (d0 :: d) ++ ?r)) with
    (if isspace d0 then dropwhile isspace (d ++ r) else (d0 :: d) ++ r).
  rewrite Hsp. rewrite takewhile_app, dropwhile_app by assumption.
  unfold title_group. destruct t as [|t0 t]; cbn [truthy].
  - rewrite app_nil_r. reflexivity.
  - change (takewhile isdecimal (58 :: 32 :: t0 :: t)) with (@nil char).
    change (dropwhile isdecimal (58 :: 32 :: t0 :: t)) with (58 :: 32 :: t0 :: t).
    rewrite app_nil_r. cbn [app at_end]. rewrite Z.eqb_refl.
    change (dropwhile isspace (32 :: t0 :: t)) with (lstrip (t0 :: t)).
    rewrite Hl. destruct (takewhile_not_LF (t0 :: t) Hlf) as [-> ->].
    reflexivity.
Qed.

Lemma header_text_eq (n : Z) (t : str) :
  header_text n t
  = [83; 108; 105; 100; 101] ++ 32 :: str_of_int n
      ++ (if truthy t then 58 :: 32 :: t else []).
Proof.
  unfold header_text. rewrite lit_Slide, lit_colon.
  destruct (truthy t); cbn [app]; [reflexivity|now rewrite app_nil_r].
Qed.

Lemma header_text_strip (n : Z) (t : str) :
  0 <= n -> rstrip t = t -> strip (header_text n t) = header_text n t.
Proof.
  intros Hn Hr. destruct (str_of_int_spec n Hn) as (Hne & Hd & _).
  rewrite header_text_eq. unfold strip.
  assert (Hrs : rstrip (str_of_int n ++ (if truthy t then 58 :: 32 :: t else []))
                = str_of_int n ++ (if truthy t then 58 :: 32 :: t else [])).
  { destruct t as [|t0 t]; cbn [truthy].
    - rewrite app_nil_r. apply rstrip_no_space.
      eapply Forall_impl; [|exact Hd]. apply ascii_digit_not_space.
    - rewrite rstrip_app.
      change (58 :: 32 :: t0 :: t) with ([58; 32] ++ t0 :: t).
      rewrite rstrip_app, Hr. reflexivity. }
  change ([83; 108; 105; 100; 101] ++ 32 :: ?x) with
    ([83; 108; 105; 100; 101; 32] ++ x).
  rewrite rstrip_app, Hrs.
  destruct (str_of_int n) as [|d0 d]; [contradiction|]. reflexivity.
Qed.

Lemma slide_pattern_header (n : Z) (t : str) :
  0 <= n -> lstrip t = t -> ~ In LF t ->
  slide_pattern (header_text n t) = Some (str_of_int n, title_group t).
Proof.
  intros Hn Hl Hlf. destruct (str_of_int_spec n Hn) as (Hne & Hd & _).
  rewrite header_text_eq. unfold slide_pattern.
  change (match_Slide ([83; 108; 105; 100; 101] ++ ?x)) with (Some x).
  now apply match_number_title_header.
Qed.

Lemma md_slide_pattern_header (n : Z) (t : str) :
  0 <= n -> lstrip t = t -> ~ In LF t ->
  md_slide_pattern (lit "## " ++ header_text n t)
  = Some (str_of_int n, title_group t).
Proof.
  intros Hn Hl Hlf. destruct (str_of_int_spec n Hn) as (Hne & Hd & _).
  rewrite header_text_eq.
  change (lit "## " ++ ?x) with (35 :: 35 :: 32 :: x).
  unfold md_slide_pattern.
  change (takewhile isspace (32 :: [83; 108; 105; 100; 101] ++ ?x))
    with [32].
  change (dropwhile isspace (32 :: [83; 108; 105; 100; 101] ++ ?x))
    with ([83; 108; 105; 100; 101] ++ x).
  change (match_Slide ([83; 108; 105; 100; 101] ++ ?x)) with (Some x).
  now apply match_number_title_header.
Qed.

Lemma header_text_chars (c : char) (n : Z) (t : str) :
  0 <= n -> In c (header_text n t) -> c <> LF /\ c <> CR \/ In c t.
Proof.
  intros Hn. destruct (str_of_int_spec n Hn) as (_ & Hd & _).
  rewrite header_text_eq. intro H.
  apply in_app_or in H. destruct H as [H|H].
  { left. simpl in H. unfold LF, CR. lia. }
  destruct H as [H|H]; [left; unfold LF, CR; lia|].
  apply in_app_or in H. destruct H as [H|H].
  { left. rewrite Forall_forall in Hd. specialize (Hd c H).
    unfold ascii_digit, LF, CR in *. lia. }
  destruct (truthy t); [|contradiction].
  destruct H as [H|[H|H]]; [left; unfold LF, CR; lia..|now right].
Qed.


(* ================================================================== *)
(** * Properties of the text parsers *)
(* ================================================================== *)

Lemma strip_join_padded (kept : list str) :
  kept <> [] ->
  strip (join_nl ([] :: kept ++ [[]; []])) = strip (join_nl kept).
Proof.
  intro Hne.
  rewrite join_nl_cons by (destruct kept; discriminate).
  change (kept ++ [[]; []]) with (kept ++ [[]] ++ [[]]).
  rewrite app_assoc, join_nl_snoc by (destruct kept; discriminate).
  rewrite join_nl_snoc by assumption.
  rewrite <- app_assoc. apply strip_padded.
Qed.

(** ** The loops and their passes *)

Lemma int_of_str_cases (s : str) :
  int_of_str s
  = if Z.of_nat (List.length s) <=? INT_MAX_STR_DIGITS
    then Ok (int_of_digits s)
    else Raise (lit "Exceeds the limit (4300 digits) for integer string conversion: value has "
                ++ str_of_int (Z.of_nat (List.length s))
                ++ lit " digits; use sys.set_int_max_str_digits() to increase the limit").
Proof.
  unfold int_of_str. cbv zeta.
  destruct (Z.ltb_spec INT_MAX_STR_DIGITS (Z.of_nat (List.length s)));
    destruct (Z.leb_spec (Z.of_nat (List.length s)) INT_MAX_STR_DIGITS);
    (reflexivity || lia).
Qed.

Lemma start_slide_pass (p : str) (st : ParseState) (groups : str * option str) :
  digits_fit (Some groups) = true ->
  start_slide p st groups = Ok (started p st groups).
Proof.
  cbn [digits_fit]. intro H. unfold start_slide.
  now rewrite int_of_str_cases, H.
Qed.

Lemma start_slide_Ok (p : str) (st st' : ParseState)
    (groups : str * option str) :
  start_slide p st groups = Ok st' -> digits_fit (Some groups) = true.
Proof.
  cbn [digits_fit]. unfold start_slide. rewrite int_of_str_cases.
  now destruct (Z.of_nat (List.length (fst groups)) <=? INT_MAX_STR_DIGITS).
Qed.

Lemma txt_step_pass (st : ParseState) (line : str) :
  txt_fits line = true -> txt_step st line = Ok (txt_pass st line).
Proof.
  unfold txt_fits, txt_step, txt_pass. cbv zeta.
  destruct (separator_pattern (strip line)); [reflexivity|]. cbn [orb].
  destruct (slide_pattern (strip line)); [|reflexivity].
  apply start_slide_pass.
Qed.

Lemma txt_step_Ok (st st' : ParseState) (line : str) :
  txt_step st line = Ok st' -> txt_fits line = true.
Proof.
  unfold txt_fits, txt_step. cbv zeta.
  destruct (separator_pattern (strip line)); [reflexivity|]. cbn [orb].
  destruct (slide_pattern (strip line)); [|reflexivity].
  apply start_slide_Ok.
Qed.

Lemma md_step_pass (st : ParseState) (line : str) :
  md_fits line = true -> md_step st line = Ok (md_pass st line).
Proof.
  unfold md_fits, md_step, md_pass. cbv zeta.
  destruct (startswith (lit "# ") (strip line)
            || str_eqb (strip line) (lit "---")); [reflexivity|]. cbn [orb].
  destruct (md_slide_pattern (strip line)); [|reflexivity].
  apply start_slide_pass.
Qed.

Lemma md_step_Ok (st st' : ParseState) (line : str) :
  md_step st line = Ok st' -> md_fits line = true.
Proof.
  unfold md_fits, md_step. cbv zeta.
  destruct (startswith (lit "# ") (strip line)
            || str_eqb (strip line) (lit "---")); [reflexivity|]. cbn [orb].
  destruct (md_slide_pattern (strip line)); [|reflexivity].
  apply start_slide_Ok.
Qed.

Lemma docx_step_pass (st : ParseState) (para : Paragraph) :
  docx_fits para = true -> docx_step st para = Ok (docx_pass st para).
Proof.
  unfold docx_fits, docx_step, docx_pass. cbv zeta.
  destruct (negb (truthy (strip (para_text para)))
            || separator_pattern (strip (para_text para)));
    [reflexivity|]. cbn [orb].
  destruct (slide_pattern (strip (para_text para))); [|reflexivity].
  apply start_slide_pass.
Qed.

Lemma docx_step_Ok (st st' : ParseState) (para : Paragraph) :
  docx_step st para = Ok st' -> docx_fits para = true.
Proof.
  unfold docx_fits, docx_step. cbv zeta.
  destruct (negb (truthy (strip (para_text para)))
            || separator_pattern (strip (para_text para)));
    [reflexivity|]. cbn [orb].
  destruct (slide_pattern (strip (para_text para))); [|reflexivity].
  apply start_slide_Ok.
Qed.

Lemma parse_loop_app {A} (step : ParseState -> A -> result ParseState)
    (xs ys : list A) :
  forall st,
    parse_loop step (xs ++ ys) st
    = match parse_loop step xs st with
      | Raise e => Raise e
      | Ok st' => parse_loop step ys st'
      end.
Proof.
  induction xs as [|x xs IH]; intro st; cbn [app parse_loop]; [reflexivity|].
  destruct (step st x); [apply IH|reflexivity].
Qed.

(** A loop none of whose passes raises is the fold of its passes, and a
    loop that returns is one of those. *)
Section Loop.
Context {A : Type}.
Variable step : ParseState -> A -> result ParseState.
Variable pass : ParseState -> A -> ParseState.
Variable fits : A -> bool.

Hypothesis step_pass :
  forall st x, fits x = true -> step st x = Ok (pass st x).
Hypothesis step_Ok :
  forall st st' x, step st x = Ok st' -> fits x = true.

Lemma parse_loop_pass (xs : list A) :
  forall st, forallb fits xs = true ->
    parse_loop step xs st = Ok (fold_left pass xs st).
Proof.
  induction xs as [|x xs IH]; intros st H; cbn [parse_loop fold_left];
    [reflexivity|].
  cbn [forallb] in H. apply andb_true_iff in H. destruct H as [Hx Hxs].
  rewrite (step_pass st x Hx). now apply IH.
Qed.

Lemma parse_loop_Ok (xs : list A) :
  forall st st', parse_loop step xs st = Ok st' ->
    forallb fits xs = true /\ st' = fold_left pass xs st.
Proof.
  induction xs as [|x xs IH]; intros st st' H; cbn [parse_loop] in H.
  - split; [reflexivity|]. now injection H as <-.
  - destruct (step st x) as [st1|e] eqn:E; [|discriminate].
    pose proof (step_Ok st st1 x E) as Hx.
    rewrite (step_pass st x Hx) in E. injection E as <-.
    destruct (IH _ _ H) as [Hxs ->].
    cbn [forallb fold_left]. now rewrite Hx, Hxs.
Qed.

Lemma parse_loop_Raise (xs : list A) :
  forall st, forallb fits xs = false ->
    exists e, parse_loop step xs st = Raise e.
Proof.
  intros st H. destruct (parse_loop step xs st) as [st'|e] eqn:E.
  - destruct (parse_loop_Ok xs st st' E) as [Hf _]. congruence.
  - now exists e.
Qed.

Lemma finish_loop_pass (p : str) (xs : list A) (st : ParseState) :
  forallb fits xs = true ->
  finish p (parse_loop step xs st) = Ok (flush p (fold_left pass xs st)).
Proof. intro H. now rewrite parse_loop_pass. Qed.

Lemma finish_loop_Ok (p : str) (xs : list A) (st : ParseState)
    (parsed : list Note) :
  finish p (parse_loop step xs st) = Ok parsed ->
  forallb fits xs = true /\ parsed = flush p (fold_left pass xs st).
Proof.
  unfold finish. destruct (parse_loop step xs st) as [st'|e] eqn:E;
    [|discriminate].
  intros [= <-]. destruct (parse_loop_Ok xs st st' E) as [Hf ->]. now split.
Qed.
End Loop.

Lemma _parse_txt_Ok (file : str) (parsed : list Note) :
  _parse_txt file = Ok parsed ->
  forallb txt_fits (split_nl (read_text file)) = true
  /\ parsed = flush NO_NOTES
               (fold_left txt_pass (split_nl (read_text file)) parse_start).
Proof.
  apply (finish_loop_Ok txt_step txt_pass txt_fits txt_step_pass txt_step_Ok).
Qed.

Lemma _parse_md_Ok (file : str) (parsed : list Note) :
  _parse_md file = Ok parsed ->
  forallb md_fits (split_nl (read_text file)) = true
  /\ parsed = flush NO_NOTES_MD
               (fold_left md_pass (split_nl (read_text file)) parse_start).
Proof.
  apply (finish_loop_Ok md_step md_pass md_fits md_step_pass md_step_Ok).
Qed.

Lemma _parse_docx_Ok (doc : list Paragraph) (parsed : list Note) :
  _parse_docx true doc = Ok parsed ->
  forallb docx_fits doc = true
  /\ parsed = flush NO_NOTES (fold_left docx_pass doc parse_start).
Proof.
  apply (finish_loop_Ok docx_step docx_pass docx_fits
           docx_step_pass docx_step_Ok).
Qed.

(** What the txt and md parsers share: a loop over lines whose step
    recognises a header, skips decoration, and keeps body lines. *)
Section LineFormat.
Variable step : ParseState -> str -> ParseState.
Variable placeholder : str.
Variable line_ok : str -> bool.
Variable header : Z -> str -> str.
Variables before after : list str.

Hypothesis placeholder_line :
  placeholder <> [] /\ ~ In LF placeholder.
Hypothesis step_header :
  forall st n t, 0 <= n -> title_ok t = true ->
    step st (header n t) = mkParseState (flush placeholder st) (Some (n, t)) [].
Hypothesis step_before :
  forall st cs, current_slide st = Some cs ->
    fold_left step before st = keep st [].
Hypothesis step_after :
  forall st cs, current_slide st = Some cs ->
    fold_left step after st = keep (keep st []) [].
Hypothesis step_placeholder :
  forall st, step st placeholder = st.
Hypothesis step_body :
  forall st cs l, current_slide st = Some cs -> line_ok l = true ->
    step st l = keep st (rstrip l).
Hypothesis line_ok_not_placeholder :
  forall l, line_ok l = true -> strip l <> placeholder.

Lemma step_body_lines (ls : list str) :
  forall st cs, current_slide st = Some cs ->
    forallb line_ok ls = true ->
    fold_left step ls st
    = mkParseState (notes_data st) (current_slide st)
                   (current_notes st ++ map rstrip ls).
Proof.
  induction ls as [|l ls IH]; intros st cs Hcs Hok; simpl.
  - rewrite app_nil_r. now destruct st.
  - simpl in Hok. apply andb_true_iff in Hok. destruct Hok as [Hl Hls].
    rewrite (step_body st cs l Hcs Hl).
    rewrite (IH (keep st (rstrip l)) cs Hcs Hls). simpl.
    now rewrite <- app_assoc.
Qed.

Lemma lines_norm_not_placeholder (b : str) :
  forallb line_ok (split_nl b) = true ->
  str_eqb (lines_norm b) placeholder = false.
Proof.
  intro Hok. apply str_eqb_neq. intro E. unfold lines_norm in E.
  destruct placeholder_line as [Hne Hlf].
  destruct (strip_join_line placeholder _ Hne Hlf E) as (l & Hl & Hs).
  apply in_map_iff in Hl. destruct Hl as (l0 & <- & Hl0).
  rewrite strip_rstrip in Hs.
  rewrite forallb_forall in Hok.
  exact (line_ok_not_placeholder l0 (Hok l0 Hl0) Hs).
Qed.

(** One record: the open slide is flushed, and the record's own slide
    is left open with its body collected. *)
Lemma step_record (r : Note) (st : ParseState) :
  lines_safe line_ok r = true ->
  flush placeholder (fold_left step (record_lines placeholder header before after r) st)
  = flush placeholder st ++ [with_notes lines_norm r].
Proof.
  unfold lines_safe. rewrite !andb_true_iff.
  intros [[[[[Hn Ht] _] Hok] _] _].
  apply number_ok_spec in Hn. destruct Hn as [Hn _]. unfold record_lines.
  cbn [fold_left]. rewrite (step_header st _ _ Hn Ht).
  rewrite !fold_left_app.
  erewrite step_before by reflexivity.
  unfold with_notes. destruct (notes r) as [|b0 b] eqn:Eb; cbn [truthy].
  - cbn [fold_left]. rewrite step_placeholder.
    erewrite step_after by reflexivity.
    unfold flush, keep. cbn. now destruct placeholder.
  - erewrite (step_body_lines (split_nl (b0 :: b)))
      by (reflexivity || exact Hok).
    erewrite step_after by reflexivity.
    unfold flush, keep.
    cbn [notes_data current_slide current_notes app].
    rewrite <- !app_assoc. cbn [app].
    rewrite strip_join_padded.
    + fold (lines_norm (b0 :: b)).
      now rewrite (lines_norm_not_placeholder _ Hok).
    + pose proof (split_nl_nonempty (b0 :: b)).
      destruct (split_nl (b0 :: b)); [contradiction|discriminate].
Qed.

Lemma step_records (rs : list Note) :
  forall st, forallb (lines_safe line_ok) rs = true ->
    flush placeholder (fold_left step (flat_map (record_lines placeholder header before after) rs) st)
    = flush placeholder st ++ map (with_notes lines_norm) rs.
Proof.
  induction rs as [|r rs IH]; intros st Hs; cbn [flat_map map fold_left].
  - now rewrite app_nil_r.
  - cbn [forallb] in Hs. apply andb_true_iff in Hs. destruct Hs as [Hr Hrs].
    rewrite fold_left_app, IH, step_record by assumption.
    now rewrite <- app_assoc.
Qed.
End LineFormat.

(** No pass over the lines of such records raises. *)
Section LineFits.
Variable fits : str -> bool.
Variable placeholder : str.
Variable line_ok : str -> bool.
Variable header : Z -> str -> str.
Variables before after : list str.

Hypothesis fits_header :
  forall n t, number_ok n = true -> title_ok t = true ->
    fits (header n t) = true.
Hypothesis fits_decoration :
  forallb fits before = true /\ forallb fits after = true
  /\ fits placeholder = true.
Hypothesis fits_body :
  forall l, line_ok l = true -> fits l = true.

Lemma record_fits (r : Note) :
  lines_safe line_ok r = true ->
  forallb fits (record_lines placeholder header before after r) = true.
Proof.
  unfold lines_safe. rewrite !andb_true_iff.
  intros [[[[[Hn Ht] _] Hok] _] _].
  destruct fits_decoration as (Hb & Ha & Hp).
  unfold record_lines. cbn [forallb].
  rewrite (fits_header _ _ Hn Ht), !forallb_app, Hb, Ha.
  destruct (truthy (notes r)).
  - rewrite forallb_forall in Hok.
    replace (forallb fits (split_nl (notes r))) with true; [reflexivity|].
    symmetry. apply forallb_forall. intros l Hl. apply fits_body, Hok, Hl.
  - cbn [forallb]. now rewrite Hp.
Qed.

Lemma records_fit (rs : list Note) :
  forallb (lines_safe line_ok) rs = true ->
  forallb fits (flat_map (record_lines placeholder header before after) rs)
  = true.
Proof.
  induction rs as [|r rs IH]; intro Hs; cbn [flat_map]; [reflexivity|].
  cbn [forallb] in Hs. apply andb_true_iff in Hs. destruct Hs as [Hr Hrs].
  rewrite forallb_app, record_fits, IH by assumption. reflexivity.
Qed.

End LineFits.


(** ** The text format *)

Lemma separator_pattern_header (n : Z) (t : str) :
  separator_pattern (header_text n t) = false.
Proof. rewrite header_text_eq. reflexivity. Qed.

Lemma started_header (p : str) (st : ParseState) (n : Z) (t : str) :
  0 <= n ->
  started p st (str_of_int n, title_group t)
  = mkParseState (flush p st) (Some (n, t)) [].
Proof.
  intro Hn. destruct (str_of_int_spec n Hn) as (_ & _ & Hv).
  unfold started. cbn [fst snd]. rewrite Hv.
  unfold title_group. now destruct t.
Qed.

Lemma txt_pass_header (st : ParseState) (n : Z) (t : str) :
  0 <= n -> title_ok t = true ->
  txt_pass st (header_text n t)
  = mkParseState (flush NO_NOTES st) (Some (n, t)) [].
Proof.
  intros Hn Ht. destruct (title_ok_spec t Ht) as (Hr & Hl & Hlf & _).
  unfold txt_pass. rewrite header_text_strip by assumption.
  rewrite separator_pattern_header, slide_pattern_header by assumption.
  now apply started_header.
Qed.

Lemma txt_pass_rule (st : ParseState) (c : char) :
  c = RULE_LIGHT \/ c = RULE_DOUBLE -> txt_pass st (times c 50) = st.
Proof.
  intros [-> | ->]; unfold txt_pass;
    match goal with
    | |- context [separator_pattern ?x] =>
        replace (separator_pattern x) with true by (vm_compute; reflexivity)
    end; reflexivity.
Qed.

Lemma txt_pass_blank (st : ParseState) (cs : Z * str) :
  current_slide st = Some cs -> txt_pass st [] = keep st [].
Proof.
  intro H. unfold txt_pass.
  change (strip []) with (@nil char). change (rstrip []) with (@nil char).
  change (separator_pattern []) with false.
  change (slide_pattern []) with (@None (str * option str)).
  unfold add_line, keep. rewrite H. reflexivity.
Qed.

Lemma txt_pass_placeholder (st : ParseState) : txt_pass st NO_NOTES = st.
Proof.
  unfold txt_pass, add_line.
  replace (strip NO_NOTES) with NO_NOTES by (vm_compute; reflexivity).
  replace (separator_pattern NO_NOTES) with false by (vm_compute; reflexivity).
  replace (slide_pattern NO_NOTES) with (@None (str * option str))
    by (vm_compute; reflexivity).
  rewrite str_eqb_refl. now destruct (current_slide st).
Qed.

Lemma txt_line_ok_spec (l : str) :
  txt_line_ok l = true ->
  separator_pattern (strip l) = false /\ slide_pattern (strip l) = None
  /\ str_eqb (strip l) NO_NOTES = false.
Proof.
  unfold txt_line_ok. rewrite !andb_true_iff, !negb_true_iff.
  intros [[H1 H2] H3]. repeat split; try assumption.
  now destruct (slide_pattern (strip l)).
Qed.

Lemma txt_pass_body (st : ParseState) (cs : Z * str) (l : str) :
  current_slide st = Some cs -> txt_line_ok l = true ->
  txt_pass st l = keep st (rstrip l).
Proof.
  intros Hcs Hok. destruct (txt_line_ok_spec l Hok) as (H1 & H2 & H3).
  unfold txt_pass, add_line, keep. now rewrite H1, H2, H3, Hcs.
Qed.


Lemma txt_records (rs : list Note) (st : ParseState) :
  forallb txt_safe rs = true ->
  flush NO_NOTES
    (fold_left txt_pass
       (flat_map (record_lines NO_NOTES header_text txt_before txt_after) rs) st)
  = flush NO_NOTES st ++ map (with_notes lines_norm) rs.
Proof.
  apply (step_records txt_pass NO_NOTES txt_line_ok header_text
           txt_before txt_after).
  - split; [discriminate|]. vm_compute. intuition discriminate.
  - exact txt_pass_header.
  - intros st0 cs Hcs. unfold txt_before. cbn [fold_left].
    rewrite txt_pass_rule by now left. now apply txt_pass_blank with cs.
  - intros st0 cs Hcs. unfold txt_after. cbn [fold_left].
    rewrite (txt_pass_blank st0 cs Hcs).
    rewrite txt_pass_rule by now right.
    now apply txt_pass_blank with cs.
  - exact txt_pass_placeholder.
  - exact txt_pass_body.
  - intros l Hok. destruct (txt_line_ok_spec l Hok) as (_ & _ & H3).
    now apply str_eqb_neq.
Qed.

(** The lines of the file, once split, are the records' lines. *)
Lemma times_char (c x : char) (n : nat) : In x (times c n) -> x = c.
Proof. unfold times. intro H. symmetry. now apply repeat_spec in H. Qed.

Lemma times_split (c : char) (n : nat) :
  c <> LF -> split_nl (times c n) = [times c n].
Proof.
  intro H. apply split_nl_one. intro Hin. apply times_char in Hin.
  congruence.
Qed.

Lemma header_text_no_LF (n : Z) (t : str) :
  0 <= n -> ~ In LF t -> ~ In LF (header_text n t).
Proof.
  intros Hn Ht Hin. destruct (header_text_chars LF n t Hn Hin); tauto.
Qed.

Lemma header_text_no_CR (n : Z) (t : str) :
  0 <= n -> ~ In CR t -> ~ In CR (header_text n t).
Proof.
  intros Hn Ht Hin. destruct (header_text_chars CR n t Hn Hin); tauto.
Qed.

Lemma lines_safe_spec (line_ok : str -> bool) (r : Note) :
  lines_safe line_ok r = true ->
  0 <= slide_number r /\ title_ok (slide_title r) = true
  /\ ~ In CR (notes r).
Proof.
  unfold lines_safe. rewrite !andb_true_iff, negb_true_iff, mem_false.
  intros [[[[[Hn Ht] Hcr] _] _] _]. apply number_ok_spec in Hn. tauto.
Qed.

Lemma lines_safe_number (line_ok : str -> bool) (r : Note) :
  lines_safe line_ok r = true -> number_ok (slide_number r) = true.
Proof.
  unfold lines_safe. rewrite !andb_true_iff. tauto.
Qed.

Lemma lines_safe_lines (line_ok : str -> bool) (r : Note) :
  lines_safe line_ok r = true -> forallb line_ok (split_nl (notes r)) = true.
Proof.
  unfold lines_safe. rewrite !andb_true_iff. tauto.
Qed.

Lemma txt_lines_split (r : Note) :
  txt_safe r = true ->
  flat_map split_nl (txt_lines_of r)
  = record_lines NO_NOTES header_text txt_before txt_after r.
Proof.
  intro Hs. destruct (lines_safe_spec _ r Hs) as (Hn & Ht & _).
  destruct (title_ok_spec _ Ht) as (_ & _ & Hlf & _).
  unfold txt_lines_of, record_lines, txt_before, txt_after.
  cbn [flat_map app].
  rewrite (split_nl_one (header_text _ _)) by now apply header_text_no_LF.
  rewrite !times_split by discriminate.
  destruct (truthy (notes r)); [reflexivity|].
  now rewrite (split_nl_one NO_NOTES) by (vm_compute; intuition discriminate).
Qed.

Lemma txt_lines_no_CR (r : Note) :
  txt_safe r = true -> Forall (fun l => ~ In CR l) (txt_lines_of r).
Proof.
  intro Hs. destruct (lines_safe_spec _ r Hs) as (Hn & Ht & Hcr).
  destruct (title_ok_spec _ Ht) as (_ & _ & _ & Hcr').
  unfold txt_lines_of. repeat constructor; try (simpl; tauto).
  - now apply header_text_no_CR.
  - intro H. apply times_char in H. discriminate.
  - destruct (truthy (notes r)); [assumption|].
    vm_compute. intuition discriminate.
  - intro H. apply times_char in H. discriminate.
Qed.

Lemma flat_map_Forall {A B} (P : B -> Prop) (f : A -> list B) (l : list A) :
  (forall a, In a l -> Forall P (f a)) -> Forall P (flat_map f l).
Proof.
  induction l as [|a l IH]; intro H; simpl; [constructor|].
  apply Forall_app. split; [apply H; now left|].
  apply IH. intros a' Ha'. apply H. now right.
Qed.

Lemma flat_map_flat_map_ext {A B C} (f : A -> list B) (g : B -> list C)
    (h : A -> list C) (l : list A) :
  (forall a, In a l -> flat_map g (f a) = h a) ->
  flat_map g (flat_map f l) = flat_map h l.
Proof.
  induction l as [|a l IH]; intro H; simpl; [reflexivity|].
  rewrite flat_map_app, H by now left. f_equal.
  apply IH. intros a' Ha'. apply H. now right.
Qed.

Lemma join_nl_no_CR (ls : list str) :
  Forall (fun l => ~ In CR l) ls -> ~ In CR (join_nl ls).
Proof.
  intros Hall Hin. apply join_nl_In in Hin.
  destruct Hin as [E|(l & Hl & Hc)]; [discriminate|].
  rewrite Forall_forall in Hall. exact (Hall l Hl Hc).
Qed.

Lemma txt_fits_header (n : Z) (t : str) :
  number_ok n = true -> title_ok t = true -> txt_fits (header_text n t) = true.
Proof.
  intros Hn Ht. destruct (number_ok_spec n Hn) as [Hn0 Hd].
  destruct (title_ok_spec t Ht) as (Hr & Hl & Hlf & _).
  unfold txt_fits. cbv zeta. rewrite header_text_strip by assumption.
  rewrite separator_pattern_header, slide_pattern_header by assumption.
  cbn [orb digits_fit fst]. now apply Z.leb_le.
Qed.

Lemma txt_records_fit (rs : list Note) :
  forallb txt_safe rs = true ->
  forallb txt_fits
    (flat_map (record_lines NO_NOTES header_text txt_before txt_after) rs)
  = true.
Proof.
  apply (records_fit txt_fits NO_NOTES txt_line_ok header_text
           txt_before txt_after).
  - exact txt_fits_header.
  - repeat split; vm_compute; reflexivity.
  - intros l Hok. destruct (txt_line_ok_spec l Hok) as (_ & H2 & _).
    unfold txt_fits. cbv zeta. rewrite H2. apply orb_true_r.
Qed.

Lemma parse_export_txt (crlf : bool) (rs : list Note) :
  forallb txt_safe rs = true ->
  _parse_txt (export_to_txt crlf rs) = Ok (map (with_notes lines_norm) rs).
Proof.
  intro Hs. unfold _parse_txt, export_to_txt. cbv zeta.
  pose proof Hs as Hall. rewrite forallb_forall in Hs.
  rewrite read_write_text.
  2:{ apply join_nl_no_CR, flat_map_Forall.
      intros r Hr. apply txt_lines_no_CR, Hs, Hr. }
  destruct rs as [|r rs]; [reflexivity|].
  rewrite split_nl_join.
  2:{ cbn [flat_map]. unfold txt_lines_of at 1. discriminate. }
  rewrite (flat_map_flat_map_ext _ _
             (record_lines NO_NOTES header_text txt_before txt_after)).
  2:{ intros a Ha. apply txt_lines_split, Hs, Ha. }
  rewrite (parse_loop_pass txt_step txt_pass txt_fits txt_step_pass)
    by (apply txt_records_fit; exact Hall).
  unfold finish. rewrite txt_records by exact Hall.
  reflexivity.
Qed.


(** ** The Markdown format *)

Lemma md_header_strip (n : Z) (t : str) :
  0 <= n -> rstrip t = t ->
  strip (lit "## " ++ header_text n t) = lit "## " ++ header_text n t.
Proof.
  intros Hn Hr. pose proof (header_text_strip n t Hn Hr) as Hs.
  destruct (strip_fixed _ Hs) as [Hrs _].
  unfold strip. rewrite rstrip_app, Hrs.
  rewrite header_text_eq. reflexivity.
Qed.

Lemma md_pass_header (st : ParseState) (n : Z) (t : str) :
  0 <= n -> title_ok t = true ->
  md_pass st (lit "## " ++ header_text n t)
  = mkParseState (flush NO_NOTES_MD st) (Some (n, t)) [].
Proof.
  intros Hn Ht. destruct (title_ok_spec t Ht) as (Hr & Hl & Hlf & _).
  unfold md_pass. rewrite md_header_strip by assumption.
  rewrite md_slide_pattern_header by assumption.
  change (lit "## " ++ ?x) with (35 :: 35 :: 32 :: x).
  change (startswith (lit "# ") (35 :: 35 :: 32 :: ?x)) with false.
  change (str_eqb (35 :: 35 :: 32 :: ?x) (lit "---")) with false.
  now apply started_header.
Qed.

Lemma md_pass_rule (st : ParseState) : md_pass st (lit "---") = st.
Proof. reflexivity. Qed.

Lemma md_pass_blank (st : ParseState) (cs : Z * str) :
  current_slide st = Some cs -> md_pass st [] = keep st [].
Proof.
  intro H. unfold md_pass.
  change (strip []) with (@nil char). change (rstrip []) with (@nil char).
  change (startswith (lit "# ") [] || str_eqb [] (lit "---")) with false.
  change (md_slide_pattern []) with (@None (str * option str)).
  unfold add_line, keep. rewrite H. reflexivity.
Qed.

Lemma md_pass_placeholder (st : ParseState) : md_pass st NO_NOTES_MD = st.
Proof.
  unfold md_pass, add_line.
  replace (strip NO_NOTES_MD) with NO_NOTES_MD by (vm_compute; reflexivity).
  replace (startswith (lit "# ") NO_NOTES_MD || str_eqb NO_NOTES_MD (lit "---"))
    with false by (vm_compute; reflexivity).
  replace (md_slide_pattern NO_NOTES_MD) with (@None (str * option str))
    by (vm_compute; reflexivity).
  rewrite str_eqb_refl. now destruct (current_slide st).
Qed.

Lemma md_line_ok_spec (l : str) :
  md_line_ok l = true ->
  startswith (lit "# ") (strip l) || str_eqb (strip l) (lit "---") = false
  /\ md_slide_pattern (strip l) = None
  /\ str_eqb (strip l) NO_NOTES_MD = false.
Proof.
  unfold md_line_ok. rewrite !andb_true_iff, !negb_true_iff.
  intros [[H1 H2] H3]. repeat split; try assumption.
  now destruct (md_slide_pattern (strip l)).
Qed.

Lemma md_pass_body (st : ParseState) (cs : Z * str) (l : str) :
  current_slide st = Some cs -> md_line_ok l = true ->
  md_pass st l = keep st (rstrip l).
Proof.
  intros Hcs Hok. destruct (md_line_ok_spec l Hok) as (H1 & H2 & H3).
  unfold md_pass, add_line, keep. now rewrite H1, H2, H3, Hcs.
Qed.


Lemma md_records (rs : list Note) (st : ParseState) :
  forallb md_safe rs = true ->
  flush NO_NOTES_MD
    (fold_left md_pass
       (flat_map (record_lines NO_NOTES_MD md_header md_before md_after) rs) st)
  = flush NO_NOTES_MD st ++ map (with_notes lines_norm) rs.
Proof.
  apply (step_records md_pass NO_NOTES_MD md_line_ok md_header
           md_before md_after).
  - split; [discriminate|]. vm_compute. intuition discriminate.
  - exact md_pass_header.
  - intros st0 cs Hcs. unfold md_before. cbn [fold_left].
    now apply md_pass_blank with cs.
  - intros st0 cs Hcs. unfold md_after. cbn [fold_left].
    rewrite (md_pass_blank st0 cs Hcs), md_pass_rule.
    now apply md_pass_blank with cs.
  - exact md_pass_placeholder.
  - exact md_pass_body.
  - intros l Hok. destruct (md_line_ok_spec l Hok) as (_ & _ & H3).
    now apply str_eqb_neq.
Qed.

Lemma md_header_chars (c : char) (n : Z) (t : str) :
  0 <= n -> ~ In c t -> c = LF \/ c = CR -> ~ In c (md_header n t).
Proof.
  intros Hn Ht Hc Hin. unfold md_header in Hin.
  apply in_app_or in Hin. destruct Hin as [Hin|Hin].
  - vm_compute in Hin. unfold LF, CR in Hc. lia.
  - destruct (header_text_chars c n t Hn Hin) as [[H1 H2]|H]; [|tauto].
    destruct Hc; contradiction.
Qed.

Lemma md_lines_split (r : Note) :
  md_safe r = true ->
  flat_map split_nl (md_lines_of r)
  = record_lines NO_NOTES_MD md_header md_before md_after r.
Proof.
  intro Hs. destruct (lines_safe_spec _ r Hs) as (Hn & Ht & _).
  destruct (title_ok_spec _ Ht) as (_ & _ & Hlf & _).
  unfold md_lines_of, record_lines, md_before, md_after.
  cbn [flat_map app]. fold (md_header (slide_number r) (slide_title r)).
  rewrite (split_nl_one (md_header _ _))
    by (apply md_header_chars; [assumption..|now left]).
  destruct (truthy (notes r)); [reflexivity|].
  now rewrite (split_nl_one NO_NOTES_MD) by (vm_compute; intuition discriminate).
Qed.

Lemma md_lines_no_CR (r : Note) :
  md_safe r = true -> Forall (fun l => ~ In CR l) (md_lines_of r).
Proof.
  intro Hs. destruct (lines_safe_spec _ r Hs) as (Hn & Ht & Hcr).
  destruct (title_ok_spec _ Ht) as (_ & _ & _ & Hcr').
  unfold md_lines_of. repeat constructor; try (simpl; tauto).
  - apply md_header_chars; [assumption..|now right].
  - destruct (truthy (notes r)); [assumption|].
    vm_compute. intuition discriminate.
  - vm_compute. intuition discriminate.
Qed.

Lemma md_fits_header (n : Z) (t : str) :
  number_ok n = true -> title_ok t = true -> md_fits (md_header n t) = true.
Proof.
  intros Hn Ht. destruct (number_ok_spec n Hn) as [Hn0 Hd].
  destruct (title_ok_spec t Ht) as (Hr & Hl & Hlf & _).
  unfold md_fits, md_header. cbv zeta. rewrite md_header_strip by assumption.
  rewrite md_slide_pattern_header by assumption.
  cbn [digits_fit fst]. rewrite orb_true_iff. right. now apply Z.leb_le.
Qed.

Lemma md_records_fit (rs : list Note) :
  forallb md_safe rs = true ->
  forallb md_fits
    (flat_map (record_lines NO_NOTES_MD md_header md_before md_after) rs)
  = true.
Proof.
  apply (records_fit md_fits NO_NOTES_MD md_line_ok md_header
           md_before md_after).
  - exact md_fits_header.
  - repeat split; vm_compute; reflexivity.
  - intros l Hok. destruct (md_line_ok_spec l Hok) as (_ & H2 & _).
    unfold md_fits. cbv zeta. rewrite H2. apply orb_true_r.
Qed.

Lemma parse_export_md (crlf : bool) (rs : list Note) :
  forallb md_safe rs = true ->
  _parse_md (export_to_md crlf rs) = Ok (map (with_notes lines_norm) rs).
Proof.
  intro Hs. unfold _parse_md, export_to_md. cbv zeta.
  pose proof Hs as Hall. rewrite forallb_forall in Hs.
  rewrite read_write_text.
  2:{ apply join_nl_no_CR, Forall_app. split.
      - repeat constructor; vm_compute; intuition discriminate.
      - apply flat_map_Forall. intros r Hr. apply md_lines_no_CR, Hs, Hr. }
  rewrite split_nl_join by discriminate.
  rewrite flat_map_app.
  rewrite (flat_map_flat_map_ext _ _
             (record_lines NO_NOTES_MD md_header md_before md_after)).
  2:{ intros a Ha. apply md_lines_split, Hs, Ha. }
  rewrite (parse_loop_pass md_step md_pass md_fits md_step_pass).
  2:{ rewrite forallb_app, md_records_fit by exact Hall.
      vm_compute. reflexivity. }
  rewrite fold_left_app.
  change (fold_left md_pass (flat_map split_nl [lit "# Speaker Notes"; []])
            parse_start) with parse_start.
  unfold finish. rewrite md_records by exact Hall.
  reflexivity.
Qed.


(** ** The Word format *)

Lemma join_nl_line_In (c : char) (l : str) (ls : list str) :
  In l ls -> In c l -> In c (join_nl ls).
Proof.
  induction ls as [|x ls IH]; [contradiction|]. intros Hl Hc.
  destruct ls as [|y ls].
  - destruct Hl as [->|[]]. exact Hc.
  - rewrite join_nl_cons by discriminate. apply in_or_app.
    destruct Hl as [->|Hl]; [now left|]. right. right. now apply IH.
Qed.

Lemma split_nl_line_In (c : char) (l s : str) :
  In l (split_nl s) -> In c l -> In c s.
Proof.
  intros Hl Hc. rewrite <- (join_nl_split s). now apply join_nl_line_In with l.
Qed.

Lemma sanitize_text_In (c : char) (s : str) : In c (sanitize_text s) -> In c s.
Proof. rewrite sanitize_text_filter, filter_In. tauto. Qed.

Lemma docx_safe_spec (r : Note) :
  docx_safe r = true ->
  0 <= slide_number r /\ title_ok (slide_title r) = true
  /\ sanitize_text (slide_title r) = slide_title r
  /\ ~ In CR (notes r)
  /\ forallb txt_line_ok (split_nl (sanitize_text (notes r))) = true.
Proof.
  unfold docx_safe.
  rewrite !andb_true_iff, negb_true_iff, mem_false, str_eqb_eq.
  intros [[[[[[Hn Ht] Hs] _] Hcr] _] Hok]. apply number_ok_spec in Hn. tauto.
Qed.

Lemma docx_safe_xml (r : Note) :
  docx_safe r = true ->
  number_ok (slide_number r) = true
  /\ xml_compatible (slide_title r) = true
  /\ xml_compatible (sanitize_text (notes r)) = true.
Proof.
  unfold docx_safe. rewrite !andb_true_iff. tauto.
Qed.

Lemma docx_pass_header (st : ParseState) (n : Z) (t : str) (b i : bool) :
  0 <= n -> title_ok t = true ->
  docx_pass st (add_paragraph (header_text n t) b i)
  = mkParseState (flush NO_NOTES st) (Some (n, t)) [].
Proof.
  intros Hn Ht. destruct (title_ok_spec t Ht) as (Hr & Hl & Hlf & Hcr).
  unfold docx_pass, add_paragraph. cbn [para_text].
  rewrite run_text_plain by now apply header_text_no_CR.
  rewrite header_text_strip by assumption.
  rewrite separator_pattern_header, slide_pattern_header by assumption.
  replace (truthy (header_text n t)) with true
    by (rewrite header_text_eq; reflexivity).
  now apply started_header.
Qed.

Lemma docx_pass_rule (st : ParseState) :
  docx_pass st (add_paragraph (times RULE_LIGHT 50) false false) = st.
Proof.
  unfold docx_pass.
  match goal with
  | |- context [separator_pattern ?x] =>
      replace (separator_pattern x) with true by (vm_compute; reflexivity)
  end.
  now rewrite orb_true_r.
Qed.

Lemma docx_pass_spacer (st : ParseState) :
  docx_pass st (add_paragraph [] false false) = st.
Proof. reflexivity. Qed.

Lemma docx_pass_placeholder (st : ParseState) :
  docx_pass st (add_paragraph NO_NOTES false true) = st.
Proof.
  unfold docx_pass, add_line.
  replace (strip (para_text (add_paragraph NO_NOTES false true)))
    with NO_NOTES by (vm_compute; reflexivity).
  replace (negb (truthy NO_NOTES) || separator_pattern NO_NOTES) with false
    by (vm_compute; reflexivity).
  replace (slide_pattern NO_NOTES) with (@None (str * option str))
    by (vm_compute; reflexivity).
  rewrite str_eqb_refl. now destruct (current_slide st).
Qed.


Lemma docx_pass_body (ls : list str) :
  forall st cs, current_slide st = Some cs ->
    forallb txt_line_ok ls = true ->
    Forall (fun l => ~ In CR l) ls ->
    fold_left docx_pass (body_paragraphs ls) st
    = mkParseState (notes_data st) (current_slide st)
        (current_notes st ++ filter truthy (map strip ls)).
Proof.
  induction ls as [|l ls IH]; intros st cs Hcs Hok Hcr.
  - simpl. rewrite app_nil_r. now destruct st.
  - cbn [forallb] in Hok. apply andb_true_iff in Hok. destruct Hok as [Hl Hls].
    inversion Hcr as [|? ? Hcl Hcls]; subst.
    unfold body_paragraphs. cbn [flat_map map filter].
    fold (body_paragraphs ls).
    destruct (truthy (strip l)) eqn:Et.
    + cbn [app fold_left].
      assert (Hstep : docx_pass st (add_paragraph (strip l) false false)
                      = keep st (strip l)).
      { destruct (txt_line_ok_spec l Hl) as (H1 & H2 & H3).
        unfold docx_pass, add_paragraph. cbn [para_text].
        rewrite run_text_plain by (intro H; apply Hcl; now apply strip_In).
        rewrite strip_idem, Et, H1, H2. cbn [negb orb].
        unfold add_line, keep. now rewrite H3, Hcs. }
      rewrite Hstep, (IH (keep st (strip l)) cs Hcs Hls Hcls).
      cbn [keep notes_data current_slide current_notes].
      now rewrite <- app_assoc.
    + cbn [app]. now apply IH with cs.
Qed.

Lemma docx_norm_not_placeholder (b : str) :
  forallb txt_line_ok (split_nl (sanitize_text b)) = true ->
  str_eqb (docx_norm b) NO_NOTES = false.
Proof.
  intro Hok. apply str_eqb_neq. intro E. unfold docx_norm in E.
  assert (Hne : NO_NOTES <> []) by discriminate.
  assert (Hlf : ~ In LF NO_NOTES) by (vm_compute; intuition discriminate).
  destruct (strip_join_line NO_NOTES _ Hne Hlf E) as (l & Hl & Hs).
  apply filter_In in Hl. destruct Hl as [Hl _].
  apply in_map_iff in Hl. destruct Hl as (l0 & <- & Hl0).
  rewrite strip_idem in Hs. rewrite forallb_forall in Hok.
  destruct (txt_line_ok_spec l0 (Hok l0 Hl0)) as (_ & _ & H3).
  apply str_eqb_neq in H3. contradiction.
Qed.

Lemma docx_header_text_fixed (n : Z) (t : str) :
  sanitize_text t = t -> docx_header_text n t = header_text n t.
Proof. intro H. unfold docx_header_text, header_text. now rewrite H. Qed.

Lemma docx_record_open (r : Note) (st : ParseState) :
  docx_safe r = true ->
  fold_left docx_pass (docx_paragraphs_of r) st
  = fold_left docx_pass
      (if truthy (notes r)
       then body_paragraphs (split_nl (sanitize_text (notes r)))
       else [add_paragraph NO_NOTES false true])
      (mkParseState (flush NO_NOTES st)
                    (Some (slide_number r, slide_title r)) []).
Proof.
  intro Hs. destruct (docx_safe_spec r Hs) as (Hn & Ht & Hst & Hcr & Hok).
  unfold docx_paragraphs_of. cbv zeta.
  rewrite docx_header_text_fixed by exact Hst.
  rewrite !fold_left_app. cbn [fold_left].
  rewrite docx_pass_header, docx_pass_rule, docx_pass_spacer by assumption.
  reflexivity.
Qed.

Lemma docx_record_empty (st : ParseState) (n : Z) (t : str) :
  flush NO_NOTES
    (fold_left docx_pass [add_paragraph NO_NOTES false true]
       (mkParseState (flush NO_NOTES st) (Some (n, t)) []))
  = flush NO_NOTES st ++ [mkNote n t (docx_norm [])].
Proof.
  cbn [fold_left]. rewrite docx_pass_placeholder.
  unfold flush. cbn [notes_data current_slide current_notes].
  replace (docx_norm []) with (@nil char) by (vm_compute; reflexivity).
  reflexivity.
Qed.

Lemma docx_record_body (st : ParseState) (n : Z) (t b : str) :
  ~ In CR b ->
  forallb txt_line_ok (split_nl (sanitize_text b)) = true ->
  flush NO_NOTES
    (fold_left docx_pass (body_paragraphs (split_nl (sanitize_text b)))
       (mkParseState (flush NO_NOTES st) (Some (n, t)) []))
  = flush NO_NOTES st ++ [mkNote n t (docx_norm b)].
Proof.
  intros Hcr Hok.
  assert (Hno : Forall (fun l => ~ In CR l) (split_nl (sanitize_text b))).
  { apply Forall_forall. intros l Hl Hc. apply Hcr.
    apply sanitize_text_In. now apply split_nl_line_In with l. }
  rewrite (docx_pass_body (split_nl (sanitize_text b))
             (mkParseState (flush NO_NOTES st) (Some (n, t)) [])
             (n, t) eq_refl Hok Hno).
  unfold flush at 1. cbn [notes_data current_slide current_notes app].
  change (strip (join_nl (filter truthy (map strip (split_nl (sanitize_text b))))))
    with (docx_norm b).
  rewrite (docx_norm_not_placeholder _ Hok). reflexivity.
Qed.

Lemma docx_record (r : Note) (st : ParseState) :
  docx_safe r = true ->
  flush NO_NOTES (fold_left docx_pass (docx_paragraphs_of r) st)
  = flush NO_NOTES st ++ [with_notes docx_norm r].
Proof.
  intro Hs. rewrite docx_record_open by assumption.
  destruct (docx_safe_spec r Hs) as (Hn & Ht & Hst & Hcr & Hok).
  unfold with_notes. destruct (truthy (notes r)) eqn:Et.
  - now apply docx_record_body.
  - assert (E : notes r = []) by (destruct (notes r); [reflexivity|discriminate]).
    rewrite E. apply docx_record_empty.
Qed.

Lemma docx_records (rs : list Note) :
  forall st, forallb docx_safe rs = true ->
    flush NO_NOTES (fold_left docx_pass (flat_map docx_paragraphs_of rs) st)
    = flush NO_NOTES st ++ map (with_notes docx_norm) rs.
Proof.
  induction rs as [|r rs IH]; intros st Hs; cbn [flat_map map fold_left].
  - now rewrite app_nil_r.
  - cbn [forallb] in Hs. apply andb_true_iff in Hs. destruct Hs as [Hr Hrs].
    rewrite fold_left_app, IH, docx_record by assumption.
    now rewrite <- app_assoc.
Qed.

(** No pass over the paragraphs of such records raises. *)
Lemma docx_fits_header (n : Z) (t : str) (b i : bool) :
  number_ok n = true -> title_ok t = true ->
  docx_fits (add_paragraph (header_text n t) b i) = true.
Proof.
  intros Hn Ht. destruct (number_ok_spec n Hn) as [Hn0 Hd].
  destruct (title_ok_spec t Ht) as (Hr & Hl & Hlf & Hcr).
  unfold docx_fits, add_paragraph. cbn [para_text]. cbv zeta.
  rewrite run_text_plain by now apply header_text_no_CR.
  rewrite header_text_strip by assumption.
  rewrite slide_pattern_header by assumption.
  cbn [digits_fit fst]. rewrite orb_true_iff. right. now apply Z.leb_le.
Qed.

Lemma docx_fits_body (ls : list str) :
  forallb txt_line_ok ls = true ->
  Forall (fun l => ~ In CR l) ls ->
  forallb docx_fits (body_paragraphs ls) = true.
Proof.
  induction ls as [|l ls IH]; intros Hok Hcr; [reflexivity|].
  cbn [forallb] in Hok. apply andb_true_iff in Hok. destruct Hok as [Hl Hls].
  inversion Hcr as [|? ? Hcl Hcls]; subst.
  unfold body_paragraphs. cbn [flat_map]. fold (body_paragraphs ls).
  rewrite forallb_app, (IH Hls Hcls), andb_true_r.
  destruct (truthy (strip l)); [|reflexivity].
  cbn [forallb]. rewrite andb_true_r.
  destruct (txt_line_ok_spec l Hl) as (_ & H2 & _).
  unfold docx_fits, add_paragraph. cbn [para_text]. cbv zeta.
  rewrite run_text_plain by (intro H; apply Hcl; now apply strip_In).
  rewrite strip_idem, H2. apply orb_true_r.
Qed.

Lemma docx_record_fits (r : Note) :
  docx_safe r = true -> forallb docx_fits (docx_paragraphs_of r) = true.
Proof.
  intro Hs. destruct (docx_safe_spec r Hs) as (Hn & Ht & Hst & Hcr & Hok).
  destruct (docx_safe_xml r Hs) as (Hno & _ & _).
  unfold docx_paragraphs_of. cbv zeta.
  rewrite docx_header_text_fixed by exact Hst.
  cbn [app forallb]. rewrite docx_fits_header by assumption.
  rewrite forallb_app. cbn [andb].
  replace (docx_fits (add_paragraph (times RULE_LIGHT 50) false false))
    with true by (vm_compute; reflexivity).
  cbn [andb forallb].
  replace (docx_fits (add_paragraph [] false false))
    with true by (vm_compute; reflexivity).
  rewrite !andb_true_r.
  destruct (truthy (notes r)); [|vm_compute; reflexivity].
  apply docx_fits_body; [exact Hok|].
  apply Forall_forall. intros l Hl Hc. apply Hcr.
  apply sanitize_text_In. now apply split_nl_line_In with l.
Qed.

Lemma docx_records_fit (rs : list Note) :
  forallb docx_safe rs = true ->
  forallb docx_fits (flat_map docx_paragraphs_of rs) = true.
Proof.
  induction rs as [|r rs IH]; intro Hs; cbn [flat_map]; [reflexivity|].
  cbn [forallb] in Hs. apply andb_true_iff in Hs. destruct Hs as [Hr Hrs].
  rewrite forallb_app, docx_record_fits, IH by assumption. reflexivity.
Qed.

(** The texts of such records are XML compatible. *)
Lemma xml_compatible_spec (s : str) :
  xml_compatible s = true <-> forall c, In c s -> xml_invalid c = false.
Proof.
  unfold xml_compatible. rewrite forallb_forall. split; intros H c Hc.
  - apply negb_true_iff. now apply H.
  - apply negb_true_iff. now apply H.
Qed.

Lemma xml_compatible_app (a b : str) :
  xml_compatible (a ++ b) = xml_compatible a && xml_compatible b.
Proof. apply forallb_app. Qed.

Lemma xml_compatible_run_text (s : str) :
  xml_compatible s = true -> xml_compatible (run_text s) = true.
Proof.
  rewrite !xml_compatible_spec. intros H c Hc. unfold run_text in Hc.
  apply in_map_iff in Hc. destruct Hc as (x & <- & Hx).
  destruct (x =? CR); [reflexivity|]. now apply H.
Qed.

Lemma xml_compatible_digits (d : str) :
  Forall ascii_digit d -> xml_compatible d = true.
Proof.
  intro H. apply xml_compatible_spec. intros c Hc.
  rewrite Forall_forall in H. specialize (H c Hc). unfold ascii_digit in H.
  unfold xml_invalid.
  replace (c <? 32) with false by (symmetry; apply Z.ltb_ge; lia).
  replace (55296 <=? c) with false by (symmetry; apply Z.leb_gt; lia).
  replace (c =? 65534) with false by (symmetry; apply Z.eqb_neq; lia).
  replace (c =? 65535) with false by (symmetry; apply Z.eqb_neq; lia).
  now rewrite andb_false_r.
Qed.

Lemma xml_compatible_header_text (n : Z) (t : str) :
  0 <= n -> xml_compatible t = true -> xml_compatible (header_text n t) = true.
Proof.
  intros Hn Ht. destruct (str_of_int_spec n Hn) as (_ & Hd & _).
  rewrite header_text_eq.
  change ([83; 108; 105; 100; 101] ++ 32 :: ?x) with
    ([83; 108; 105; 100; 101; 32] ++ x).
  rewrite !xml_compatible_app, (xml_compatible_digits _ Hd).
  destruct (truthy t); [|reflexivity].
  change (58 :: 32 :: t) with ([58; 32] ++ t).
  now rewrite xml_compatible_app, Ht.
Qed.

Lemma xml_compatible_body (ls : list str) :
  Forall (fun l => xml_compatible l = true) ls ->
  forallb (fun para => xml_compatible (para_text para)) (body_paragraphs ls)
  = true.
Proof.
  induction 1 as [|l ls Hl Hls IH]; [reflexivity|].
  unfold body_paragraphs. cbn [flat_map]. fold (body_paragraphs ls).
  rewrite forallb_app, IH, andb_true_r.
  destruct (truthy (strip l)); [|reflexivity].
  cbn [forallb add_paragraph para_text]. rewrite andb_true_r.
  apply xml_compatible_run_text, xml_compatible_spec. intros c Hc.
  apply strip_In in Hc. revert c Hc. now apply xml_compatible_spec.
Qed.

Lemma docx_record_xml (r : Note) :
  docx_safe r = true ->
  forallb (fun para => xml_compatible (para_text para)) (docx_paragraphs_of r)
  = true.
Proof.
  intro Hs. destruct (docx_safe_spec r Hs) as (Hn & Ht & Hst & Hcr & Hok).
  destruct (docx_safe_xml r Hs) as (_ & Hxt & Hxb).
  unfold docx_paragraphs_of. cbv zeta.
  rewrite docx_header_text_fixed by exact Hst.
  cbn [app forallb add_paragraph para_text].
  rewrite xml_compatible_run_text by now apply xml_compatible_header_text.
  replace (xml_compatible (run_text (times RULE_LIGHT 50))) with true
    by (vm_compute; reflexivity).
  rewrite forallb_app. cbn [andb forallb para_text].
  replace (xml_compatible (run_text [])) with true by reflexivity.
  rewrite !andb_true_r.
  destruct (truthy (notes r)); [|vm_compute; reflexivity].
  apply xml_compatible_body, Forall_forall. intros l Hl.
  apply xml_compatible_spec. intros c Hc.
  rewrite xml_compatible_spec in Hxb. apply Hxb.
  now apply split_nl_line_In with l.
Qed.

Lemma docx_records_xml (rs : list Note) :
  forallb docx_safe rs = true ->
  forallb (fun para => xml_compatible (para_text para))
    (flat_map docx_paragraphs_of rs) = true.
Proof.
  induction rs as [|r rs IH]; intro Hs; cbn [flat_map]; [reflexivity|].
  cbn [forallb] in Hs. apply andb_true_iff in Hs. destruct Hs as [Hr Hrs].
  rewrite forallb_app, docx_record_xml, IH by assumption. reflexivity.
Qed.

Lemma xml_compatible_docx_header (n : Z) (t : str) :
  xml_compatible (sanitize_text t) = true ->
  xml_compatible (docx_header_text n t) = true.
Proof.
  intro Ht. unfold docx_header_text.
  assert (Hs : xml_compatible (lit "Slide " ++ str_of_int n) = true).
  { apply xml_compatible_spec. intros c Hc.
    apply in_app_or in Hc. destruct Hc as [Hc|Hc].
    - vm_compute in Hc.
      repeat (destruct Hc as [<-|Hc]; [reflexivity|]). destruct Hc.
    - apply str_of_int_chars in Hc. destruct Hc as [->|Hc]; [reflexivity|].
      unfold xml_invalid.
      replace (c <? 32) with false by lia.
      replace (55296 <=? c) with false by lia.
      replace (c =? 65534) with false by lia.
      replace (c =? 65535) with false by lia.
      now rewrite andb_false_r. }
  destruct (truthy t); [|exact Hs].
  rewrite app_assoc, xml_compatible_app, Hs, xml_compatible_app, Ht.
  reflexivity.
Qed.

Lemma export_to_docx_Ok (rs : list Note) (doc : list Paragraph) :
  export_to_docx true rs = Ok doc -> doc = flat_map docx_paragraphs_of rs.
Proof.
  unfold export_to_docx. cbn [negb]. cbv zeta.
  destruct (forallb _ _); [|discriminate]. now intros [= <-].
Qed.

Lemma parse_export_docx (rs : list Note) :
  forallb docx_safe rs = true ->
  exists doc, export_to_docx true rs = Ok doc
              /\ _parse_docx true doc = Ok (map (with_notes docx_norm) rs).
Proof.
  intro Hs. exists (flat_map docx_paragraphs_of rs). split.
  - unfold export_to_docx. cbn [negb]. cbv zeta.
    now rewrite docx_records_xml.
  - unfold _parse_docx. cbn [negb].
    rewrite (parse_loop_pass docx_step docx_pass docx_fits docx_step_pass)
      by now apply docx_records_fit.
    unfold finish. now rewrite docx_records.
Qed.

(** When no line of the body ends in whitespace, the text parsers give
    the body back trimmed. *)
Lemma lines_norm_trim (b : str) :
  Forall (fun l => rstrip l = l) (split_nl b) -> lines_norm b = strip b.
Proof.
  intro H. unfold lines_norm.
  replace (map rstrip (split_nl b)) with (split_nl b).
  - now rewrite join_nl_split.
  - induction H as [|l ls Hl Hls IH]; simpl; [reflexivity|].
    now rewrite Hl, <- IH.
Qed.

(* ================================================================== *)
(** * Properties of the serializers and parsers *)
(* ================================================================== *)

Lemma docx_norm_trim (b : str) :
  sanitize_text b = b ->
  Forall (fun l => strip l = l /\ l <> []) (split_nl b) ->
  docx_norm b = strip b.
Proof.
  intros Hs H. unfold docx_norm. rewrite Hs.
  replace (filter truthy (map strip (split_nl b))) with (split_nl b).
  - now rewrite join_nl_split.
  - induction H as [|l ls [Hl Hne] Hls IH]; simpl; [reflexivity|].
    rewrite Hl. destruct l; [contradiction|]. simpl. now rewrite <- IH.
Qed.

(** Where the serializer and the parsers raise: a character that XML
    cannot hold stops [export_to_docx], and a header of 4301 digits stops
    [_parse_txt]. *)
Lemma export_to_docx_not_xml :
  export_to_docx true [mkNote 1 (lit "t") [97; 65535; 98]] = Raise XML_ERROR.
Proof. vm_compute. reflexivity. Qed.

Lemma _parse_txt_long_number :
  _parse_txt (lit "Slide " ++ times 49 4300)
  = Ok [mkNote (int_of_digits (times 49 4300)) [] []]
  /\ exists e, _parse_txt (lit "Slide " ++ times 49 4301) = Raise e.
Proof.
  split.
  - unfold _parse_txt. cbv zeta.
    rewrite (finish_loop_pass txt_step txt_pass txt_fits txt_step_pass)
      by (vm_compute; reflexivity).
    vm_compute. reflexivity.
  - eexists. vm_compute. reflexivity.
Qed.

(** C2 fails as stated: for a slide without notes [export_to_md] writes
    the placeholder between asterisks, not the bare text. *)
Lemma export_to_md_placeholder_has_asterisks :
  export_to_md false [note_untitled_empty]
  = join_nl [lit "# Speaker Notes"; []; lit "## Slide 7"; [];
             lit "*[No notes]*"; []; lit "---"; []]
  /\ nth 2 (md_lines_of note_untitled_empty) [] <> lit "[No notes]".
Proof. split; [reflexivity|]. vm_compute. discriminate. Qed.

(** C2 (amended). For a record with empty notes, [export_to_txt] writes
    the plain text [[No notes]] as the body, [export_to_md] writes
    [*[No notes]*] (the placeholder in Markdown emphasis marks), and
    [export_to_docx], when the title holds no character that the XML of
    the document cannot hold, writes [[No notes]] in a paragraph whose run
    is italic, after the header (whose title is tested as given and
    written sanitized) and the rule, and before the spacer.  The slide
    number is one that the interpreter prints. *)
Theorem empty_notes_placeholder :
  forall note : Note,
    notes note = [] ->
    printable (slide_number note) = true ->
    txt_lines_of note
    = [header_text (slide_number note) (slide_title note);
       times RULE_LIGHT 50; []; lit "[No notes]"; []; times RULE_DOUBLE 50; []]
    /\ md_lines_of note
       = [lit "## " ++ header_text (slide_number note) (slide_title note);
          []; lit "*[No notes]*"; []; lit "---"; []]
    /\ (xml_compatible (sanitize_text (slide_title note)) = true ->
        export_to_docx true [note]
        = Ok [add_paragraph
                (docx_header_text (slide_number note) (slide_title note))
                true false;
              mkParagraph (times RULE_LIGHT 50) false false;
              mkParagraph (lit "[No notes]") false true;
              mkParagraph [] false false]).
Proof.
  intros note H _. unfold txt_lines_of, md_lines_of.
  rewrite H. split; [reflexivity|]. split; [reflexivity|].
  intro Hx. unfold export_to_docx. cbn [negb flat_map]. cbv zeta.
  rewrite app_nil_r. unfold docx_paragraphs_of. cbv zeta. rewrite H.
  cbn [truthy app forallb add_paragraph para_text].
  rewrite xml_compatible_run_text by now apply xml_compatible_docx_header.
  reflexivity.
Qed.

Lemma empty_notes_placeholder_witness :
  (nth 3 (txt_lines_of note_untitled_empty) [] = lit "[No notes]"
   /\ nth 2 (md_lines_of note_untitled_empty) [] = lit "*[No notes]*"
   /\ export_to_docx true [note_untitled_empty]
      = Ok [mkParagraph (lit "Slide 7") true false;
            mkParagraph (times RULE_LIGHT 50) false false;
            mkParagraph (lit "[No notes]") false true;
            mkParagraph [] false false])
  /\ export_to_docx true [note_bell_empty]
     = Ok [mkParagraph (lit "Slide 5: ") true false;
           mkParagraph (times RULE_LIGHT 50) false false;
           mkParagraph (lit "[No notes]") false true;
           mkParagraph [] false false].
Proof.
  split.
  - destruct (empty_notes_placeholder note_untitled_empty eq_refl eq_refl)
      as (Ht & Hm & Hd).
    rewrite Ht, Hm, (Hd eq_refl). repeat split.
  - destruct (empty_notes_placeholder note_bell_empty eq_refl eq_refl)
      as (_ & _ & Hd).
    rewrite (Hd eq_refl). reflexivity.
Defined.




(* ================================================================== *)
(** * Further properties of the differ *)
(* ================================================================== *)

Lemma dict_get_In {V} (d : dict V) (k : Z) (v : V) :
  NoDup (map fst d) -> In (k, v) d -> dict_get d k = Some v.
Proof.
  induction d as [|[k' v'] d IH]; intros Hnd Hin; [contradiction|].
  inversion Hnd as [|? ? Hk Hd]; subst. simpl.
  destruct Hin as [E|Hin].
  - injection E as -> ->. now rewrite Z.eqb_refl.
  - destruct (k' =? k) eqn:E; [|now apply IH].
    apply Z.eqb_eq in E. subst k'. exfalso. apply Hk.
    apply in_map_iff. exists (k, v). tauto.
Qed.

Lemma by_slide_In (l : list Note) (k : Z) (v : Note) :
  In (k, v) (by_slide l) -> last_with k l = Some v.
Proof.
  intro H. rewrite <- by_slide_lookup.
  apply dict_get_In; [apply compare_notes_by_slide_NoDup|assumption].
Qed.

Lemma last_with_In (n : Z) (l : list Note) (r : Note) :
  last_with n l = Some r -> In r l /\ slide_number r = n.
Proof.
  unfold last_with. intro H. apply find_some in H. destruct H as [Hin E].
  apply in_rev in Hin. apply Z.eqb_eq in E. tauto.
Qed.

Lemma last_with_map (g : Note -> Note) (n : Z) (l : list Note) :
  (forall r, slide_number (g r) = slide_number r) ->
  last_with n (map g l) = option_map g (last_with n l).
Proof.
  intro Hg. unfold last_with. rewrite <- map_rev.
  induction (rev l) as [|x xs IH]; simpl; [reflexivity|].
  rewrite Hg. now destruct (slide_number x =? n).
Qed.

Lemma compare_notes_In (original edited : list Note) (c : Change) :
  In c (compare_notes original edited) ->
  exists en, last_with (change_slide_number c) edited = Some en
             /\ compare_slide (last_with (change_slide_number c) original)
                              (change_slide_number c) en = Some c.
Proof.
  rewrite compare_notes_flat. intro H. apply in_flat_map in H.
  destruct H as ([k v] & Hitem & Hc). cbn [fst snd] in Hc.
  destruct (compare_slide _ k v) as [c'|] eqn:E; [|contradiction].
  destruct Hc as [->|[]].
  pose proof (compare_slide_number _ _ _ _ E) as Hk. subst k.
  exists v. split; [now apply by_slide_In|].
  now rewrite <- by_slide_lookup.
Qed.

Lemma compare_notes_at (original edited : list Note) (n : Z) (en : Note)
    (c : Change) :
  last_with n edited = Some en ->
  compare_slide (last_with n original) n en = Some c ->
  In c (compare_notes original edited).
Proof.
  intros He Hc.
  assert (H : In c (filter (fun c => change_slide_number c =? n)
                      (compare_notes original edited))).
  { rewrite compare_notes_flat, loop_at by apply compare_notes_by_slide_NoDup.
    rewrite !by_slide_lookup, He, Hc. now left. }
  apply filter_In in H. tauto.
Qed.

Lemma compare_slide_same_text (o e : Note) (n : Z) :
  strip (notes e) = strip (notes o) -> compare_slide (Some o) n e = None.
Proof.
  intro H. unfold compare_slide. cbv zeta. now rewrite H, str_eqb_refl.
Qed.

(** X1. Comparing a snapshot with itself reports nothing, whatever the
    snapshot (duplicates included). *)
Theorem compare_notes_same_snapshot :
  forall s : list Note, compare_notes s s = [].
Proof.
  intro s. destruct (compare_notes s s) as [|c cs] eqn:E; [reflexivity|].
  assert (Hin : In c (compare_notes s s)) by (rewrite E; now left).
  apply compare_notes_In in Hin. destruct Hin as (en & He & Hc).
  rewrite He in Hc. now rewrite compare_slide_same_text in Hc.
Qed.

(** Comparing a snapshot with a copy whose notes were changed in a way
    that trimming does not see reports nothing. *)
Lemma compare_notes_same_text (f : str -> str) (s : list Note) :
  (forall r, In r s -> strip (f (notes r)) = strip (notes r)) ->
  compare_notes s (map (with_notes f) s) = [].
Proof.
  intro Hf.
  destruct (compare_notes s (map (with_notes f) s)) as [|c cs] eqn:E;
    [reflexivity|].
  assert (Hin : In c (compare_notes s (map (with_notes f) s)))
    by (rewrite E; now left).
  apply compare_notes_In in Hin. destruct Hin as (en & He & Hc).
  rewrite last_with_map in He by reflexivity.
  destruct (last_with (change_slide_number c) s) as [r|] eqn:Er;
    [|discriminate].
  injection He as <-. destruct (last_with_In _ _ _ Er) as [Hr _].
  rewrite compare_slide_same_text in Hc; [discriminate|].
  apply Hf, Hr.
Qed.

(** X2. Every change that [compare_notes] returns records two different
    texts, and its type is the one their emptiness calls for: [added] when
    the original text is empty, [removed] when only the edited text is
    empty, [modified] when neither is. *)
Theorem compare_notes_change_invariant :
  forall (original edited : list Note) (c : Change),
    In c (compare_notes original edited) ->
    original_notes c <> edited_notes c
    /\ change_type c = expected_type (original_notes c) (edited_notes c)
    /\ strip (original_notes c) = original_notes c.
Proof.
  intros original edited c Hin.
  apply compare_notes_In in Hin. destruct Hin as (en & _ & Hc).
  unfold compare_slide in Hc.
  destruct (last_with (change_slide_number c) original) as [on|].
  - cbv zeta in Hc.
    destruct (str_eqb (strip (notes on)) (strip (notes en))) eqn:E;
      [discriminate|]. cbn [negb] in Hc. injection Hc as <-.
    cbn [original_notes edited_notes change_type].
    apply str_eqb_neq in E. split; [exact E|]. split; [|apply strip_idem].
    destruct (strip (notes on)), (strip (notes en)); try reflexivity.
    now contradiction E.
  - destruct (notes en) as [|x xs] eqn:En; [discriminate|].
    cbn [truthy] in Hc. injection Hc as <-.
    cbn [original_notes edited_notes change_type].
    repeat split. discriminate.
Qed.

Lemma compare_notes_change_invariant_witness :
  original_notes (mkChange 1 (lit "Intro") (lit "old") (lit "new") modified)
  <> edited_notes (mkChange 1 (lit "Intro") (lit "old") (lit "new") modified).
Proof.
  apply (compare_notes_change_invariant [note_1_old] [note_1_new]).
  left. reflexivity.
Defined.

(** X3. Nothing that differs goes unreported: when the last record of
    [edited] numbered [n] and the last record of [original] numbered [n]
    differ after trimming, the changes contain the change for slide [n]
    with the original's title and both trimmed texts; when [original] has
    no record numbered [n] and the edited notes are not empty, they contain
    the [added] change with the edited record's title. *)
Theorem compare_notes_reports_difference :
  forall (original edited : list Note) (n : Z) (en : Note),
    last_with n edited = Some en ->
    (forall on, last_with n original = Some on ->
       strip (notes on) <> strip (notes en) ->
       In (mkChange n (slide_title on) (strip (notes on)) (strip (notes en))
             (expected_type (strip (notes on)) (strip (notes en))))
          (compare_notes original edited))
    /\ (last_with n original = None -> notes en <> [] ->
        In (mkChange n (slide_title en) [] (notes en) added)
           (compare_notes original edited)).
Proof.
  intros original edited n en He. split.
  - intros on Ho Hd. apply (compare_notes_at original edited n en _ He).
    rewrite Ho. unfold compare_slide. cbv zeta.
    apply str_eqb_neq in Hd. rewrite Hd. cbn [negb]. do 2 f_equal.
    apply str_eqb_neq in Hd.
    destruct (strip (notes on)), (strip (notes en)); try reflexivity.
    now contradiction Hd.
  - intros Ho Hne. apply (compare_notes_at original edited n en _ He).
    rewrite Ho. unfold compare_slide.
    destruct (notes en); [contradiction|reflexivity].
Qed.

Lemma compare_notes_reports_difference_witness :
  In (mkChange 1 (lit "Intro") (lit "old") (lit "new") modified)
     (compare_notes [note_1_old] [note_1_new]).
Proof.
  apply (proj1 (compare_notes_reports_difference
                  [note_1_old] [note_1_new] 1 note_1_new eq_refl)
               note_1_old eq_refl).
  vm_compute. discriminate.
Defined.

(* ================================================================== *)
(** * An unedited export read back *)
(* ================================================================== *)

Lemma tidy_lines_norm (b : str) :
  tidy_lines b = true -> lines_norm b = strip b.
Proof.
  intro H. apply lines_norm_trim. apply Forall_forall. intros l Hl.
  unfold tidy_lines in H. rewrite forallb_forall in H.
  now apply str_eqb_eq, H.
Qed.

Lemma tidy_paragraphs_norm (b : str) :
  tidy_paragraphs b = true -> docx_norm b = strip b.
Proof.
  unfold tidy_paragraphs. destruct b as [|c b]; [reflexivity|].
  cbn [truthy negb orb]. rewrite andb_true_iff, str_eqb_eq.
  intros [Hs Hl]. apply docx_norm_trim; [assumption|].
  apply Forall_forall. intros l Hin. rewrite forallb_forall in Hl.
  specialize (Hl l Hin). apply andb_true_iff in Hl. destruct Hl as [H1 H2].
  apply str_eqb_eq in H1. split; [assumption|]. now destruct l.
Qed.

(** X4. Reading back an export that nobody edited reports no change:
    for records that survive the round trip (for the Word format these
    have no character that the XML of the document cannot hold, so the
    export is written) and whose notes are tidy, the export is parsed and
    [compare_notes] of the snapshot with the parsed export is empty, in
    each of the three formats. *)
Theorem unedited_export_has_no_change :
  forall (crlf : bool) (s : list Note),
    (forallb txt_safe s = true ->
     forallb (fun r => tidy_lines (notes r)) s = true ->
     exists parsed,
       _parse_txt (export_to_txt crlf s) = Ok parsed
       /\ compare_notes s parsed = [])
    /\ (forallb md_safe s = true ->
        forallb (fun r => tidy_lines (notes r)) s = true ->
        exists parsed,
          _parse_md (export_to_md crlf s) = Ok parsed
          /\ compare_notes s parsed = [])
    /\ (forallb docx_safe s = true ->
        forallb (fun r => tidy_paragraphs (notes r)) s = true ->
        exists doc parsed,
          export_to_docx true s = Ok doc
          /\ _parse_docx true doc = Ok parsed
          /\ compare_notes s parsed = []).
Proof.
  intros crlf s.
  assert (Hlines : forallb (fun r => tidy_lines (notes r)) s = true ->
                   compare_notes s (map (with_notes lines_norm) s) = []).
  { intro Ht. apply compare_notes_same_text. intros r Hr.
    rewrite forallb_forall in Ht. rewrite (tidy_lines_norm _ (Ht r Hr)).
    apply strip_idem. }
  split; [|split].
  - intros Hs Ht. exists (map (with_notes lines_norm) s).
    split; [now apply parse_export_txt|now apply Hlines].
  - intros Hs Ht. exists (map (with_notes lines_norm) s).
    split; [now apply parse_export_md|now apply Hlines].
  - intros Hs Ht. destruct (parse_export_docx s Hs) as (doc & Hd & Hp).
    exists doc, (map (with_notes docx_norm) s). repeat split; try assumption.
    apply compare_notes_same_text. intros r Hr.
    rewrite forallb_forall in Ht. rewrite (tidy_paragraphs_norm _ (Ht r Hr)).
    apply strip_idem.
Qed.

Lemma unedited_export_has_no_change_witness :
  (exists parsed,
     _parse_txt (export_to_txt true notes_plain) = Ok parsed
     /\ compare_notes notes_plain parsed = [])
  /\ (exists parsed,
        _parse_md (export_to_md false notes_plain) = Ok parsed
        /\ compare_notes notes_plain parsed = [])
  /\ (exists doc parsed,
        export_to_docx true notes_plain = Ok doc
        /\ _parse_docx true doc = Ok parsed
        /\ compare_notes notes_plain parsed = []).
Proof.
  split; [|split].
  - exact (proj1 (unedited_export_has_no_change true notes_plain)
                 eq_refl eq_refl).
  - exact (proj1 (proj2 (unedited_export_has_no_change false notes_plain))
                 eq_refl eq_refl).
  - exact (proj2 (proj2 (unedited_export_has_no_change false notes_plain))
                 eq_refl eq_refl).
Defined.

(* ================================================================== *)
(** * Further properties of the sanitizer *)
(* ================================================================== *)

(** X5. [sanitize_text] works character by character: the sanitized
    concatenation is the concatenation of the sanitized parts, and the
    result is never longer than the input. *)
Theorem sanitize_text_app :
  forall a b : str,
    sanitize_text (a ++ b) = sanitize_text a ++ sanitize_text b
    /\ (List.length (sanitize_text a) <= List.length a)%nat.
Proof.
  intros a b. rewrite !sanitize_text_filter. split.
  - apply filter_app.
  - apply filter_length_le.
Qed.

(* ================================================================== *)
(** * Further properties of the applier *)
(* ================================================================== *)

Lemma applied_of_In (pres : Presentation) (l : list Change) (n : Z) :
  In n (applied_of pres l) -> In n (map change_slide_number l).
Proof.
  unfold applied_of. intro H. apply in_flat_map in H.
  destruct H as (c & Hc & Hn). apply in_map_iff. exists c. split; [|assumption].
  destruct (notes_shapes pres (change_slide_number c)); [|contradiction].
  destruct (write_body_placeholder _ _); [|contradiction].
  destruct Hn as [->|[]]. reflexivity.
Qed.

Lemma applied_errors_length (pres : Presentation) (l : list Change) :
  (List.length (applied_of pres l) + List.length (errors_of pres l)
   <= List.length l)%nat.
Proof.
  unfold applied_of, errors_of. induction l as [|c l IH]; simpl; [lia|].
  rewrite !length_app.
  destruct (notes_shapes pres (change_slide_number c)) as [shapes|e]; simpl.
  - destruct (write_body_placeholder shapes (edited_notes c)); simpl; lia.
  - lia.
Qed.

Lemma apply_notes_Ok (host : Host) (changes : list Change)
    (slides_to_apply : option (list Z)) (res : Outcome) :
  apply_notes host changes slides_to_apply = Ok res ->
  res = mkOutcome [] [] []
  \/ exists pres,
       res = mkOutcome (applied_of pres (selected changes slides_to_apply)) []
                       (errors_of pres (selected changes slides_to_apply)).
Proof.
  unfold apply_notes. destruct (HAS_COM host); cbn [negb]; [|discriminate].
  destruct (selected changes slides_to_apply) as [|c l] eqn:E.
  - intros [= <-]. now left.
  - destruct (Dispatch host); [|discriminate].
    destruct (open_presentation_with_retry host) as [pres|]; [|discriminate].
    destruct (Save pres); [|discriminate].
    intros [= <-]. right. exists pres.
    exact (apply_loop pres (c :: l) (mkOutcome [] [] [])).
Qed.

(** X6. A call with [slides_to_apply] touches only the listed slides: every
    slide in [applied] is listed and is the slide of one of the changes;
    and no change is counted twice, [applied] and [errors] together are no
    longer than the list of changes. *)
Theorem apply_notes_respects_filter :
  forall (host : Host) (changes : list Change) (slides : list Z)
         (res : Outcome),
    apply_notes host changes (Some slides) = Ok res ->
    (forall n, In n (applied res) ->
               In n slides /\ In n (map change_slide_number changes))
    /\ (List.length (applied res) + List.length (errors res)
        <= List.length changes)%nat.
Proof.
  intros host changes slides res H.
  apply apply_notes_Ok in H. destruct H as [->|(pres & ->)].
  - split; [intros n []|simpl; lia].
  - cbn [applied errors selected]. split.
    + intros n Hn. apply applied_of_In, in_map_iff in Hn.
      destruct Hn as (c & <- & Hc). apply filter_In in Hc.
      destruct Hc as [Hc Hm]. apply mem_In in Hm. split; [assumption|].
      now apply in_map.
    + etransitivity; [apply applied_errors_length|apply filter_length_le].
Qed.

Lemma apply_notes_respects_filter_witness :
  In 2 [2] /\ In 2 (map change_slide_number changes_1_2_3).
Proof.
  apply (proj1 (apply_notes_respects_filter
                  (host_of (deck_of body_shape 3)) changes_1_2_3 [2]
                  (mkOutcome [2] [] []) eq_refl) 2).
  left. reflexivity.
Defined.

(** X7. When the filter leaves no change, [apply_notes] returns the empty
    outcome without starting the application: the result does not depend
    on whether the application would start, the file would open or the
    save would succeed. *)
Theorem apply_notes_nothing_selected :
  forall (host : Host) (changes : list Change) (slides : list Z),
    HAS_COM host = true ->
    (forall c, In c changes -> ~ In (change_slide_number c) slides) ->
    apply_notes host changes (Some slides) = Ok (mkOutcome [] [] []).
Proof.
  intros host changes slides Hcom Hnone. unfold apply_notes.
  rewrite Hcom. cbn [negb selected].
  replace (filter _ changes) with (@nil Change); [reflexivity|].
  symmetry. induction changes as [|c l IH]; [reflexivity|]. simpl.
  destruct (mem (change_slide_number c) slides) eqn:E.
  - apply mem_In in E. exfalso. apply (Hnone c); [now left|assumption].
  - apply IH. intros c' Hc'. apply Hnone. now right.
Qed.

Lemma apply_notes_nothing_selected_witness :
  apply_notes (mkHost true (Raise (lit "no PowerPoint")) (fun _ => Raise []))
              changes_1_2_3 (Some [7])
  = Ok (mkOutcome [] [] []).
Proof.
  apply apply_notes_nothing_selected; [reflexivity|].
  intros c Hc Hin. simpl in Hc, Hin.
  destruct Hin as [Hin|[]].
  destruct Hc as [<-|[<-|[<-|[]]]]; discriminate Hin.
Defined.

(* ================================================================== *)
(** * Opening with retry *)
(* ================================================================== *)

Lemma open_attempts_Ok (app : Host) (m left : nat) :
  forall (attempt : nat) (last : str) (pres : Presentation),
    open_attempts app m attempt left last = Ok pres <->
    exists k, (attempt <= k < attempt + left)%nat
              /\ Presentations_Open app k = Ok pres
              /\ forall j, (attempt <= j < k)%nat ->
                           exists e, Presentations_Open app j = Raise e.
Proof.
  induction left as [|left IH]; intros attempt last pres; simpl.
  - split; [discriminate|]. intros (k & Hk & _). lia.
  - destruct (Presentations_Open app attempt) as [p|e] eqn:E.
    + split.
      * intros [= ->]. exists attempt. repeat split; [lia|lia|assumption|].
        intros j Hj. lia.
      * intros (k & Hk & Hok & Hbefore).
        destruct (Nat.eq_dec k attempt) as [->|Hne]; [congruence|].
        destruct (Hbefore attempt ltac:(lia)) as (e & He). congruence.
    + rewrite IH. split.
      * intros (k & Hk & Hok & Hbefore). exists k.
        repeat split; [lia|lia|assumption|].
        intros j Hj. destruct (Nat.eq_dec j attempt) as [->|Hne].
        -- now exists e.
        -- apply Hbefore. lia.
      * intros (k & Hk & Hok & Hbefore).
        destruct (Nat.eq_dec k attempt) as [->|Hne]; [congruence|].
        exists k. repeat split; [lia|lia|assumption|].
        intros j Hj. apply Hbefore. lia.
Qed.

Lemma open_attempts_Raise (app : Host) (m left : nat) :
  forall (attempt : nat) (last : str),
    (forall j, (attempt <= j < attempt + left)%nat ->
               exists e, Presentations_Open app j = Raise e) ->
    exists e,
      open_attempts app m attempt left last
      = Raise (lit "Failed to open presentation after "
               ++ str_of_int (Z.of_nat m) ++ lit " attempts: " ++ e)
      /\ (left = O -> e = last)
      /\ (left <> O ->
          Presentations_Open app (attempt + left - 1) = Raise e).
Proof.
  induction left as [|left IH]; intros attempt last Hall; simpl.
  - exists last. repeat split. intro H. contradiction.
  - destruct (Hall attempt ltac:(lia)) as (e & He). rewrite He.
    destruct (IH (S attempt) e) as (e' & Hr & H0 & HS).
    { intros j Hj. apply Hall. lia. }
    exists e'. split; [assumption|]. split; [discriminate|]. intros _.
    destruct left as [|left'].
    + rewrite (H0 eq_refl). replace (attempt + 1 - 1)%nat with attempt by lia.
      assumption.
    + replace (attempt + S (S left') - 1)%nat
        with (S attempt + S left' - 1)%nat by lia.
      apply HS. discriminate.
Qed.

(** X8. [open_presentation_with_retry] returns the presentation of the
    first of its three attempts that succeeds and never makes a fourth;
    when all three fail it raises, and the message ends with the error of
    the third attempt. *)
Theorem open_presentation_with_retry_spec :
  forall app : Host,
    (forall pres,
       open_presentation_with_retry app = Ok pres <->
       exists k, (1 <= k <= 3)%nat
                 /\ Presentations_Open app k = Ok pres
                 /\ forall j, (1 <= j < k)%nat ->
                              exists e, Presentations_Open app j = Raise e)
    /\ ((forall j, (1 <= j <= 3)%nat ->
                   exists e, Presentations_Open app j = Raise e) ->
        exists e,
          Presentations_Open app 3 = Raise e
          /\ open_presentation_with_retry app
             = Raise (lit "Failed to open presentation after 3 attempts: " ++ e)).
Proof.
  intro app. unfold open_presentation_with_retry, COM_RETRY_ATTEMPTS. split.
  - intro pres. rewrite open_attempts_Ok. split.
    + intros (k & Hk & H). exists k. split; [lia|exact H].
    + intros (k & Hk & H). exists k. split; [lia|exact H].
  - intro Hall.
    destruct (open_attempts_Raise app 3 3 1 (lit "None")) as (e & Hr & _ & HS).
    { intros j Hj. apply Hall. lia. }
    exists e. split; [apply HS; discriminate|]. rewrite Hr. reflexivity.
Qed.

Lemma open_presentation_with_retry_spec_witness :
  open_presentation_with_retry
    (mkHost true (Ok tt)
       (fun k => if Nat.eqb k 2 then Ok deck_read_only else Raise (lit "busy")))
  = Ok deck_read_only.
Proof.
  apply (proj1 (open_presentation_with_retry_spec _)).
  exists 2%nat. split; [lia|]. split; [reflexivity|].
  intros j Hj. exists (lit "busy").
  assert (j = 1%nat) as -> by lia. reflexivity.
Defined.

(* ================================================================== *)
(** * Further properties of the parsers *)
(* ================================================================== *)

Lemma key_flush_start (p : str) (st : ParseState) (g : str * option str) :
  map note_key (flush p (started p st g))
  = map note_key (flush p st) ++ [header_key g].
Proof.
  unfold started. unfold flush at 1.
  cbn [current_slide notes_data]. now rewrite map_app.
Qed.

Lemma key_flush_add (p : str) (st : ParseState) (text kept : str) :
  map note_key (flush p (add_line p st text kept))
  = map note_key (flush p st).
Proof.
  unfold add_line. destruct (current_slide st) as [[n t]|] eqn:E;
    [|reflexivity].
  destruct (negb (str_eqb text p)); [|reflexivity].
  unfold flush. cbn [current_slide notes_data]. rewrite E.
  now rewrite !map_app.
Qed.

Lemma txt_pass_key (st : ParseState) (line : str) :
  map note_key (flush NO_NOTES (txt_pass st line))
  = map note_key (flush NO_NOTES st) ++ txt_header line.
Proof.
  unfold txt_pass, txt_header. cbv zeta.
  destruct (separator_pattern (strip line)); [now rewrite app_nil_r|].
  destruct (slide_pattern (strip line)) as [g|].
  - apply key_flush_start.
  - rewrite key_flush_add. now rewrite app_nil_r.
Qed.

Lemma md_pass_key (st : ParseState) (line : str) :
  map note_key (flush NO_NOTES_MD (md_pass st line))
  = map note_key (flush NO_NOTES_MD st) ++ md_header_line line.
Proof.
  unfold md_pass, md_header_line. cbv zeta.
  destruct (startswith (lit "# ") (strip line)
            || str_eqb (strip line) (lit "---")); [now rewrite app_nil_r|].
  destruct (md_slide_pattern (strip line)) as [g|].
  - apply key_flush_start.
  - rewrite key_flush_add. now rewrite app_nil_r.
Qed.

Lemma docx_pass_key (st : ParseState) (para : Paragraph) :
  map note_key (flush NO_NOTES (docx_pass st para))
  = map note_key (flush NO_NOTES st) ++ docx_header para.
Proof.
  unfold docx_pass, docx_header. cbv zeta.
  destruct (negb (truthy (strip (para_text para)))
            || separator_pattern (strip (para_text para)));
    [now rewrite app_nil_r|].
  destruct (slide_pattern (strip (para_text para))) as [g|].
  - apply key_flush_start.
  - rewrite key_flush_add. now rewrite app_nil_r.
Qed.

Lemma fold_keys {A} (p : str) (step : ParseState -> A -> ParseState)
    (header : A -> list (Z * str)) :
  (forall st x, map note_key (flush p (step st x))
                = map note_key (flush p st) ++ header x) ->
  forall xs st,
    map note_key (flush p (fold_left step xs st))
    = map note_key (flush p st) ++ flat_map header xs.
Proof.
  intros Hstep xs. induction xs as [|x xs IH]; intro st; simpl.
  - now rewrite app_nil_r.
  - now rewrite IH, Hstep, <- app_assoc.
Qed.

(** X9. A parser that returns, returns one record for every header it
    met, in the order of the file and with the header's slide number and
    title; a slide number met twice gives two records, and a file without
    header gives none.  It returns exactly when no header carries more
    digits than the interpreter converts (4300); otherwise the conversion
    of the number raises. *)
Theorem parsers_one_record_per_header :
  (forall (file : str) (parsed : list Note),
     _parse_txt file = Ok parsed ->
     map note_key parsed = flat_map txt_header (split_nl (read_text file)))
  /\ (forall (file : str) (parsed : list Note),
        _parse_md file = Ok parsed ->
        map note_key parsed
        = flat_map md_header_line (split_nl (read_text file)))
  /\ (forall (doc : list Paragraph) (parsed : list Note),
        _parse_docx true doc = Ok parsed ->
        map note_key parsed = flat_map docx_header doc)
  /\ (forall file : str,
        (exists parsed, _parse_txt file = Ok parsed)
        <-> forallb txt_fits (split_nl (read_text file)) = true)
  /\ (forall file : str,
        (exists parsed, _parse_md file = Ok parsed)
        <-> forallb md_fits (split_nl (read_text file)) = true)
  /\ (forall doc : list Paragraph,
        (exists parsed, _parse_docx true doc = Ok parsed)
        <-> forallb docx_fits doc = true).
Proof.
  split; [|split; [|split; [|split; [|split]]]].
  - intros file parsed H. destruct (_parse_txt_Ok file parsed H) as [_ ->].
    now rewrite (fold_keys NO_NOTES txt_pass txt_header txt_pass_key).
  - intros file parsed H. destruct (_parse_md_Ok file parsed H) as [_ ->].
    now rewrite (fold_keys NO_NOTES_MD md_pass md_header_line md_pass_key).
  - intros doc parsed H. destruct (_parse_docx_Ok doc parsed H) as [_ ->].
    now rewrite (fold_keys NO_NOTES docx_pass docx_header docx_pass_key).
  - intro file. split.
    + intros [parsed H]. now destruct (_parse_txt_Ok file parsed H).
    + intro H. eexists. unfold _parse_txt. cbv zeta.
      now apply (finish_loop_pass txt_step txt_pass txt_fits txt_step_pass).
  - intro file. split.
    + intros [parsed H]. now destruct (_parse_md_Ok file parsed H).
    + intro H. eexists. unfold _parse_md. cbv zeta.
      now apply (finish_loop_pass md_step md_pass md_fits md_step_pass).
  - intro doc. split.
    + intros [parsed H]. now destruct (_parse_docx_Ok doc parsed H).
    + intro H. eexists. unfold _parse_docx. cbn [negb].
      now apply (finish_loop_pass docx_step docx_pass docx_fits
                   docx_step_pass).
Qed.

Lemma parsers_one_record_per_header_witness :
  map note_key [mkNote 3 (lit "Budget") (lit "Say hello.")]
  = flat_map txt_header (split_nl (read_text file_with_preamble))
  /\ exists parsed, _parse_txt file_with_preamble = Ok parsed.
Proof.
  split.
  - apply (proj1 parsers_one_record_per_header file_with_preamble).
    vm_compute. reflexivity.
  - apply (proj1 (proj2 (proj2 (proj2 parsers_one_record_per_header)))
             file_with_preamble).
    vm_compute. reflexivity.
Defined.

Lemma flush_notes_ok (p : str) (st : ParseState) :
  p <> [] ->
  Forall (parsed_notes_ok p) (notes_data st) ->
  Forall (parsed_notes_ok p) (flush p st).
Proof.
  intros Hp H. unfold flush. destruct (current_slide st) as [[n t]|];
    [|assumption].
  apply Forall_app. split; [assumption|]. constructor; [|constructor].
  unfold parsed_notes_ok. cbn [notes].
  destruct (str_eqb (strip (join_nl (current_notes st))) p) eqn:E.
  - split; [reflexivity|]. congruence.
  - split; [apply strip_idem|]. now apply str_eqb_neq.
Qed.

Lemma fold_notes_ok {A} (p : str) (step : ParseState -> A -> ParseState) :
  p <> [] ->
  (forall st x, step st x = st
                \/ (exists g, step st x = started p st g)
                \/ (exists t k, step st x = add_line p st t k)) ->
  forall xs st,
    Forall (parsed_notes_ok p) (notes_data st) ->
    Forall (parsed_notes_ok p) (flush p (fold_left step xs st)).
Proof.
  intros Hp Hstep xs. induction xs as [|x xs IH]; intros st Hst; simpl.
  - now apply flush_notes_ok.
  - apply IH. destruct (Hstep st x) as [->|[(g & ->)|(t & k & ->)]].
    + assumption.
    + cbn [started notes_data]. now apply flush_notes_ok.
    + unfold add_line. destruct (current_slide st); [|assumption].
      now destruct (negb (str_eqb t p)).
Qed.

Lemma txt_pass_cases (st : ParseState) (line : str) :
  txt_pass st line = st
  \/ (exists g, txt_pass st line = started NO_NOTES st g)
  \/ (exists t k, txt_pass st line = add_line NO_NOTES st t k).
Proof.
  unfold txt_pass. cbv zeta.
  destruct (separator_pattern (strip line)); [now left|].
  destruct (slide_pattern (strip line)) as [g|]; right; [left|right]; eauto.
Qed.

Lemma md_pass_cases (st : ParseState) (line : str) :
  md_pass st line = st
  \/ (exists g, md_pass st line = started NO_NOTES_MD st g)
  \/ (exists t k, md_pass st line = add_line NO_NOTES_MD st t k).
Proof.
  unfold md_pass. cbv zeta.
  destruct (startswith (lit "# ") (strip line)
            || str_eqb (strip line) (lit "---")); [now left|].
  destruct (md_slide_pattern (strip line)) as [g|]; right; [left|right]; eauto.
Qed.

Lemma docx_pass_cases (st : ParseState) (para : Paragraph) :
  docx_pass st para = st
  \/ (exists g, docx_pass st para = started NO_NOTES st g)
  \/ (exists t k, docx_pass st para = add_line NO_NOTES st t k).
Proof.
  unfold docx_pass. cbv zeta.
  destruct (negb (truthy (strip (para_text para)))
            || separator_pattern (strip (para_text para))); [now left|].
  destruct (slide_pattern (strip (para_text para))) as [g|];
    right; [left|right]; eauto.
Qed.

(** X10. Whatever the file holds, the notes of every record that a parser
    returns are trimmed and are never the parser's placeholder: a body that
    trims to the placeholder comes back empty. *)
Theorem parsed_notes_trimmed_not_placeholder :
  forall r : Note,
    (forall file parsed, _parse_txt file = Ok parsed ->
                         In r parsed -> parsed_notes_ok NO_NOTES r)
    /\ (forall file parsed, _parse_md file = Ok parsed ->
                            In r parsed -> parsed_notes_ok NO_NOTES_MD r)
    /\ (forall doc parsed, _parse_docx true doc = Ok parsed ->
                           In r parsed -> parsed_notes_ok NO_NOTES r).
Proof.
  intro r. split; [|split].
  - intros file parsed Hp Hin.
    destruct (_parse_txt_Ok file parsed Hp) as [_ ->].
    refine (proj1 (Forall_forall _ _) _ r Hin).
    apply (fold_notes_ok NO_NOTES txt_pass); [discriminate|..].
    + apply txt_pass_cases.
    + constructor.
  - intros file parsed Hp Hin.
    destruct (_parse_md_Ok file parsed Hp) as [_ ->].
    refine (proj1 (Forall_forall _ _) _ r Hin).
    apply (fold_notes_ok NO_NOTES_MD md_pass); [discriminate|..].
    + apply md_pass_cases.
    + constructor.
  - intros doc parsed Hp Hin.
    destruct (_parse_docx_Ok doc parsed Hp) as [_ ->].
    refine (proj1 (Forall_forall _ _) _ r Hin).
    apply (fold_notes_ok NO_NOTES docx_pass); [discriminate|..].
    + apply docx_pass_cases.
    + constructor.
Qed.

Lemma parsed_notes_trimmed_not_placeholder_witness :
  parsed_notes_ok NO_NOTES (mkNote 3 (lit "Budget") (lit "Say hello.")).
Proof.
  apply (proj1 (parsed_notes_trimmed_not_placeholder _) file_with_preamble
           [mkNote 3 (lit "Budget") (lit "Say hello.")]).
  - vm_compute. reflexivity.
  - left. reflexivity.
Defined.

Lemma read_text_app (a b : str) :
  ~ In CR a -> read_text (a ++ LF :: b) = a ++ LF :: read_text b.
Proof.
  induction a as [|c a IH]; intro H.
  - reflexivity.
  - cbn [app read_text].
    destruct (c =? CR) eqn:E; [apply Z.eqb_eq in E; simpl in H; tauto|].
    rewrite IH by (simpl in H; tauto). reflexivity.
Qed.

Lemma loop_closed {A} (step : ParseState -> A -> result ParseState)
    (header : A -> list (Z * str)) :
  (forall st x, current_slide st = None -> header x = [] ->
                step st x = Ok st) ->
  forall xs, flat_map header xs = [] ->
             parse_loop step xs parse_start = Ok parse_start.
Proof.
  intros Hstep xs. induction xs as [|x xs IH]; intro H; [reflexivity|].
  simpl in H. apply app_eq_nil in H. destruct H as [Hx Hxs].
  cbn [parse_loop]. rewrite Hstep by (reflexivity || assumption).
  now apply IH.
Qed.

Lemma add_line_closed (p : str) (st : ParseState) (t k : str) :
  current_slide st = None -> add_line p st t k = st.
Proof. intro H. unfold add_line. now rewrite H. Qed.

Lemma txt_step_closed (st : ParseState) (line : str) :
  current_slide st = None -> txt_header line = [] ->
  txt_step st line = Ok st.
Proof.
  intros Hc. unfold txt_header, txt_step. cbv zeta.
  destruct (separator_pattern (strip line)); [reflexivity|].
  destruct (slide_pattern (strip line)); [discriminate|].
  intros _. now rewrite add_line_closed.
Qed.

Lemma md_step_closed (st : ParseState) (line : str) :
  current_slide st = None -> md_header_line line = [] ->
  md_step st line = Ok st.
Proof.
  intros Hc. unfold md_header_line, md_step. cbv zeta.
  destruct (startswith (lit "# ") (strip line)
            || str_eqb (strip line) (lit "---")); [reflexivity|].
  destruct (md_slide_pattern (strip line)); [discriminate|].
  intros _. now rewrite add_line_closed.
Qed.

Lemma docx_step_closed (st : ParseState) (para : Paragraph) :
  current_slide st = None -> docx_header para = [] ->
  docx_step st para = Ok st.
Proof.
  intros Hc. unfold docx_header, docx_step. cbv zeta.
  destruct (negb (truthy (strip (para_text para)))
            || separator_pattern (strip (para_text para))); [reflexivity|].
  destruct (slide_pattern (strip (para_text para))); [discriminate|].
  intros _. now rewrite add_line_closed.
Qed.

(** X11. What stands before the first header is discarded: lines (or
    paragraphs) without header in front of a file do not change what the
    parser returns for the rest. *)
Theorem parsers_discard_preamble :
  (forall a b : str,
     ~ In CR a -> flat_map txt_header (split_nl a) = [] ->
     _parse_txt (a ++ LF :: b) = _parse_txt b)
  /\ (forall a b : str,
        ~ In CR a -> flat_map md_header_line (split_nl a) = [] ->
        _parse_md (a ++ LF :: b) = _parse_md b)
  /\ (forall pre doc : list Paragraph,
        flat_map docx_header pre = [] ->
        _parse_docx true (pre ++ doc) = _parse_docx true doc).
Proof.
  split; [|split].
  - intros a b Hcr Hh. unfold _parse_txt. cbv zeta.
    rewrite read_text_app, split_nl_app, parse_loop_app by assumption.
    now rewrite (loop_closed txt_step txt_header txt_step_closed).
  - intros a b Hcr Hh. unfold _parse_md. cbv zeta.
    rewrite read_text_app, split_nl_app, parse_loop_app by assumption.
    now rewrite (loop_closed md_step md_header_line md_step_closed).
  - intros pre doc Hh. unfold _parse_docx. cbn [negb].
    rewrite parse_loop_app.
    now rewrite (loop_closed docx_step docx_header docx_step_closed).
Qed.

Lemma parsers_discard_preamble_witness :
  _parse_txt (join_nl [lit "Notes for the recording"; []] ++ LF ::
              join_nl [lit "SLIDE 3:Budget"; lit "Say hello."])
  = _parse_txt (join_nl [lit "SLIDE 3:Budget"; lit "Say hello."]).
Proof.
  apply (proj1 parsers_discard_preamble).
  - vm_compute. intuition discriminate.
  - reflexivity.
Defined.

(* ================================================================== *)
(** * Line endings *)
(* ================================================================== *)





(* ================================================================== *)
(** * The header grammar *)
(* ================================================================== *)

Lemma ascii_lower_letter (c k : char) :
  97 <= k <= 122 -> ascii_lower c = k -> c = k \/ c = k - 32.
Proof. unfold ascii_lower. intros Hk H. destruct (_ && _) eqn:E; lia. Qed.

Lemma match_Slide_any_case (p rest : str) :
  map ascii_lower p = lit "slide" -> match_Slide (p ++ rest) = Some rest.
Proof.
  intro H.
  destruct p as [|c1 [|c2 [|c3 [|c4 [|c5 [|c6 p]]]]]]; try discriminate H.
  change (lit "slide") with [115; 108; 105; 100; 101] in H.
  injection H as H1 H2 H3 H4 H5.
  apply ascii_lower_letter in H1, H2, H3, H4, H5; try lia.
  cbn [app match_Slide].
  destruct H1 as [-> | ->], H2 as [-> | ->], H3 as [-> | ->],
           H4 as [-> | ->], H5 as [-> | ->]; reflexivity.
Qed.

Lemma match_number_title_general (ws d ws' t : str) :
  ws <> [] -> Forall (fun c => isspace c = true) ws ->
  d <> [] -> Forall ascii_digit d ->
  Forall (fun c => isspace c = true) ws' ->
  lstrip t = t -> ~ In LF t ->
  match_number_title (ws ++ d) = Some (d, None)
  /\ match_number_title (ws ++ d ++ 58 :: ws' ++ t) = Some (d, Some t).
Proof.
  intros Hws Hsp Hd Hdig Hsp' Hl Hlf.
  assert (Hdec : Forall (fun c => isdecimal c = true) d).
  { eapply Forall_impl; [|exact Hdig]. apply ascii_digit_isdecimal. }
  assert (Hnsp : forall r, takewhile isspace (d ++ r) = []
                           /\ dropwhile isspace (d ++ r) = d ++ r).
  { intro r. destruct d as [|d0 d]; [contradiction|].
    assert (E : isspace d0 = false)
      by (apply ascii_digit_not_space; now inversion Hdig).
    cbn [app takewhile dropwhile]. now rewrite E. }
  unfold match_number_title. split.
  - replace (ws ++ d) with (ws ++ d ++ []) by now rewrite app_nil_r.
    rewrite takewhile_app, dropwhile_app by assumption.
    destruct (Hnsp []) as [-> ->]. rewrite app_nil_r.
    destruct ws as [|w ws]; [contradiction|cbn [app]].
    rewrite takewhile_app, dropwhile_app by assumption.
    cbn [takewhile dropwhile]. rewrite app_nil_r.
    destruct d; [contradiction|reflexivity].
  - rewrite takewhile_app, dropwhile_app by assumption.
    destruct (Hnsp (58 :: ws' ++ t)) as [-> ->]. rewrite app_nil_r.
    destruct ws as [|w ws]; [contradiction|cbn [app]].
    rewrite takewhile_app, dropwhile_app by assumption.
    change (takewhile isdecimal (58 :: ws' ++ t)) with (@nil char).
    change (dropwhile isdecimal (58 :: ws' ++ t)) with (58 :: ws' ++ t).
    rewrite app_nil_r.
    destruct d as [|d0 d']; [contradiction|].
    assert (Hend : at_end (58 :: ws' ++ t) = false).
    { destruct (ws' ++ t) as [|x xs] eqn:E; reflexivity. }
    rewrite Hend, Z.eqb_refl.
    rewrite dropwhile_app by assumption. fold (lstrip t). rewrite Hl.
    destruct (takewhile_not_LF t Hlf) as [-> ->]. reflexivity.
Qed.

(** X13. The header grammar is tolerant: the word Slide is recognised in
    any mix of upper and lower case, any whitespace may stand between it
    and the number and after the colon, and the title may be missing.  The
    number is the run of digits and the title the rest of the line. *)
Theorem slide_pattern_tolerant :
  forall p ws d ws' t : str,
    map ascii_lower p = lit "slide" ->
    ws <> [] -> Forall (fun c => isspace c = true) ws ->
    d <> [] -> Forall ascii_digit d ->
    Forall (fun c => isspace c = true) ws' ->
    lstrip t = t -> ~ In LF t ->
    slide_pattern (p ++ ws ++ d) = Some (d, None)
    /\ slide_pattern (p ++ ws ++ d ++ 58 :: ws' ++ t) = Some (d, Some t)
    /\ md_slide_pattern (lit "##" ++ ws ++ p ++ ws ++ d ++ 58 :: ws' ++ t)
       = Some (d, Some t).
Proof.
  intros p ws d ws' t Hp Hws Hsp Hd Hdig Hsp' Hl Hlf.
  destruct (match_number_title_general ws d ws' t) as [H1 H2]; try assumption.
  unfold slide_pattern. rewrite !match_Slide_any_case by assumption.
  split; [assumption|]. split; [assumption|].
  change (lit "##" ++ ?x) with (35 :: 35 :: x).
  cbv beta iota delta [md_slide_pattern].
  assert (Hp0 : takewhile isspace (p ++ ws ++ d ++ 58 :: ws' ++ t) = []
                /\ dropwhile isspace (p ++ ws ++ d ++ 58 :: ws' ++ t)
                   = p ++ ws ++ d ++ 58 :: ws' ++ t).
  { destruct p as [|c1 p]; [discriminate Hp|].
    change (lit "slide") with [115; 108; 105; 100; 101] in Hp.
    injection Hp as H _. apply ascii_lower_letter in H; [|lia].
    cbn [app takewhile dropwhile]. destruct H as [-> | ->]; split; reflexivity. }
  rewrite takewhile_app, dropwhile_app by assumption.
  destruct Hp0 as [-> ->]. rewrite app_nil_r.
  destruct ws as [|w ws0]; [contradiction|].
  change (match (w :: ws0) with [] => None | _ :: _ => ?x end) with x.
  rewrite match_Slide_any_case by assumption. exact H2.
Qed.

Lemma slide_pattern_tolerant_witness :
  slide_pattern (lit "sLiDe" ++ [32; 9] ++ lit "12" ++ 58 :: [] ++ lit "Plan")
  = Some (lit "12", Some (lit "Plan")).
Proof.
  apply (slide_pattern_tolerant (lit "sLiDe") [32; 9] (lit "12") [] (lit "Plan")).
  - reflexivity.
  - discriminate.
  - repeat constructor.
  - discriminate.
  - repeat constructor; vm_compute; discriminate.
  - constructor.
  - reflexivity.
  - vm_compute. intuition discriminate.
Defined.

(* ================================================================== *)
(** * Properties of the extraction *)
(* ================================================================== *)

Lemma sanitize_text_fixed (x : str) :
  sanitize_text (sanitize_text x) = sanitize_text x.
Proof.
  rewrite !sanitize_text_filter.
  induction x as [|c x IH]; simpl; [reflexivity|].
  destruct (is_removed c) eqn:E; simpl; [exact IH|].
  rewrite E. simpl. now rewrite IH.
Qed.

Lemma slide_note_ok (slide : Reader.Slide) (i : Z) :
  extracted_ok (Reader.slide_note slide i)
  /\ slide_number (Reader.slide_note slide i) = i.
Proof.
  unfold extracted_ok, Reader.slide_note. cbv zeta. cbn [slide_title notes slide_number].
  now rewrite !sanitize_text_fixed.
Qed.

Lemma extract_slides_Ok (pres : Reader.Presentation) (indices : list Z) :
  forall acc l,
    Reader.extract_slides pres indices acc = Ok l ->
    exists new, l = acc ++ new
                /\ map slide_number new = indices
                /\ Forall extracted_ok new.
Proof.
  induction indices as [|i rest IH]; intros acc l H; simpl in H.
  - injection H as <-. exists []. now rewrite app_nil_r.
  - destruct (Reader.Slides_Item pres i) as [slide|e]; [|discriminate].
    destruct (IH _ _ H) as (new & -> & Hn & Hok).
    destruct (slide_note_ok slide i) as [Hs Hi].
    exists (Reader.slide_note slide i :: new). repeat split.
    + now rewrite <- app_assoc.
    + cbn [map]. now rewrite Hi, Hn.
    + now constructor.
Qed.

Lemma extract_notes_Ok (host : Reader.Host) (path : str) (l : list Note) :
  Reader.extract_notes host path = Ok l ->
  exists n, map slide_number l = Reader.range_from_1 n /\ Forall extracted_ok l.
Proof.
  unfold Reader.extract_notes.
  destruct (Reader.HAS_COM host); [|discriminate].
  destruct (Reader.isfile host); [|discriminate]. cbn [negb].
  destruct (Reader.Dispatch host); [|discriminate].
  destruct (Reader.open_presentation_with_retry host) as [pres|]; [|discriminate].
  destruct (Reader.Slides_Count pres) as [n|]; [|discriminate].
  destruct (Reader.extract_slides pres (Reader.range_from_1 n) []) as [l'|] eqn:E;
    [|discriminate].
  intros [= <-]. apply extract_slides_Ok in E.
  destruct E as (new & -> & Hn & Hok). exists n. tauto.
Qed.

Lemma NoDup_map_of_nat (l : list nat) : NoDup l -> NoDup (map Z.of_nat l).
Proof.
  induction 1 as [|x l Hx Hl IH]; simpl; constructor; [|assumption].
  intro H. apply in_map_iff in H. destruct H as (y & Hy & Hin).
  apply Nat2Z.inj in Hy. now subst.
Qed.

(** X14. A snapshot that [extract_notes] returns numbers its records
    1, 2, 3, ... in this order, without gap or repetition, and every title
    and every notes text in it is sanitized. *)
Theorem extract_notes_snapshot :
  forall (host : Reader.Host) (path : str) (l : list Note),
    Reader.extract_notes host path = Ok l ->
    map slide_number l = map Z.of_nat (seq 1 (List.length l))
    /\ NoDup (map slide_number l)
    /\ Forall extracted_ok l.
Proof.
  intros host path l H. destruct (extract_notes_Ok host path l H) as (n & Hn & Hok).
  assert (Hlen : List.length l = Z.to_nat n).
  { rewrite <- (length_map slide_number), Hn. unfold Reader.range_from_1.
    now rewrite length_map, length_seq. }
  split; [|split; [|assumption]].
  - now rewrite Hlen.
  - rewrite Hn. unfold Reader.range_from_1.
    apply NoDup_map_of_nat, seq_NoDup.
Qed.

Lemma extract_notes_snapshot_witness :
  Reader.extract_notes host_to_read (lit "deck.pptx")
  = Ok [mkNote 1 (lit "Agenda") (lit " Welcome"); mkNote 2 [] []]
  /\ NoDup (map slide_number
              [mkNote 1 (lit "Agenda") (lit " Welcome"); mkNote 2 [] []]).
Proof.
  split; [reflexivity|].
  exact (proj1 (proj2 (extract_notes_snapshot host_to_read (lit "deck.pptx")
                         _ eq_refl))).
Defined.

Lemma extract_slides_total (pres : Reader.Presentation) (indices : list Z) :
  (forall i, In i indices -> exists s, Reader.Slides_Item pres i = Ok s) ->
  forall acc, exists l, Reader.extract_slides pres indices acc = Ok l
                        /\ List.length l
                           = (List.length acc + List.length indices)%nat.
Proof.
  induction indices as [|i rest IH]; intros Hall acc; simpl.
  - exists acc. split; [reflexivity|lia].
  - destruct (Hall i (or_introl eq_refl)) as (s & ->).
    destruct (IH (fun j Hj => Hall j (or_intror Hj))
                 (acc ++ [Reader.slide_note s i])) as (l & Hl & Hlen).
    exists l. split; [assumption|]. rewrite Hlen, length_app. simpl. lia.
Qed.

Lemma extract_slides_fails (pres : Reader.Presentation) (indices : list Z)
    (i : Z) (e : str) :
  In i indices -> Reader.Slides_Item pres i = Raise e ->
  forall acc, exists e', Reader.extract_slides pres indices acc = Raise e'.
Proof.
  induction indices as [|j rest IH]; intros Hin He acc; [contradiction|].
  simpl. destruct (Z.eq_dec j i) as [->|Hne].
  - rewrite He. now exists e.
  - destruct (Reader.Slides_Item pres j) as [s|e0]; [|now exists e0].
    apply IH; [|assumption]. destruct Hin; [contradiction|assumption].
Qed.

Lemma range_from_1_In (n i : Z) :
  In i (Reader.range_from_1 n) <-> 1 <= i <= n.
Proof.
  unfold Reader.range_from_1. rewrite in_map_iff. split.
  - intros (k & <- & Hk). apply in_seq in Hk. lia.
  - intro H. exists (Z.to_nat i). split; [lia|]. apply in_seq. lia.
Qed.

(** X15. Once the presentation is open and counts [n] slides, the
    extraction succeeds exactly when every slide from 1 to [n] can be
    fetched, and then returns [n] records: shapes that raise only leave a
    title or notes empty, while one slide that cannot be fetched fails the
    whole extraction. *)
Theorem extract_notes_succeeds_iff :
  forall (host : Reader.Host) (path : str) (pres : Reader.Presentation) (n : Z),
    Reader.HAS_COM host = true -> Reader.isfile host = true ->
    Reader.Dispatch host = Ok tt ->
    Reader.open_presentation_with_retry host = Ok pres ->
    Reader.Slides_Count pres = Ok n ->
    ((forall i, 1 <= i <= n -> exists s, Reader.Slides_Item pres i = Ok s) ->
     exists l, Reader.extract_notes host path = Ok l
               /\ List.length l = Z.to_nat n)
    /\ (forall i e, 1 <= i <= n -> Reader.Slides_Item pres i = Raise e ->
        exists e', Reader.extract_notes host path
                   = Raise (Reader.failed_to_extract e')).
Proof.
  intros host path pres n Hcom Hfile Hd Hopen Hn.
  unfold Reader.extract_notes. rewrite Hcom, Hfile, Hd, Hopen, Hn. cbn [negb].
  split.
  - intro Hall.
    destruct (extract_slides_total pres (Reader.range_from_1 n)) with (acc := @nil Note)
      as (l & Hl & Hlen).
    { intros i Hi. apply Hall. now apply range_from_1_In. }
    rewrite Hl. exists l. split; [reflexivity|].
    rewrite Hlen. unfold Reader.range_from_1.
    now rewrite length_map, length_seq.
  - intros i e Hi He.
    destruct (extract_slides_fails pres (Reader.range_from_1 n) i e) with (acc := @nil Note)
      as (e' & He'); [now apply range_from_1_In|assumption|].
    rewrite He'. now exists e'.
Qed.

Lemma extract_notes_succeeds_iff_witness :
  exists l, Reader.extract_notes host_to_read (lit "deck.pptx") = Ok l
            /\ List.length l = Z.to_nat 2.
Proof.
  apply (proj1 (extract_notes_succeeds_iff host_to_read (lit "deck.pptx")
                  deck_to_read 2 eq_refl eq_refl eq_refl eq_refl eq_refl)).
  intros i Hi. unfold deck_to_read. cbn [Reader.Slides_Item].
  destruct (i =? 1); eexists; reflexivity.
Defined.

(* ================================================================== *)
(** * Decoration and control characters *)
(* ================================================================== *)

Lemma txt_step_separator (st : ParseState) (line : str) :
  separator_pattern (strip line) = true -> txt_step st line = Ok st.
Proof. intro H. unfold txt_step. cbv zeta. now rewrite H. Qed.

Lemma md_step_decoration (st : ParseState) (line : str) :
  startswith (lit "# ") (strip line) || str_eqb (strip line) (lit "---") = true ->
  md_step st line = Ok st.
Proof. intro H. unfold md_step. cbv zeta. now rewrite H. Qed.

Lemma docx_step_decoration (st : ParseState) (para : Paragraph) :
  negb (truthy (strip (para_text para)))
  || separator_pattern (strip (para_text para)) = true ->
  docx_step st para = Ok st.
Proof. intro H. unfold docx_step. cbv zeta. now rewrite H. Qed.

Lemma loop_insert {A} (step : ParseState -> A -> result ParseState)
    (xs ys : list A) (x : A) (st : ParseState) :
  (forall st', step st' x = Ok st') ->
  parse_loop step (xs ++ x :: ys) st = parse_loop step (xs ++ ys) st.
Proof.
  intro Hstep. rewrite !parse_loop_app.
  destruct (parse_loop step xs st) as [st'|e]; [|reflexivity].
  cbn [parse_loop]. now rewrite Hstep.
Qed.

(** Universal newlines, whatever stands before a line feed: the text
    read up to it does not depend on what follows. *)
Lemma read_text_prefix (a : str) :
  exists x, forall rest,
    read_text (a ++ LF :: rest) = x ++ LF :: read_text rest.
Proof.
  assert (H : forall (n : nat) (a : str), (List.length a <= n)%nat ->
              exists x, forall rest,
                read_text (a ++ LF :: rest) = x ++ LF :: read_text rest).
  { clear a. induction n as [|n IH]; intros a Hlen.
    - destruct a; [|simpl in Hlen; lia]. now exists [].
    - destruct a as [|c a]; [now exists []|].
      cbn [List.length] in Hlen.
      destruct (c =? CR) eqn:E.
      + destruct a as [|c2 a].
        * exists []. intro rest. cbn [app read_text]. now rewrite E.
        * cbn [List.length] in Hlen. destruct (c2 =? LF) eqn:E2.
          -- destruct (IH a ltac:(lia)) as [x Hx]. exists (LF :: x).
             intro rest. cbn [app]. rewrite <- Hx.
             cbn [read_text]. now rewrite E, E2.
          -- destruct (IH (c2 :: a) ltac:(simpl; lia)) as [x Hx].
             exists (LF :: x). intro rest. cbn [app]. rewrite <- Hx.
             change (read_text (c :: c2 :: a ++ LF :: rest))
               with (if c =? CR
                     then if c2 =? LF
                          then LF :: read_text (a ++ LF :: rest)
                          else LF :: read_text (c2 :: a ++ LF :: rest)
                     else c :: read_text (c2 :: a ++ LF :: rest)).
             now rewrite E, E2.
      + destruct (IH a ltac:(lia)) as [x Hx]. exists (c :: x).
        intro rest. cbn [app]. rewrite <- Hx. cbn [read_text]. now rewrite E. }
  now apply (H (List.length a)).
Qed.

Lemma read_text_line (line eol b : str) :
  ~ In CR line -> eol = [LF] \/ eol = [CR; LF] ->
  read_text (line ++ eol ++ b) = line ++ LF :: read_text b.
Proof.
  intros Hcr Heol. induction line as [|c line IH].
  - destruct Heol as [-> | ->]; reflexivity.
  - cbn [app read_text].
    destruct (c =? CR) eqn:E; [apply Z.eqb_eq in E; simpl in Hcr; tauto|].
    rewrite IH by (simpl in Hcr; tauto). reflexivity.
Qed.

Lemma lines_insert (a line eol b : str) :
  ~ In CR line -> ~ In LF line -> eol = [LF] \/ eol = [CR; LF] ->
  exists xs,
    split_nl (read_text (a ++ LF :: line ++ eol ++ b))
    = xs ++ line :: split_nl (read_text b)
    /\ split_nl (read_text (a ++ LF :: b)) = xs ++ split_nl (read_text b).
Proof.
  intros Hcr Hlf Heol. destruct (read_text_prefix a) as [x Hx].
  exists (split_nl x). rewrite !Hx, read_text_line by assumption.
  rewrite !split_nl_app, (split_nl_one line) by assumption.
  now split.
Qed.

(** X16. Decoration is skipped wherever it stands: when the lines of a
    text file, as they are read, are those of another file with one rule
    line more (for Markdown: a rule or title line more), at the start,
    between two lines or at the end, the parser returns the same for
    both, or raises the same; so it does when such a line and its line
    end, a line feed or a carriage return and a line feed, are inserted
    after a line feed of the file, and when an empty or rule paragraph is
    inserted into a Word document. *)
Theorem parsers_skip_decoration :
  (forall (file file' : str) (above below : list str) (line : str),
     split_nl (read_text file) = above ++ line :: below ->
     split_nl (read_text file') = above ++ below ->
     separator_pattern (strip line) = true ->
     _parse_txt file = _parse_txt file')
  /\ (forall (file file' : str) (above below : list str) (line : str),
        split_nl (read_text file) = above ++ line :: below ->
        split_nl (read_text file') = above ++ below ->
        startswith (lit "# ") (strip line)
        || str_eqb (strip line) (lit "---") = true ->
        _parse_md file = _parse_md file')
  /\ (forall a line eol b : str,
        ~ In CR line -> ~ In LF line -> eol = [LF] \/ eol = [CR; LF] ->
        separator_pattern (strip line) = true ->
        _parse_txt (a ++ LF :: line ++ eol ++ b) = _parse_txt (a ++ LF :: b))
  /\ (forall a line eol b : str,
        ~ In CR line -> ~ In LF line -> eol = [LF] \/ eol = [CR; LF] ->
        startswith (lit "# ") (strip line)
        || str_eqb (strip line) (lit "---") = true ->
        _parse_md (a ++ LF :: line ++ eol ++ b) = _parse_md (a ++ LF :: b))
  /\ (forall (pre doc : list Paragraph) (para : Paragraph),
        negb (truthy (strip (para_text para)))
        || separator_pattern (strip (para_text para)) = true ->
        _parse_docx true (pre ++ para :: doc) = _parse_docx true (pre ++ doc)).
Proof.
  assert (Htxt : forall (file file' : str) (above below : list str) line,
             split_nl (read_text file) = above ++ line :: below ->
             split_nl (read_text file') = above ++ below ->
             separator_pattern (strip line) = true ->
             _parse_txt file = _parse_txt file').
  { intros file file' above below line H1 H2 Hs. unfold _parse_txt. cbv zeta.
    rewrite H1, H2. f_equal. apply loop_insert.
    intro st. now apply txt_step_separator. }
  assert (Hmd : forall (file file' : str) (above below : list str) line,
             split_nl (read_text file) = above ++ line :: below ->
             split_nl (read_text file') = above ++ below ->
             startswith (lit "# ") (strip line)
             || str_eqb (strip line) (lit "---") = true ->
             _parse_md file = _parse_md file').
  { intros file file' above below line H1 H2 Hs. unfold _parse_md. cbv zeta.
    rewrite H1, H2. f_equal. apply loop_insert.
    intro st. now apply md_step_decoration. }
  split; [exact Htxt|]. split; [exact Hmd|]. split; [|split].
  - intros a line eol b Hcr Hlf Heol Hs.
    destruct (lines_insert a line eol b Hcr Hlf Heol) as (xs & H1 & H2).
    exact (Htxt _ _ _ _ _ H1 H2 Hs).
  - intros a line eol b Hcr Hlf Heol Hs.
    destruct (lines_insert a line eol b Hcr Hlf Heol) as (xs & H1 & H2).
    exact (Hmd _ _ _ _ _ H1 H2 Hs).
  - intros pre doc para Hs. unfold _parse_docx. cbn [negb]. f_equal.
    apply loop_insert. intro st. now apply docx_step_decoration.
Qed.

Lemma parsers_skip_decoration_witness :
  _parse_txt (times RULE_DOUBLE 12 ++ LF :: lit "Slide 1")
  = _parse_txt (lit "Slide 1")
  /\ _parse_txt ((lit "Slide 1" ++ [CR]) ++ LF :: times RULE_DOUBLE 12
                 ++ [CR; LF] ++ lit "body")
     = _parse_txt ((lit "Slide 1" ++ [CR]) ++ LF :: lit "body").
Proof.
  split.
  - apply (proj1 parsers_skip_decoration _ _ [] [lit "Slide 1"]
             (times RULE_DOUBLE 12)).
    + vm_compute. reflexivity.
    + vm_compute. reflexivity.
    + vm_compute. reflexivity.
  - apply (proj1 (proj2 (proj2 parsers_skip_decoration))
             (lit "Slide 1" ++ [CR]) (times RULE_DOUBLE 12) [CR; LF]
             (lit "body")).
    + intro H. apply times_char in H. discriminate.
    + intro H. apply times_char in H. discriminate.
    + now right.
    + vm_compute. reflexivity.
Defined.

Lemma run_text_In (c : char) (s : str) :
  In c (run_text s) -> c = LF \/ In c s.
Proof.
  unfold run_text. intro H. apply in_map_iff in H.
  destruct H as (x & Hx & Hin). destruct (x =? CR); [now left|].
  right. now subst.
Qed.

Lemma sanitize_text_clean (c : char) (s : str) :
  In c (sanitize_text s) -> is_removed c = false.
Proof.
  rewrite sanitize_text_filter, filter_In, negb_true_iff. tauto.
Qed.

Lemma docx_header_text_clean (c : char) (n : Z) (t : str) :
  In c (docx_header_text n t) -> is_removed c = false.
Proof.
  unfold docx_header_text. intro H.
  assert (Hs : forall x, In x (lit "Slide " ++ str_of_int n) ->
                         is_removed x = false).
  { intros x Hx. apply in_app_or in Hx. destruct Hx as [Hx|Hx].
    - vm_compute in Hx.
      repeat (destruct Hx as [<-|Hx]; [reflexivity|]). destruct Hx.
    - apply str_of_int_chars in Hx. unfold is_removed.
      destruct Hx as [->|Hx]; [reflexivity|].
      replace (x <? 32) with false by lia.
      replace (x =? 127) with false by lia.
      now rewrite andb_false_r. }
  destruct (truthy t); [|now apply Hs].
  rewrite app_assoc in H. apply in_app_or in H. destruct H as [H|H];
    [now apply Hs|].
  apply in_app_or in H. destruct H as [H|H].
  - vm_compute in H. repeat (destruct H as [<-|H]; [reflexivity|]). destruct H.
  - now apply sanitize_text_clean with t.
Qed.

(** X17. Whatever the records hold, no paragraph that [export_to_docx]
    writes contains a character that [sanitize_text] removes. *)
Theorem export_to_docx_has_no_control_character :
  forall (rs : list Note) (doc : list Paragraph) (para : Paragraph) (c : char),
    export_to_docx true rs = Ok doc ->
    In para doc -> In c (para_text para) -> is_removed c = false.
Proof.
  intros rs doc para c H Hp Hc. apply export_to_docx_Ok in H. subst doc.
  apply in_flat_map in Hp. destruct Hp as (r & _ & Hp).
  unfold docx_paragraphs_of in Hp.
  assert (Hrule : forall x, In x (times RULE_LIGHT 50) -> is_removed x = false).
  { intros x Hx. apply times_char in Hx. now subst. }
  destruct Hp as [<-|[<-|Hp]].
  - cbn [para_text add_paragraph] in Hc. apply run_text_In in Hc.
    destruct Hc as [->|Hc]; [reflexivity|].
    now apply docx_header_text_clean in Hc.
  - cbn [para_text add_paragraph] in Hc. apply run_text_In in Hc.
    destruct Hc as [->|Hc]; [reflexivity|]. now apply Hrule.
  - cbn [app] in Hp. apply in_app_or in Hp. destruct Hp as [Hp|[<-|[]]].
    + destruct (truthy (notes r)).
      * apply in_flat_map in Hp. destruct Hp as (l & Hl & Hp).
        destruct (truthy (strip l)); [|contradiction].
        destruct Hp as [<-|[]].
        cbn [para_text add_paragraph] in Hc. apply run_text_In in Hc.
        destruct Hc as [->|Hc]; [reflexivity|].
        apply strip_In in Hc.
        apply sanitize_text_clean with (notes r).
        now apply split_nl_line_In with l.
      * destruct Hp as [<-|[]].
        vm_compute in Hc.
        repeat (destruct Hc as [<-|Hc]; [reflexivity|]). destruct Hc.
    + destruct Hc.
Qed.

Lemma export_to_docx_has_no_control_character_witness :
  is_removed 66 = false.
Proof.
  apply (export_to_docx_has_no_control_character
           [note_with_controls] _
           (add_paragraph (lit "Slide 5: Bell") true false) 66 eq_refl).
  - left. reflexivity.
  - vm_compute. tauto.
Defined.
